(** * claude-skills: the skill package builder and the GitHub task synchroniser

    A shallow embedding of [.github/scripts/build_skills.py] and
    [github-task-sync/scripts/sync_tasks.py], and the properties of the two
    scripts stated over it.

    Python text is a list of characters; a character is a code point below
    256.  The regular expressions of the scripts are values of a small
    backtracking matcher that follows the priority order of Python's [re].
    External processes, the file system with the paths of [pathlib], and
    the JSON parser are the fields of a class, one for each script; the
    scripts are written in a state and exception monad over it that records
    the commands launched and the files touched.

    The tasks of the synchroniser are JSON values, as [json.loads] returns
    them and as the script passes them on unchecked: a value of another
    type than the code expects raises [TypeError] or [AttributeError] where
    Python raises it.  The other exceptions of the synchroniser are
    [FileNotFoundError] from a command or a file that is not found, the
    failure of a command run with [check=True], a JSON document that does
    not parse, and [SystemExit].  In the builder, listing the root, reading
    a manifest, deleting an archive and writing the listing can fail and
    nobody catches the exception; what [shutil.make_archive] raises is
    caught.  The synchroniser's messages on the output streams are left
    out; the builder's are kept. *)

From Stdlib Require Import List String Ascii ZArith Lia Bool Arith.
From Stdlib Require Import Permutation Sorted DecimalString.
Import ListNotations.

Set Implicit Arguments.

(** ** Python strings *)

Module Py.

Definition pystr := list ascii.

(** A literal. *)
Definition py (s : string) : pystr := list_ascii_of_string s.

Definition code (c : ascii) : nat := nat_of_ascii c.

(** [str.isspace] on one character, which is also the class [\s] of [re]
    on text patterns: TAB, LF, VT, FF, CR, FS, GS, RS, US, space, and in the
    Latin-1 range NEL and NBSP. *)
Definition isspace (c : ascii) : bool :=
  let n := code c in
  ((9 <=? n) && (n <=? 13)) || ((28 <=? n) && (n <=? 32))
  || (n =? 133) || (n =? 160).

Definition eqc (a b : ascii) : bool := Ascii.eqb a b.

Definition mem (c : ascii) (cs : pystr) : bool := existsb (eqc c) cs.

Fixpoint eqs (a b : pystr) : bool :=
  match a, b with
  | [], [] => true
  | x :: a', y :: b' => eqc x y && eqs a' b'
  | _, _ => false
  end.

(** [s.lstrip(chars)], [s.rstrip(chars)]: drop the leading (trailing)
    characters that belong to the class. *)
Fixpoint lstrip_by (p : ascii -> bool) (s : pystr) : pystr :=
  match s with
  | [] => []
  | c :: s' => if p c then lstrip_by p s' else s
  end.

(** The leading characters [lstrip_by] drops. *)
Fixpoint take_by (p : ascii -> bool) (s : pystr) : pystr :=
  match s with
  | [] => []
  | c :: s' => if p c then c :: take_by p s' else []
  end.

Definition rstrip_by (p : ascii -> bool) (s : pystr) : pystr :=
  rev (lstrip_by p (rev s)).

(** [s.strip()] *)
Definition strip (s : pystr) : pystr := rstrip_by isspace (lstrip_by isspace s).

(** [s.rstrip(chars)]: [chars] is a set of characters, not a suffix. *)
Definition rstrip (chars s : pystr) : pystr := rstrip_by (fun c => mem c chars) s.

(** [s.startswith(p)], [s.endswith(p)] *)
Fixpoint startswith (s p : pystr) : bool :=
  match p, s with
  | [], _ => true
  | x :: p', y :: s' => eqc x y && startswith s' p'
  | _ :: _, [] => false
  end.

Definition endswith (s p : pystr) : bool := startswith (rev s) (rev p).

(** [s.split(sep)] for a one-character separator: the pieces between the
    separators, of which there is always at least one. *)
Fixpoint split_aux (sep : ascii) (cur : pystr) (s : pystr) : list pystr :=
  match s with
  | [] => [rev cur]
  | c :: s' => if eqc c sep then rev cur :: split_aux sep [] s'
               else split_aux sep (c :: cur) s'
  end.

Definition split (sep : ascii) (s : pystr) : list pystr := split_aux sep [] s.

(** [s.split(sep, 1)] when [sep] occurs in [s]: the text before the first
    separator and the text after it. *)
Fixpoint split1 (sep : ascii) (s : pystr) : option (pystr * pystr) :=
  match s with
  | [] => None
  | c :: s' =>
      if eqc c sep then Some ([], s')
      else match split1 sep s' with
           | Some (a, b) => Some (c :: a, b)
           | None => None
           end
  end.

(** [sep.join(parts)] *)
Fixpoint join (sep : pystr) (parts : list pystr) : pystr :=
  match parts with
  | [] => []
  | [x] => x
  | x :: rest => x ++ sep ++ join sep rest
  end.

(** [s[a:b]] for [0 <= a], [0 <= b]. *)
Definition slice (a b : nat) (s : pystr) : pystr := firstn (b - a) (skipn a s).

(** [s[1:-1]] *)
Definition inner (s : pystr) : pystr := slice 1 (List.length s - 1) s.

(** [str(n)] for an integer. *)
Definition str_of_Z (n : Z) : pystr := py (NilZero.string_of_int (Z.to_int n)).

(** Comparison of strings as Python orders them: by code point, a proper
    prefix first. *)
Fixpoint leb (a b : pystr) : bool :=
  match a, b with
  | [], _ => true
  | _ :: _, [] => false
  | x :: a', y :: b' =>
      if code x <? code y then true
      else if code y <? code x then false
      else leb a' b'
  end.

End Py.

Import Py.

(** ** Regular expressions

    The fragment of [re] the scripts use.  Every quantified item in them is
    a one-character class, so repetition is defined on classes. *)

Module Re.

Inductive regex : Type :=
| Eps
| Chr (p : ascii -> bool)                      (* one character of a class *)
| Rep (greedy : bool) (lo : nat) (p : ascii -> bool)
                                               (* [c*], [c+] and [c+?] *)
| Opt (r : regex)                              (* [r?], greedy *)
| Grp (i : nat) (r : regex)                    (* capturing group [i] *)
| Cat (r1 r2 : regex)
| Bol                                          (* [^] *)
| Eol.                                         (* [$] *)

(** A literal string. *)
Fixpoint lit (s : pystr) : regex :=
  match s with
  | [] => Eps
  | c :: s' => Cat (Chr (eqc c)) (lit s')
  end.

(** The matcher's position: the offset in the subject, the text from
    there on, and the spans of the groups closed so far (latest first). *)
Record mstate : Type := MState {
  pos : nat;
  rest : pystr;
  caps : list (nat * (nat * nat))
}.

(** The ways to match at least [lo] characters of class [p], shortest
    first. *)
Fixpoint rep_lazy (p : ascii -> bool) (lo : nat) (caps : list (nat * (nat * nat)))
    (pos : nat) (s : pystr) {struct s} : list mstate :=
  (if lo =? 0 then [MState pos s caps] else []) ++
  match s with
  | [] => []
  | c :: s' => if p c then rep_lazy p (Nat.pred lo) caps (S pos) s' else []
  end.

(** The same, longest first. *)
Fixpoint rep_greedy (p : ascii -> bool) (lo : nat) (caps : list (nat * (nat * nat)))
    (pos : nat) (s : pystr) {struct s} : list mstate :=
  match s with
  | [] => []
  | c :: s' => if p c then rep_greedy p (Nat.pred lo) caps (S pos) s' else []
  end ++
  (if lo =? 0 then [MState pos s caps] else []).

(** All the ways [r] matches from a position, in the order a backtracking
    matcher tries them. *)
Fixpoint run (r : regex) (m : mstate) : list mstate :=
  match r with
  | Eps => [m]
  | Chr p =>
      match rest m with
      | c :: s' => if p c then [MState (S (pos m)) s' (caps m)] else []
      | [] => []
      end
  | Rep true lo p => rep_greedy p lo (caps m) (pos m) (rest m)
  | Rep false lo p => rep_lazy p lo (caps m) (pos m) (rest m)
  | Opt r1 => run r1 m ++ [m]
  | Grp i r1 =>
      map (fun m' => MState (pos m') (rest m') ((i, (pos m, pos m')) :: caps m'))
          (run r1 m)
  | Cat r1 r2 => flat_map (run r2) (run r1 m)
  | Bol => if pos m =? 0 then [m] else []
  | Eol =>
      match rest m with
      | [] => [m]
      | [c] => if eqc c "010"%char then [m] else []
      | _ => []
      end
  end.

(** One attempt at a start position: the first way to match, which with
    [must_advance] has to be non-empty. *)
Definition attempt (r : regex) (start : nat) (s : pystr) (must_advance : bool)
  : option mstate :=
  hd_error (filter (fun m => negb must_advance || negb (pos m =? start))
                   (run r (MState start s []))).

(** A match object: where the match starts and the state at its end. *)
Record match_obj : Type := Match {
  m_start : nat;
  m_end : mstate
}.

(** [re.match(r, s)] *)
Definition re_match (r : regex) (s : pystr) : option match_obj :=
  option_map (Match 0) (attempt r 0 s false).

(** The leftmost match at or after [start]; [s] is the subject from
    [start] on. *)
Fixpoint search_from (r : regex) (start : nat) (s : pystr) (must_advance : bool)
  : option match_obj :=
  match attempt r start s must_advance with
  | Some m => Some (Match start m)
  | None =>
      match s with
      | [] => None
      | _ :: s' => search_from r (S start) s' false
      end
  end.

(** [re.search(r, s)] *)
Definition re_search (r : regex) (s : pystr) : option match_obj :=
  search_from r 0 s false.

Fixpoint span_of (i : nat) (cs : list (nat * (nat * nat))) : option (nat * nat) :=
  match cs with
  | [] => None
  | (j, sp) :: cs' => if i =? j then Some sp else span_of i cs'
  end.

(** [m.group(i)] on subject [s], for a group that took part in the match. *)
Definition group (s : pystr) (m : match_obj) (i : nat) : option pystr :=
  option_map (fun sp => slice (fst sp) (snd sp) s) (span_of i (caps (m_end m))).

(** [re.sub(r, '', s)]: every match, found left to right, is deleted.  After
    an empty match the next one may not be empty at the same place.  [s] is
    the subject from [start] on. *)
Fixpoint sub_loop (r : regex) (fuel : nat) (start : nat) (s : pystr)
    (must_advance : bool) : pystr :=
  match fuel with
  | O => s
  | S fuel' =>
      match search_from r start s must_advance with
      | None => s
      | Some m =>
          firstn (m_start m - start) s ++
          sub_loop r fuel' (pos (m_end m)) (rest (m_end m))
                   (pos (m_end m) =? m_start m)
      end
  end.

Definition re_sub_empty (r : regex) (s : pystr) : pystr :=
  sub_loop r (2 * List.length s + 2) 0 s false.

End Re.

Import Re.

(** ** JSON values

    What [json.loads] returns: [None], a truth value, a number, a string, a
    list or a dictionary.  Of a float only its truth value matters to the
    scripts.  A dictionary is the list of its items in insertion order,
    the keys distinct. *)

#[warnings="-register-all"]
Inductive json : Type :=
| JNull
| JBool (b : bool)
| JInt (n : Z)
| JFloat (nonzero : bool)
| JStr (s : pystr)
| JArr (items : list json)
| JObj (fields : list (pystr * json)).

(** [bool(v)] *)
Definition truthy (v : json) : bool :=
  match v with
  | JNull => false
  | JBool b => b
  | JInt n => negb (n =? 0)%Z
  | JFloat nonzero => nonzero
  | JStr [] => false
  | JStr (_ :: _) => true
  | JArr [] => false
  | JArr (_ :: _) => true
  | JObj [] => false
  | JObj (_ :: _) => true
  end.

Fixpoint lookup (key : pystr) (fields : list (pystr * json)) : option json :=
  match fields with
  | [] => None
  | (k, v) :: fields' => if eqs k key then Some v else lookup key fields'
  end.

Definition is_dict (v : json) : bool :=
  match v with
  | JObj _ => true
  | _ => false
  end.

(** [v.get(key, default)] for a dictionary [v]. *)
Definition get (v : json) (key : pystr) (default : json) : json :=
  match v with
  | JObj fields =>
      match lookup key fields with
      | Some x => x
      | None => default
      end
  | _ => default
  end.

(** What [for x in v] goes through: the elements of a list, the keys of a
    dictionary, the characters of a string.  [None]: [v] is not iterable,
    a [TypeError]. *)
Definition iter (v : json) : option (list json) :=
  match v with
  | JArr items => Some items
  | JObj fields => Some (map (fun kv => JStr (fst kv)) fields)
  | JStr s => Some (map (fun c => JStr [c]) s)
  | _ => None
  end.

Definition as_str (v : json) : option pystr :=
  match v with
  | JStr s => Some s
  | _ => None
  end.

Fixpoint all_str (items : list json) : option (list pystr) :=
  match items with
  | [] => Some []
  | x :: items' =>
      match as_str x, all_str items' with
      | Some s, Some l => Some (s :: l)
      | _, _ => None
      end
  end.

(** The strings [sep.join(v)] joins.  [None]: [v] is not iterable or one
    of its elements is not a string, a [TypeError]. *)
Definition joined (v : json) : option (list pystr) :=
  match v with
  | JArr items => all_str items
  | JObj fields => Some (map fst fields)
  | JStr s => Some (map (fun c => [c]) s)
  | _ => None
  end.

(** ** sync_tasks.py: the pure functions *)

Definition slash : ascii := "/"%char.
Definition notslash (c : ascii) : bool := negb (eqc c slash).

(** [[^/]+/[^/]+?], the body of group 1 in both URL patterns. *)
Definition owner_repo_re : regex :=
  Cat (Rep true 1 notslash) (Cat (Chr (eqc slash)) (Rep false 1 notslash)).

(** [github\.com[/:]([^/]+/[^/]+?)(\.git)?$] *)
Definition https_re : regex :=
  Cat (lit (py "github.com"))
 (Cat (Chr (fun c => eqc c slash || eqc c ":"%char))
 (Cat (Grp 1 owner_repo_re)
 (Cat (Opt (Grp 2 (lit (py ".git"))))
      Eol))).

(** [git@github\.com:([^/]+/[^/]+?)(\.git)?$] *)
Definition ssh_re : regex :=
  Cat (lit (py "git@github.com:"))
 (Cat (Grp 1 owner_repo_re)
 (Cat (Opt (Grp 2 (lit (py ".git"))))
      Eol)).

(** [GitHubProjectSync._parse_github_url] *)
Definition _parse_github_url (url : pystr) : option pystr :=
  match re_search https_re url with
  | Some m => option_map (rstrip (py ".git")) (group url m 1)
  | None =>
      match re_search ssh_re url with
      | Some m => option_map (rstrip (py ".git")) (group url m 1)
      | None => None
      end
  end.

Definition is_bullet (c : ascii) : bool := eqc c "-"%char || eqc c "*"%char.

(** [^[\s]*[-*]\s+\[\s\]\s+] *)
Definition task_re : regex :=
  Cat Bol
 (Cat (Rep true 0 isspace)
 (Cat (Chr is_bullet)
 (Cat (Rep true 1 isspace)
 (Cat (Chr (eqc "["%char))
 (Cat (Chr isspace)
 (Cat (Chr (eqc "]"%char))
      (Rep true 1 isspace))))))).

(** An element of the task list: a dictionary with ['title'] and the
    optional ['body'] and ['labels'], or whatever else the JSON input
    holds. *)
Definition task : Type := json.

(** [{'title': t}] *)
Definition titled (t : pystr) : task := JObj [(py "title", JStr t)].

(** [task.get('title')], [task.get('body', '')] and
    [task.get('labels', [])], for a dictionary [task]. *)
Definition title (t : task) : json := get t (py "title") JNull.

Definition body (t : task) : json := get t (py "body") (JStr []).

Definition labels (t : task) : json := get t (py "labels") (JArr []).

(** The body of the loop of [parse_markdown_tasks]: the title a line
    contributes, if any. *)
Definition line_title (line : pystr) : option pystr :=
  match re_match task_re line with
  | Some _ =>
      let title := strip (re_sub_empty task_re line) in
      match title with
      | [] => None
      | _ :: _ => Some title
      end
  | None => None
  end.

(** [parse_markdown_tasks] *)
Definition parse_markdown_tasks (content : pystr) : list task :=
  flat_map (fun line =>
              match line_title line with
              | Some t => [titled t]
              | None => []
              end)
           (split "010"%char content).

(** ** sync_tasks.py: the synchroniser *)

Module SyncTasks.

(** What [subprocess.run] returns. *)
Record completed : Type := Completed {
  returncode : Z;
  stdout : pystr;
  stderr : pystr
}.

(** A project descriptor of [gh project list]: its ['number'], [None] when
    the key is absent or null. *)
Record project : Type := Project { number : option Z }.

(** The document [gh project list --format json] prints: an object, with
    its ['projects'] if it has that key, or a bare array. *)
Inductive projects_json : Type :=
| ProjectsDict (projects : option (list project))
| ProjectsList (projects : list project).

(** The machine the script runs on.  [subprocess_run] launches a command
    ([None]: the executable is not found, [FileNotFoundError]);
    [read_file] is [open(path).read()] ([None]: [FileNotFoundError]);
    [json_loads] is [json.loads] on the string of the command line, and
    [json_loads_projects] is [json.loads] on the document [gh] prints, at
    the type the script reads it ([None]: [JSONDecodeError]). *)
Class Host : Type := {
  world : Type;
  subprocess_run : list pystr -> world -> option completed * world;
  read_file : pystr -> world -> option pystr;
  json_loads_projects : pystr -> option projects_json;
  json_loads : pystr -> option json
}.

Inductive exn : Type :=
| FileNotFoundError
| TypeError
| AttributeError
| SystemExit (status : Z).

Inductive res (A : Type) : Type :=
| Ret (a : A)
| Raise (e : exn).
Arguments Ret {A} a.
Arguments Raise {A} e.

(** The [GitHubProjectSync] object. *)
Record GitHubProjectSync : Type := Syncer {
  repo : option pystr;
  project_number : option Z
}.

Record synced_entry : Type := Synced {
  s_task : task;
  s_issue_url : pystr
}.

Record failed_entry : Type := Failed {
  f_task : task;
  f_error : pystr;
  f_issue_url : option pystr
}.

(** The dictionary [sync_tasks] returns: ['success'] false with an
    ['error'], or ['success'] true with the repository, the project and the
    two lists. *)
Inductive sync_result : Type :=
| SyncFailure (error : pystr)
| SyncDone (r_repo : pystr) (r_project_number : Z)
           (synced_tasks : list synced_entry) (failed_tasks : list failed_entry).

Definition success (r : sync_result) : bool :=
  match r with
  | SyncFailure _ => false
  | SyncDone _ _ _ _ => true
  end.

(** The parsed command line. *)
Record args : Type := Args {
  a_repo : option pystr;
  a_project_number : option Z;
  a_tasks_file : option pystr;
  a_task : option (list pystr);
  a_json_tasks : option pystr
}.

(** Truth values of an optional string and of an optional integer. *)
Definition truthy_str (o : option pystr) : bool :=
  match o with
  | Some (_ :: _) => true
  | _ => false
  end.

Definition truthy_int (o : option Z) : bool :=
  match o with
  | Some n => negb (n =? 0)%Z
  | None => false
  end.

Definition or_empty (o : option pystr) : pystr :=
  match o with
  | Some s => s
  | None => []
  end.

Definition cmd_auth_status : list pystr := [py "gh"; py "auth"; py "status"].

Definition cmd_get_url (remote : pystr) : list pystr :=
  [py "git"; py "remote"; py "get-url"; remote].

Definition cmd_remote : list pystr := [py "git"; py "remote"].

Definition owner_of (repo : pystr) : pystr := hd [] (split slash repo).

Definition cmd_project_list (repo : pystr) : list pystr :=
  [py "gh"; py "project"; py "list"; py "--owner"; owner_of repo;
   py "--format"; py "json"].

Definition cmd_issue_create (repo title : pystr) (body : option pystr)
    (labels : option (list pystr)) : list pystr :=
  [py "gh"; py "issue"; py "create"; py "--repo"; repo; py "--title"; title;
   py "--body"; or_empty body] ++
  match labels with
  | Some (l :: ls) => [py "--label"; join (py ",") (l :: ls)]
  | _ => []
  end.

Definition cmd_item_add (project_number : Z) (issue_url owner : pystr)
  : list pystr :=
  [py "gh"; py "project"; py "item-add"; str_of_Z project_number;
   py "--owner"; owner; py "--url"; issue_url].

(** [body or ""] as an argument of the command: a string.  [None]: the
    body is a true value of another type, and [subprocess.run] raises
    [TypeError]. *)
Definition body_arg (body : json) : option pystr :=
  if truthy body then as_str body else Some [].

(** The labels [if labels: ... ','.join(labels)] joins, if any.  [None]:
    [join] raises [TypeError]. *)
Definition label_arg (labels : json) : option (option (list pystr)) :=
  if truthy labels then option_map Some (joined labels) else Some None.

(** The command [create_issue] builds from the values it is given.
    [None]: one of them has not the type the command line needs, and a
    [TypeError] is raised before anything is launched. *)
Definition issue_cmd (repo : pystr) (title body labels : json)
  : option (list pystr) :=
  match as_str title, body_arg body, label_arg labels with
  | Some t, Some b, Some l => Some (cmd_issue_create repo t (Some b) l)
  | _, _, _ => None
  end.

Definition err_no_gh : pystr :=
  py "gh CLI not installed or not authenticated. Run: gh auth login".
Definition err_no_repo : pystr :=
  py "Could not determine GitHub repository. Please specify --repo owner/repo".
Definition err_no_project (repo : pystr) : pystr :=
  py "No projects found for " ++ repo ++
  py ". Please create a project or specify --project-number".
Definition err_no_title : pystr := py "No title provided".
Definition err_create : pystr := py "Failed to create issue".
Definition err_link : pystr := py "Issue created but failed to add to project".

Section Program.

Context {H : Host}.

(** The state of a run: the machine, and the commands launched so far. *)
Record state : Type := State {
  ext : world;
  calls : list (list pystr)
}.

Definition M (A : Type) : Type := state -> res A * state.

Definition ret {A} (a : A) : M A := fun s => (Ret a, s).

Definition raise {A} (e : exn) : M A := fun s => (Raise e, s).

Definition bind {A B} (m : M A) (k : A -> M B) : M B :=
  fun s =>
    match m s with
    | (Ret a, s') => k a s'
    | (Raise e, s') => (Raise e, s')
    end.

(** [try: m  except ...: h], where [h] tells which exceptions it handles. *)
Definition try_except {A} (m : M A) (h : exn -> option (M A)) : M A :=
  fun s =>
    match m s with
    | (Ret a, s') => (Ret a, s')
    | (Raise e, s') =>
        match h e with
        | Some k => k s'
        | None => (Raise e, s')
        end
    end.

Notation "x <- m ;; k" := (bind m (fun x => k))
  (at level 61, m at next level, right associativity).

(** [subprocess.run(cmd, capture_output=True, text=True, check=False)] *)
Definition run_cmd (cmd : list pystr) : M completed :=
  fun s =>
    let (r, w) := subprocess_run cmd (ext s) in
    let s' := State w (calls s ++ [cmd]) in
    match r with
    | Some c => (Ret c, s')
    | None => (Raise FileNotFoundError, s')
    end.

(** [open(path, 'r').read()] *)
Definition open_read (path : pystr) : M pystr :=
  fun s =>
    match read_file path (ext s) with
    | Some content => (Ret content, s)
    | None => (Raise FileNotFoundError, s)
    end.

Definition except_FileNotFoundError {A} (k : M A) (e : exn) : option (M A) :=
  match e with
  | FileNotFoundError => Some k
  | _ => None
  end.

(** [except Exception]: every exception but [SystemExit]. *)
Definition except_Exception {A} (k : M A) (e : exn) : option (M A) :=
  match e with
  | SystemExit _ => None
  | _ => Some k
  end.

(** [check_gh_cli] *)
Definition check_gh_cli : M bool :=
  try_except
    (result <- run_cmd cmd_auth_status ;;
     ret (returncode result =? 0)%Z)
    (except_FileNotFoundError (ret false)).

(** [get_origin_remote] *)
Definition get_origin_remote : M (option pystr) :=
  try_except
    (result <- run_cmd (cmd_get_url (py "origin")) ;;
     if (returncode result =? 0)%Z
     then ret (_parse_github_url (strip (stdout result)))
     else
       result <- run_cmd cmd_remote ;;
       if (returncode result =? 0)%Z && truthy_str (Some (strip (stdout result)))
       then
         let remote_name := hd [] (split "010"%char (strip (stdout result))) in
         result <- run_cmd (cmd_get_url remote_name) ;;
         if (returncode result =? 0)%Z
         then ret (_parse_github_url (strip (stdout result)))
         else ret None
       else ret None)
    (except_Exception (ret None)).

(** [list_projects]; with [check=True] a non-zero return code is a
    [CalledProcessError], which the method catches. *)
Definition list_projects (repo : pystr) : M (list project) :=
  result <- run_cmd (cmd_project_list repo) ;;
  if (returncode result =? 0)%Z
  then
    match json_loads_projects (stdout result) with
    | Some (ProjectsDict (Some ps)) => ret ps
    | Some (ProjectsDict None) => ret []
    | Some (ProjectsList ps) => ret ps
    | None => ret []
    end
  else ret [].

(** [get_first_project] *)
Definition get_first_project (repo : pystr) : M (option Z) :=
  projects <- list_projects repo ;;
  match projects with
  | p :: _ => ret (number p)
  | [] => ret None
  end.

(** [create_issue]; the method catches [CalledProcessError] only. *)
Definition create_issue (repo : pystr) (title body labels : json)
  : M (option pystr) :=
  match issue_cmd repo title body labels with
  | None => raise TypeError
  | Some cmd =>
      result <- run_cmd cmd ;;
      if (returncode result =? 0)%Z
      then ret (Some (strip (stdout result)))
      else ret None
  end.

(** [add_issue_to_project] *)
Definition add_issue_to_project (project_number : Z) (issue_url owner : pystr)
  : M bool :=
  result <- run_cmd (cmd_item_add project_number issue_url owner) ;;
  ret (returncode result =? 0)%Z.

(** The [for task in tasks] loop of [sync_tasks], on the two lists of the
    result.  [task.get] on anything but a dictionary is an
    [AttributeError]. *)
Fixpoint sync_loop (repo : pystr) (project_number : Z) (owner : pystr)
    (tasks : list task) (synced : list synced_entry) (failed : list failed_entry)
  : M (list synced_entry * list failed_entry) :=
  match tasks with
  | [] => ret (synced, failed)
  | task :: tasks' =>
      if negb (is_dict task) then raise AttributeError
      else if negb (truthy (title task))
      then sync_loop repo project_number owner tasks' synced
             (failed ++ [Failed task err_no_title None])
      else
        issue_url <- create_issue repo (title task) (body task) (labels task) ;;
        if negb (truthy_str issue_url)
        then sync_loop repo project_number owner tasks' synced
               (failed ++ [Failed task err_create None])
        else
          linked <- add_issue_to_project project_number (or_empty issue_url) owner ;;
          if linked
          then sync_loop repo project_number owner tasks'
                 (synced ++ [Synced task (or_empty issue_url)]) failed
          else sync_loop repo project_number owner tasks' synced
                 (failed ++ [Failed task err_link (Some (or_empty issue_url))])
  end.

(** The two resolution steps of [sync_tasks], which assign [self.repo] and
    [self.project_number]. *)
Definition resolve_repo (self : GitHubProjectSync) : M (option pystr) :=
  if negb (truthy_str (repo self)) then get_origin_remote else ret (repo self).

Definition resolve_project (self : GitHubProjectSync) (repo : pystr)
  : M (option Z) :=
  if negb (truthy_int (project_number self)) then get_first_project repo
  else ret (project_number self).

(** [sync_tasks] *)
Definition sync_tasks (self : GitHubProjectSync) (tasks : list task)
  : M sync_result :=
  ok <- check_gh_cli ;;
  if negb ok then ret (SyncFailure err_no_gh)
  else
    self_repo <- resolve_repo self ;;
    if negb (truthy_str self_repo) then ret (SyncFailure err_no_repo)
    else
      let repo := or_empty self_repo in
      self_project_number <- resolve_project self repo ;;
      if negb (truthy_int self_project_number)
      then ret (SyncFailure (err_no_project repo))
      else
        let project_number :=
          match self_project_number with Some n => n | None => 0%Z end in
        let owner := owner_of repo in
        lists <- sync_loop repo project_number owner tasks [] [] ;;
        ret (SyncDone repo project_number (fst lists) (snd lists)).

(** The tasks a checklist file contributes; a missing file ends the
    process with status 1. *)
Definition gather_file (a : args) : M (list task) :=
  match a_tasks_file a with
  | Some (c :: f) =>
      try_except
        (content <- open_read (c :: f) ;;
         ret (parse_markdown_tasks content))
        (except_FileNotFoundError (raise (SystemExit 1)))
  | _ => ret []
  end.

Definition gather_flags (a : args) : list task :=
  match a_task a with
  | Some (t :: ts) => map titled (t :: ts)
  | _ => []
  end.

(** The elements the JSON string contributes: [tasks.extend(json_tasks)]
    takes whatever [json.loads] returns, and raises [TypeError] when it
    cannot be iterated; only [JSONDecodeError] is caught. *)
Definition gather_json (a : args) : M (list task) :=
  match a_json_tasks a with
  | Some (c :: j) =>
      match json_loads (c :: j) with
      | Some json_tasks =>
          match iter json_tasks with
          | Some items => ret items
          | None => raise TypeError
          end
      | None => raise (SystemExit 1)
      end
  | _ => ret []
  end.

(** The body of [main], after the command line is parsed. *)
Definition main_body (a : args) : M unit :=
  from_file <- gather_file a ;;
  from_json <- gather_json a ;;
  let tasks := from_file ++ gather_flags a ++ from_json in
  match tasks with
  | [] => raise (SystemExit 1)
  | _ :: _ =>
      results <- sync_tasks (Syncer (a_repo a) (a_project_number a)) tasks ;;
      match results with
      | SyncFailure _ => raise (SystemExit 1)
      | SyncDone _ _ _ (_ :: _) => raise (SystemExit 2)
      | SyncDone _ _ _ [] => ret tt
      end
  end.

(** The exit status of the process: 0 when [main] returns, the argument
    of [sys.exit], and 1 for an exception nobody catches. *)
Definition exit_status (r : res unit) : Z :=
  match r with
  | Ret _ => 0
  | Raise (SystemExit n) => n
  | Raise _ => 1
  end%Z.

Definition main (a : args) (s : state) : Z * state :=
  let (r, s') := main_body a s in (exit_status r, s').

End Program.

End SyncTasks.

(** ** build_skills.py *)

Module BuildSkills.

(** What an attempt to build an archive comes to: done, or an exception
    with its text. *)
Inductive outcome : Type :=
| Done
| Error (msg : pystr).

(** The file system the build runs on, and its paths.  The first five
    operations are those of [pathlib]: [p / name], [p.name], [p.parent],
    [p.with_suffix('')] and [str(p)].  [isdir] is [os.path.isdir] and
    [exists_] is [Path.exists].  [listdir] is [os.listdir] and
    [read_text] is [open(p, 'r', encoding='utf-8').read()]; they are [None]
    when they raise: the directory cannot be listed, the file cannot be
    read or is not UTF-8.  [unlink] and [write_text] tell whether they
    succeed, and give the file system they leave.  [make_archive] is
    [shutil.make_archive(base_name, 'zip', root_dir=..., base_dir=...)],
    which builds the archive [base_name + '.zip']; what it raises is its
    [Error]. *)
Class FileSystem : Type := {
  fs : Type;
  path : Type;
  joinpath : path -> pystr -> path;
  path_name : path -> pystr;
  path_parent : path -> path;
  with_suffix_empty : path -> path;
  path_str : path -> pystr;
  listdir : path -> fs -> option (list pystr);
  isdir : path -> fs -> bool;
  exists_ : path -> fs -> bool;
  read_text : path -> fs -> option pystr;
  unlink : path -> fs -> bool * fs;
  make_archive : pystr -> pystr -> pystr -> fs -> outcome * fs;
  write_text : path -> pystr -> fs -> bool * fs
}.

(** The file system operations a run performs, on paths of type [P];
    [ok] tells whether the operation succeeded. *)
Inductive op (P : Type) : Type :=
| OpListdir (p : P)
| OpIsdir (p : P)
| OpExists (p : P)
| OpRead (p : P)
| OpUnlink (p : P) (ok : bool)
| OpMakeArchive (base_name root_dir base_dir : pystr) (result : outcome)
| OpWrite (p : P) (content : pystr) (ok : bool).
Arguments OpMakeArchive {P} base_name root_dir base_dir result.

(** A skill dictionary; ['path'] is a path of type [P]. *)
Record skill (P : Type) : Type := Skill {
  name : pystr;
  description : pystr;
  skill_path : P
}.

(** The metadata dictionary, in insertion order. *)
Definition metadata := list (pystr * pystr).

Fixpoint md_set (key value : pystr) (md : metadata) : metadata :=
  match md with
  | [] => [(key, value)]
  | (k, v) :: md' =>
      if eqs k key then (k, value) :: md' else (k, v) :: md_set key value md'
  end.

Fixpoint md_get (key : pystr) (md : metadata) : option pystr :=
  match md with
  | [] => None
  | (k, v) :: md' => if eqs k key then Some v else md_get key md'
  end.

Definition md_has (key : pystr) (md : metadata) : bool :=
  match md_get key md with
  | Some _ => true
  | None => false
  end.

Definition any_char (c : ascii) : bool := true.

(** [^---\n(.*?)\n---] with [re.DOTALL] *)
Definition preamble_re : regex :=
  Cat Bol
 (Cat (lit (py "---"))
 (Cat (Chr (eqc "010"%char))
 (Cat (Grp 1 (Rep false 0 any_char))
 (Cat (Chr (eqc "010"%char))
      (lit (py "---")))))).

Definition quote : ascii := ascii_of_nat 34.
Definition apostrophe : ascii := "'"%char.

(** The quotes of a value are removed when it starts and ends with the
    same kind. *)
Definition unquote (value : pystr) : pystr :=
  if startswith value [quote] && endswith value [quote] then inner value
  else if startswith value [apostrophe] && endswith value [apostrophe]
       then inner value
       else value.

(** One line of the preamble. *)
Definition parse_line (md : metadata) (line0 : pystr) : metadata :=
  let line := strip line0 in
  match line with
  | [] => md
  | c :: _ =>
      if eqc c "#"%char then md
      else
        match split1 ":"%char line with
        | Some (key, value) => md_set (strip key) (unquote (strip value)) md
        | None => md
        end
  end.

(** [extract_yaml_preamble], on the text of the file. *)
Definition extract_yaml_preamble_of (content : pystr) : metadata :=
  match re_match preamble_re content with
  | None => []
  | Some m =>
      match group content m 1 with
      | Some yaml_content => fold_left parse_line (split "010"%char yaml_content) []
      | None => []
      end
  end.

Definition excluded : list pystr := [py "__pycache__"; py ".git"; py "venv"; py "env"].

Definition is_excluded (entry : pystr) : bool := existsb (eqs entry) excluded.

Definition is_hidden (entry : pystr) : bool := startswith entry (py ".").

(** [sorted(skills, key=lambda s: s['name'])]: a stable sort. *)
Fixpoint insert_skill {P : Type} (x : skill P) (l : list (skill P)) : list (skill P) :=
  match l with
  | [] => [x]
  | y :: l' =>
      if leb (name x) (name y) then x :: y :: l' else y :: insert_skill x l'
  end.

Definition sorted_by_name {P : Type} (l : list (skill P)) : list (skill P) :=
  fold_right insert_skill [] l.

(** [generate_readme] *)
Definition readme_entry {P : Type} (s : skill P) : list pystr :=
  [py "### " ++ name s ++ py (String "010" EmptyString)] ++
  match description s with
  | [] => []
  | _ :: _ => [description s ++ py (String "010" EmptyString)]
  end ++
  [py "- **File**: `" ++ name s ++ py ".zip`" ++ py (String "010" EmptyString);
   []].

Definition generate_readme {P : Type} (root_dir : P) (skills : list (skill P))
  : pystr :=
  let nl := py (String "010" EmptyString) in
  let lines :=
    [py "# Claude Skills" ++ nl;
     py "A collection of Claude Code skills." ++ nl;
     py "## Available Skills" ++ nl] ++
    flat_map readme_entry skills ++
    [py "## Installation" ++ nl;
     py "Download any of the `.zip` files above to install a skill." ++ nl] in
  join nl lines.

(** What a computation comes to: a value, or an exception that nobody
    catches. *)
Inductive res (A : Type) : Type :=
| Ret (a : A)
| Raise.
Arguments Ret {A} a.
Arguments Raise {A}.

Section Program.

Context {F : FileSystem}.

(** [root_dir / entry] *)
Definition child (p : path) (name : pystr) : path := joinpath p name.

(** [skill_path / 'SKILL.md'] *)
Definition manifest (skill_path : path) : path := child skill_path (py "SKILL.md").

Definition warn_missing_name (skill_md : path) : pystr :=
  py "Warning: " ++ path_str skill_md ++ py " missing 'name' field".

(** The state of a run: the file system, the two output streams (one entry
    per [print]) and the operations performed so far. *)
Record state : Type := State {
  files : fs;
  out : list pystr;
  err : list pystr;
  ops : list (op path)
}.

Definition M (A : Type) : Type := state -> res A * state.

Definition ret {A} (a : A) : M A := fun s => (Ret a, s).

Definition bind {A B} (m : M A) (k : A -> M B) : M B :=
  fun s =>
    match m s with
    | (Ret a, s') => k a s'
    | (Raise, s') => (Raise, s')
    end.

Notation "x <- m ;; k" := (bind m (fun x => k))
  (at level 61, m at next level, right associativity).
Notation "m ;;; k" := (bind m (fun _ => k))
  (at level 61, right associativity).

Definition log (o : op path) (s : state) : state :=
  State (files s) (out s) (err s) (ops s ++ [o]).

Definition print (line : pystr) : M unit :=
  fun s => (Ret tt, State (files s) (out s ++ [line]) (err s) (ops s)).

Definition print_err (line : pystr) : M unit :=
  fun s => (Ret tt, State (files s) (out s) (err s ++ [line]) (ops s)).

Definition do_listdir (p : path) : M (list pystr) :=
  fun s =>
    (match listdir p (files s) with
     | Some entries => Ret entries
     | None => Raise
     end, log (OpListdir p) s).

Definition do_isdir (p : path) : M bool :=
  fun s => (Ret (isdir p (files s)), log (OpIsdir p) s).

Definition do_exists (p : path) : M bool :=
  fun s => (Ret (exists_ p (files s)), log (OpExists p) s).

Definition do_read (p : path) : M pystr :=
  fun s =>
    (match read_text p (files s) with
     | Some content => Ret content
     | None => Raise
     end, log (OpRead p) s).

Definition do_unlink (p : path) : M unit :=
  fun s =>
    let (ok, f) := unlink p (files s) in
    (if ok then Ret tt else Raise,
     State f (out s) (err s) (ops s ++ [OpUnlink p ok])).

(** [shutil.make_archive] inside [try: ... except Exception]. *)
Definition do_make_archive (base_name root_dir base_dir : pystr) : M outcome :=
  fun s =>
    let (r, f) := make_archive base_name root_dir base_dir (files s) in
    (Ret r, State f (out s) (err s)
                  (ops s ++ [OpMakeArchive base_name root_dir base_dir r])).

Definition do_write (p : path) (content : pystr) : M unit :=
  fun s =>
    let (ok, f) := write_text p content (files s) in
    (if ok then Ret tt else Raise,
     State f (out s) (err s) (ops s ++ [OpWrite p content ok])).

(** [extract_yaml_preamble] *)
Definition extract_yaml_preamble (skill_md_path : path) : M metadata :=
  content <- do_read skill_md_path ;;
  ret (extract_yaml_preamble_of content).

(** The [for entry in os.listdir(root_dir)] loop of [find_skills]. *)
Fixpoint find_loop (root_dir : path) (entries : list pystr)
    (skills : list (skill path)) : M (list (skill path)) :=
  match entries with
  | [] => ret skills
  | entry :: entries' =>
      let skill_path := child root_dir entry in
      d <- do_isdir skill_path ;;
      if negb d || is_hidden entry then find_loop root_dir entries' skills
      else if is_excluded entry then find_loop root_dir entries' skills
      else
        let skill_md := manifest skill_path in
        e <- do_exists skill_md ;;
        if negb e then find_loop root_dir entries' skills
        else
          md <- extract_yaml_preamble skill_md ;;
          match md_get (py "name") md with
          | None =>
              print_err (warn_missing_name skill_md) ;;;
              find_loop root_dir entries' skills
          | Some n =>
              find_loop root_dir entries'
                (skills ++ [Skill n
                              match md_get (py "description") md with
                              | Some d => d
                              | None => []
                              end
                              skill_path])
          end
  end.

(** [find_skills] *)
Definition find_skills (root_dir : path) : M (list (skill path)) :=
  entries <- do_listdir root_dir ;;
  skills <- find_loop root_dir entries [] ;;
  ret (sorted_by_name skills).

(** [root_dir / f"{skill['name']}.zip"] *)
Definition zip_of (root_dir : path) (s : skill path) : path :=
  joinpath root_dir (name s ++ py ".zip").

(** The three arguments of [shutil.make_archive] for a skill:
    [str(zip_name.with_suffix(''))], [str(skill_path.parent)] and
    [skill_path.name]. *)
Definition archive_base (root_dir : path) (s : skill path) : pystr :=
  path_str (with_suffix_empty (zip_of root_dir s)).

Definition archive_root (s : skill path) : pystr :=
  path_str (path_parent (skill_path s)).

Definition archive_dir (s : skill path) : pystr := path_name (skill_path s).

(** [create_skill_zips]; deleting the old archive is outside the [try]. *)
Fixpoint create_skill_zips (root_dir : path) (skills : list (skill path))
  : M bool :=
  match skills with
  | [] => ret true
  | s :: skills' =>
      let zip_name := zip_of root_dir s in
      print (py "Creating " ++ path_name zip_name ++ py "...") ;;;
      e <- do_exists zip_name ;;
      (if e then do_unlink zip_name else ret tt) ;;;
      r <- do_make_archive (archive_base root_dir s) (archive_root s)
                           (archive_dir s) ;;
      match r with
      | Done =>
          print (py "  Created: " ++ path_name zip_name) ;;;
          create_skill_zips root_dir skills'
      | Error e =>
          print_err (py "Error creating zip for " ++ name s ++ py ": " ++ e) ;;;
          ret false
      end
  end.

(** The body of [main]; its result is the status given to [sys.exit], 0
    when [main] returns. *)
Definition main_body (root_dir : path) : M Z :=
  print (py "Scanning for skills in " ++ path_str root_dir ++ py "...") ;;;
  skills <- find_skills root_dir ;;
  match skills with
  | [] =>
      print (py "No skills found. Nothing to do.") ;;;
      ret 0%Z
  | _ :: _ =>
      print (py "Found " ++ str_of_Z (Z.of_nat (List.length skills)) ++
             py " skill(s): " ++ join (py ", ") (map (@name path) skills)) ;;;
      print (py (String "010" "Creating skill archives...")) ;;;
      ok <- create_skill_zips root_dir skills ;;
      if negb ok then ret 1%Z
      else
        print (py (String "010" "Generating README.md...")) ;;;
        do_write (child root_dir (py "README.md")) (generate_readme root_dir skills) ;;;
        print (py "  Created: README.md") ;;;
        print (py (String "010" "Build complete!")) ;;;
        ret 0%Z
  end.

(** The exit status of the process: 1 for an exception nobody catches. *)
Definition exit_status (r : res Z) : Z :=
  match r with
  | Ret n => n
  | Raise => 1%Z
  end.

(** [main]; the result is the exit status of the process. *)
Definition main (root_dir : path) (s : state) : Z * state :=
  let (r, s') := main_body root_dir s in (exit_status r, s').

End Program.

End BuildSkills.

(** ** The properties, in the words of the specification *)

Module Spec.

Definition blank (s : pystr) : Prop := Forall (fun c => isspace c = true) s.

(** A text with something in it and no white space at either end: its
    first and its last character are not white space. *)
Definition solid (t : pystr) : Prop :=
  (exists a u, t = a :: u /\ isspace a = false) /\
  (exists u z, t = u ++ [z] /\ isspace z = false).

(** A line is an unchecked list item with title [t]: optional indentation,
    a [-] or [*] bullet, white space, a box [[ ]] holding one blank, white
    space, the text [t], which neither starts nor ends with white space,
    and then white space only. *)
Inductive unchecked_item : pystr -> pystr -> Prop :=
| Unchecked (indent : pystr) (bullet : ascii) (sep1 : pystr) (box : ascii)
            (sep2 t trail : pystr) :
    blank indent ->
    is_bullet bullet = true ->
    sep1 <> [] -> blank sep1 ->
    isspace box = true ->
    sep2 <> [] -> blank sep2 ->
    solid t ->
    blank trail ->
    unchecked_item
      (indent ++ bullet :: sep1 ++ "["%char :: box :: "]"%char :: sep2 ++ t ++ trail)
      t.


(** What closing group 1, opened at offset [p0], does to a state of the
    matcher. *)
Definition close_group_1 (p0 : nat) (m' : mstate) : mstate :=
  MState (pos m') (rest m') ((1, (p0, pos m')) :: caps m').

(** What [task_re] matches at the start of a line, computed directly: the
    offset where the match ends and the text after it. *)
Definition item_parse (line : pystr) : option (nat * pystr) :=
  match lstrip_by isspace line with
  | b :: s1 =>
      if is_bullet b then
        if 1 <=? List.length (take_by isspace s1) then
          match lstrip_by isspace s1 with
          | o :: s2 =>
              if eqc "["%char o then
                match s2 with
                | x :: s3 =>
                    if isspace x then
                      match s3 with
                      | c :: s4 =>
                          if eqc "]"%char c then
                            if 1 <=? List.length (take_by isspace s4) then
                              Some (S (S (S (S (0 + List.length (take_by isspace line))
                                               + List.length (take_by isspace s1))))
                                    + List.length (take_by isspace s4),
                                    lstrip_by isspace s4)
                            else None
                          else None
                      | [] => None
                      end
                    else None
                | [] => None
                end
              else None
          | [] => None
          end
        else None
      else None
  | [] => None
  end.

End Spec.

(** ** The synchroniser, in the words of the specification *)

Module SyncSpec.

Import SyncTasks.

(** [m] is [l] and [r] interleaved: every element of [m] belongs to exactly
    one of the two, and both keep the order they have in [m]. *)
Inductive Interleave {A : Type} : list A -> list A -> list A -> Prop :=
| Interleave_nil : Interleave [] [] []
| Interleave_left (x : A) (l r m : list A) :
    Interleave l r m -> Interleave (x :: l) r (x :: m)
| Interleave_right (x : A) (l r m : list A) :
    Interleave l r m -> Interleave l (x :: r) (x :: m).

(** A task without a title: the key is absent, or its value is false as a
    truth value. *)
Definition untitled (t : task) : bool := negb (truthy (title t)).

(** The command that creates the issue of a task. *)
Definition create_cmd_of (repo : pystr) (t : task) : list pystr :=
  match issue_cmd repo (title t) (body t) (labels t) with
  | Some cmd => cmd
  | None => []
  end.

(** The values of a task are of the types the command line needs. *)
Definition creatable (repo : pystr) (t : task) : Prop :=
  issue_cmd repo (title t) (body t) (labels t) = Some (create_cmd_of repo t).

(** The state machine of one task, run over a list: what is added to the
    synced list and to the failed list, and the commands launched. *)
Inductive Processed (repo : pystr) (project_number : Z) (owner : pystr) :
  list task -> list synced_entry -> list failed_entry -> list (list pystr) -> Prop :=
| Processed_nil : Processed repo project_number owner [] [] [] []
| Processed_untitled (t : task) ts sy fa cs :
    is_dict t = true -> untitled t = true ->
    Processed repo project_number owner ts sy fa cs ->
    Processed repo project_number owner (t :: ts) sy
              (Failed t err_no_title None :: fa) cs
| Processed_create_failed (t : task) ts sy fa cs :
    untitled t = false -> creatable repo t ->
    Processed repo project_number owner ts sy fa cs ->
    Processed repo project_number owner (t :: ts) sy
              (Failed t err_create None :: fa)
              (create_cmd_of repo t :: cs)
| Processed_link_failed (t : task) (url : pystr) ts sy fa cs :
    untitled t = false -> creatable repo t -> url <> [] ->
    Processed repo project_number owner ts sy fa cs ->
    Processed repo project_number owner (t :: ts) sy
              (Failed t err_link (Some url) :: fa)
              (create_cmd_of repo t :: cmd_item_add project_number url owner :: cs)
| Processed_linked (t : task) (url : pystr) ts sy fa cs :
    untitled t = false -> creatable repo t -> url <> [] ->
    Processed repo project_number owner ts sy fa cs ->
    Processed repo project_number owner (t :: ts)
              (Synced t url :: sy) fa
              (create_cmd_of repo t :: cmd_item_add project_number url owner :: cs).

Definition is_no_title (f : failed_entry) : bool := eqs (f_error f) err_no_title.

(** A command is [gh issue create ...]. *)
Definition is_issue_create (cmd : list pystr) : bool :=
  match cmd with
  | g :: i :: c :: _ => eqs g (py "gh") && eqs i (py "issue") && eqs c (py "create")
  | _ => false
  end.

(** Predicates on the commands a computation launches. *)
Definition not_create (cmd : list pystr) : Prop := is_issue_create cmd = false.

Definition any_cmd (cmd : list pystr) : Prop := True.

(** An exception that ends the process with a traceback and status 1:
    any but [SystemExit]. *)
Definition uncaught (e : exn) : Prop :=
  match e with
  | SystemExit _ => False
  | _ => True
  end.

(** What becomes of one task. *)
Inductive fate : Type :=
| Linked      (* the issue is created and added to the project *)
| Failing     (* the task is recorded as failed *)
| Cut.        (* the run is cut short by an exception *)

Definition nonempty (o : option pystr) : option pystr :=
  match o with
  | Some (c :: s) => Some (c :: s)
  | _ => None
  end.

Definition nonzero (o : option Z) : option Z :=
  match o with
  | Some n => if (n =? 0)%Z then None else Some n
  | None => None
  end.

(** The output of a command that was launched and ended with status 0. *)
Definition output (r : option completed) : option pystr :=
  match r with
  | Some c => if (returncode c =? 0)%Z then Some (stdout c) else None
  | None => None
  end.

(** The number of the first project of the document [gh project list]
    prints. *)
Definition first_number (doc : projects_json) : option Z :=
  match doc with
  | ProjectsDict (Some (p :: _)) => number p
  | ProjectsList (p :: _) => number p
  | _ => None
  end.

Inductive stage : Type :=
| NoCli
| NoRepo
| NoProject
| CutShort
| Batch (failed : nat).

Section Inputs.

Context {H : Host}.

(** The checklist file named on the command line does not exist. *)
Definition missing_file (a : args) (w : world) : Prop :=
  exists f, a_tasks_file a = Some f /\ f <> [] /\ read_file f w = None.

(** The JSON string given on the command line does not parse. *)
Definition malformed_json (a : args) : Prop :=
  exists j, a_json_tasks a = Some j /\ j <> [] /\ json_loads j = None.

(** The JSON string parses to a value that cannot be iterated: a number,
    a truth value or [null]. *)
Definition not_iterable (a : args) : Prop :=
  exists j v,
    a_json_tasks a = Some j /\ j <> [] /\ json_loads j = Some v /\ iter v = None.

Definition file_tasks (a : args) (w : world) : list task :=
  match a_tasks_file a with
  | Some (c :: f) =>
      match read_file (c :: f) w with
      | Some content => parse_markdown_tasks content
      | None => []
      end
  | _ => []
  end.

Definition json_tasks (a : args) : list task :=
  match a_json_tasks a with
  | Some (c :: j) =>
      match json_loads (c :: j) with
      | Some v =>
          match iter v with
          | Some items => items
          | None => []
          end
      | None => []
      end
  | _ => []
  end.

(** The tasks the three sources supply. *)
Definition supplied (a : args) (w : world) : list task :=
  file_tasks a w ++ gather_flags a ++ json_tasks a.

Definition syncer_of (a : args) : GitHubProjectSync :=
  Syncer (a_repo a) (a_project_number a).

(** The external CLI is present and authenticated: [gh auth status] can be
    launched and ends with status 0. *)
Definition cli_usable (w : world) : bool :=
  match output (fst (subprocess_run cmd_auth_status w)) with
  | Some _ => true
  | None => false
  end.

(** The machine after that check. *)
Definition checked (w : world) : world := snd (subprocess_run cmd_auth_status w).

(** The URL to inspect: the one of [origin] when [git] has it, else the
    one of the first remote [git remote] lists; and the machine after the
    [git] commands.  Nothing more is tried once [git] cannot be launched. *)
Definition remote_url (w : world) : option pystr * world :=
  let (r1, w1) := subprocess_run (cmd_get_url (py "origin")) w in
  match r1, output r1 with
  | None, _ => (None, w1)
  | Some _, Some url => (Some url, w1)
  | Some _, None =>
      let (r2, w2) := subprocess_run cmd_remote w1 in
      match nonempty (option_map strip (output r2)) with
      | Some names =>
          let (r3, w3) :=
            subprocess_run (cmd_get_url (hd [] (split "010"%char names))) w2 in
          (output r3, w3)
      | None => (None, w2)
      end
  end.

(** The repository: the one given when it is not empty, else the one the
    URL of the remote parses to. *)
Definition resolved_repo (a : args) (w : world) : option pystr * world :=
  match nonempty (a_repo a) with
  | Some repo => (Some repo, w)
  | None =>
      let (u, w') := remote_url w in
      (nonempty (match u with
                 | Some url => _parse_github_url (strip url)
                 | None => None
                 end), w')
  end.

(** The project: the number given when it is not 0, else the number of the
    first project [gh project list] prints for the owner of the
    repository. *)
Definition resolved_project (a : args) (repo : pystr) (w : world)
  : option Z * world :=
  match nonzero (a_project_number a) with
  | Some n => (Some n, w)
  | None =>
      let (r, w') := subprocess_run (cmd_project_list repo) w in
      (nonzero (match output r with
                | Some out =>
                    match json_loads_projects out with
                    | Some doc => first_number doc
                    | None => None
                    end
                | None => None
                end), w')
  end.

(** What becomes of a task: it fails without a title, when its issue is
    not created (the command ends with another status than 0, or prints
    nothing) and when the issue is not added to the project; the run is cut
    short when the entry is not a dictionary, when a value has not the type
    the command line needs, and when a command cannot be launched. *)
Definition task_fate (repo : pystr) (pn : Z) (owner : pystr) (t : task)
    (w : world) : fate * world :=
  if negb (is_dict t) then (Cut, w)
  else if negb (truthy (title t)) then (Failing, w)
  else
    match issue_cmd repo (title t) (body t) (labels t) with
    | None => (Cut, w)
    | Some cmd =>
        let (r1, w1) := subprocess_run cmd w in
        match r1, nonempty (option_map strip (output r1)) with
        | None, _ => (Cut, w1)
        | Some _, None => (Failing, w1)
        | Some _, Some url =>
            let (r2, w2) := subprocess_run (cmd_item_add pn url owner) w1 in
            match r2, output r2 with
            | None, _ => (Cut, w2)
            | Some _, None => (Failing, w2)
            | Some _, Some _ => (Linked, w2)
            end
        end
    end.

(** The number of tasks of a batch that fail; [None] when the run is cut
    short. *)
Fixpoint failures (repo : pystr) (pn : Z) (owner : pystr) (tasks : list task)
    (w : world) : option nat :=
  match tasks with
  | [] => Some 0
  | t :: ts =>
      let (f, w') := task_fate repo pn owner t w in
      match f with
      | Cut => None
      | Failing => option_map S (failures repo pn owner ts w')
      | Linked => failures repo pn owner ts w'
      end
  end.

(** The stage a run gets to once its inputs are read: the step that
    stops it, or the end of the batch with the number of tasks that
    failed. *)
Definition stage_of (a : args) (w : world) : stage :=
  if cli_usable w then
    match resolved_repo a (checked w) with
    | (None, _) => NoRepo
    | (Some repo, w2) =>
        match resolved_project a repo w2 with
        | (None, _) => NoProject
        | (Some pn, w3) =>
            match failures repo pn (owner_of repo) (supplied a w) w3 with
            | Some n => Batch n
            | None => CutShort
            end
        end
    end
  else NoCli.

(** The inputs are read and supply a task. *)
Definition inputs_ok (a : args) (w : world) : Prop :=
  ~ missing_file a w /\ ~ malformed_json a /\ ~ not_iterable a /\
  supplied a w <> [].

(** The top-level steps succeed: the CLI is usable, and the repository and
    the project are resolved, in this order. *)
Definition top_level (a : args) (w : world) (repo : pystr) (pn : Z) (w3 : world)
  : Prop :=
  cli_usable w = true /\
  exists w2,
    resolved_repo a (checked w) = (Some repo, w2) /\
    resolved_project a repo w2 = (Some pn, w3).

(** The CLI is usable and no repository is resolved. *)
Definition repo_unresolved (a : args) (w : world) : Prop :=
  cli_usable w = true /\ fst (resolved_repo a (checked w)) = None.

(** The CLI is usable, the repository is resolved and no project is. *)
Definition project_unresolved (a : args) (w : world) : Prop :=
  cli_usable w = true /\
  exists repo w2,
    resolved_repo a (checked w) = (Some repo, w2) /\
    fst (resolved_project a repo w2) = None.

(** The top-level steps succeed and the batch ends with [n] failures. *)
Definition batch_fails (a : args) (w : world) (n : nat) : Prop :=
  exists repo pn w3,
    top_level a w repo pn w3 /\
    failures repo pn (owner_of repo) (supplied a w) w3 = Some n.

(** The top-level steps succeed and the batch is cut short. *)
Definition cut_short (a : args) (w : world) : Prop :=
  exists repo pn w3,
    top_level a w repo pn w3 /\
    failures repo pn (owner_of repo) (supplied a w) w3 = None.

(** When status 1 is claimed: a top-level precondition fails (the CLI is
    missing or unauthenticated, the repository or the project cannot be
    resolved, no task is supplied) or the JSON input is malformed. *)
Definition claimed_status_1 (a : args) (w : world) : Prop :=
  cli_usable w = false \/ repo_unresolved a w \/ project_unresolved a w \/
  supplied a w = [] \/ malformed_json a.

(** A computation is tame for [Q] when it only adds commands that satisfy
    [Q] to the ones launched so far, and raises no [SystemExit]. *)
Definition tame (Q : list pystr -> Prop) {A : Type} (m : M A) : Prop :=
  forall s,
    (exists cs, calls (snd (m s)) = calls s ++ cs /\ Forall Q cs) /\
    (forall e, fst (m s) = Raise e -> uncaught e).

End Inputs.

End SyncSpec.

(** ** A machine to run the synchroniser on *)

Module Scenario.

Import SyncTasks.

Definition issue_url (n : pystr) : pystr :=
  py "https://github.com/acme/widgets/issues/" ++ n.

(** [gh] is installed and authenticated; the owner has one project, number
    7; creating the issue titled [broken] fails, and the issue titled
    [orphan] cannot be added to a project; there is no [git] remote. *)
Definition scripted_run (cmd : list pystr) (w : unit) : option completed * unit :=
  let ok out := (Some (Completed 0 out []), w) in
  let ko := (Some (Completed 1 [] (py "error")), w) in
  match cmd with
  | [g; a; b] =>
      if eqs g (py "gh") && eqs a (py "auth") && eqs b (py "status") then ok []
      else ko
  | g :: a :: b :: rest =>
      if eqs g (py "gh") && eqs a (py "project") && eqs b (py "list")
      then ok (py "projects")
      else if eqs g (py "gh") && eqs a (py "issue") && eqs b (py "create")
      then match rest with
           | _ :: _ :: _ :: t :: _ =>
               if eqs t (py "broken") then ko
               else if eqs t (py "orphan") then ok (issue_url (py "2") ++ py (String "010" EmptyString))
               else ok (issue_url (py "1") ++ py (String "010" EmptyString))
           | _ => ko
           end
      else if eqs g (py "gh") && eqs a (py "project") && eqs b (py "item-add")
      then match rest with
           | _ :: _ :: _ :: _ :: u :: _ =>
               if eqs u (issue_url (py "2")) then ko else ok []
           | _ => ko
           end
      else ko
  | _ => ko
  end.

Definition scripted_read (path : pystr) (w : unit) : option pystr :=
  if eqs path (py "tasks.md")
  then Some (py "- [ ] Buy milk" ++ py (String "010" EmptyString) ++ py "- [x] Done thing")
  else None.

Definition scripted_projects (out : pystr) : option projects_json :=
  if eqs out (py "projects") then Some (ProjectsDict (Some [Project (Some 7%Z)]))
  else None.

Definition dquote : pystr := [ascii_of_nat 34].

(** The JSON text of an object with the one key [title]. *)
Definition object_text (t : pystr) : pystr :=
  py "{" ++ dquote ++ py "title" ++ dquote ++ py ": " ++ dquote ++ t ++ dquote
  ++ py "}".

(** The JSON strings the machine knows: an empty array, a number, an array
    of a number, and a bare object in place of an array of objects. *)
Definition scripted_json (j : pystr) : option json :=
  if eqs j (py "[]") then Some (JArr [])
  else if eqs j (py "5") then Some (JInt 5)
  else if eqs j (py "[7]") then Some (JArr [JInt 7])
  else if eqs j (object_text (py "x")) then Some (JObj [(py "title", JStr (py "x"))])
  else None.

#[local] Instance scripted : Host := {
  world := unit;
  subprocess_run := scripted_run;
  read_file := scripted_read;
  json_loads_projects := scripted_projects;
  json_loads := scripted_json
}.

Definition start : state := State tt [].

(** The state after some commands. *)
Definition after (cs : list (list pystr)) : state := State tt cs.

Definition acme : pystr := py "acme/widgets".

Definition nameless : task := JObj [(py "title", JStr [])].


(** A batch with one task of each fate. *)
Definition batch : list task :=
  [titled (py "ok"); nameless; titled (py "broken"); titled (py "orphan")].

(** A command line that names a checklist file that does not exist, with
    the repository, the project and one task given. *)
Definition args_missing_file : args :=
  Args (Some acme) (Some 7%Z) (Some (py "missing.md")) (Some [py "foo"]) None.

End Scenario.

(** ** Texts the scripts read, written out

    The shapes of the inputs the further properties are stated on. *)

Module Render.

Definition newline : ascii := "010"%char.

(** A text of one line. *)
Definition one_line (s : pystr) : Prop := Forall (fun c => eqc c newline = false) s.

(** A text without white space at either end. *)
Definition trimmed (s : pystr) : Prop := strip s = s.

(** A checklist with one unchecked item for each title. *)
Definition checklist (titles : list pystr) : pystr :=
  join [newline] (map (fun t => py "- [ ] " ++ t) titles).

End Render.

(** ** The preamble of a manifest, written out *)

Module ManifestSpec.

Import BuildSkills Render.

(** The line that opens a preamble, and the text that closes it. *)
Definition opening : pystr := py "---" ++ [newline].

Definition closing : pystr := newline :: py "---".

(** [\n---], the end of the preamble pattern. *)
Definition closing_re : regex := lit closing.

(** A text that starts with a preamble of the given lines. *)
Definition with_preamble (lines : list pystr) (rest : pystr) : pystr :=
  opening ++ join [newline] lines ++ closing ++ rest.

(** No line after the first starts with the marker. *)
Definition unmarked (lines : list pystr) : Prop :=
  Forall (fun l => startswith l (py "---") = false) (tl lines).

(** The line of a key and its value. *)
Definition pair_line (kv : pystr * pystr) : pystr := fst kv ++ py ": " ++ snd kv.

(** A key as it can be written on a line of its own: one trimmed line
    that is not empty, holds no colon, and starts neither a comment nor a
    marker. *)
Definition plain_key (k : pystr) : Prop :=
  k <> [] /\ trimmed k /\ one_line k /\
  Forall (fun c => eqc c ":"%char = false) k /\
  startswith k (py "#") = false /\ startswith k (py "---") = false.

(** A value as it can be written after a key: one trimmed line. *)
Definition plain_value (v : pystr) : Prop := trimmed v /\ one_line v.

(** A value written without quotes. *)
Definition bare (v : pystr) : Prop :=
  plain_value v /\ startswith v [quote] = false /\
  startswith v [apostrophe] = false.




End ManifestSpec.

(** ** The package builder, in the words of the specification *)

Module BuildSpec.

Import BuildSkills Render ManifestSpec.


(** An attempt to build an archive: the three arguments given to
    [shutil.make_archive], and what came of it. *)
Definition attempt : Type := (pystr * pystr * pystr * outcome)%type.

(** The archives attempted among some operations. *)
Definition attempts {P : Type} (os : list (op P)) : list attempt :=
  flat_map (fun o => match o with
                     | OpMakeArchive b r d x => [(b, r, d, x)]
                     | _ => []
                     end) os.

Definition is_failure (a : attempt) : bool :=
  match snd a with
  | Done => false
  | Error _ => true
  end.

Definition zip_error {P : Type} (k : skill P) (msg : pystr) : pystr :=
  py "Error creating zip for " ++ name k ++ py ": " ++ msg.

Definition or_nil (o : option pystr) : pystr :=
  match o with
  | Some s => s
  | None => []
  end.


(** How the archiving of a sequence of skills ends. *)
Inductive ending (P : Type) : Type :=
| AllMade                                 (* every archive is made *)
| FailedAt (k : skill P) (msg : pystr)    (* making the archive of [k] raised [msg] *)
| StoppedAt (k : skill P).                (* the old archive of [k] could not be deleted *)
Arguments AllMade {P}.

Section Archives.

Context {F : FileSystem}.

Variable root_dir : path.

(** The attempt to archive a skill: the archive is built from
    [root_dir / <name>.zip] without its suffix, out of the directory of the
    skill, given as its parent and its last component. *)
Definition attempt_of (r : outcome) (k : skill path) : attempt :=
  (archive_base root_dir k, archive_root k, archive_dir k, r).

(** Archiving a sequence of skills: the archives are made in the order of
    the skills; at the first skill whose archive fails, or whose old
    archive cannot be deleted, the batch ends, and nothing is attempted for
    the skills after it. *)
Definition Archived (skills : list (skill path)) (e : ending path)
    (att : list attempt) : Prop :=
  match e with
  | AllMade => att = map (attempt_of Done) skills
  | FailedAt k msg =>
      exists before after,
        skills = before ++ k :: after /\
        att = map (attempt_of Done) before ++ [attempt_of (Error msg) k]
  | StoppedAt k =>
      exists before after,
        skills = before ++ k :: after /\
        att = map (attempt_of Done) before
  end.

End Archives.

Section Discovery.

Context {F : FileSystem}.

Variable root_dir : path.
Variable f : fs.

(** An entry of the root is a candidate: a directory, not hidden, not
    excluded, with a manifest. *)
Definition candidate (entry : pystr) : bool :=
  isdir (child root_dir entry) f && negb (is_hidden entry)
  && negb (is_excluded entry)
  && exists_ (manifest (child root_dir entry)) f.

(** An entry the discovery cannot get past: a candidate whose manifest
    cannot be read. *)
Definition unreadable (entry : pystr) : bool :=
  candidate entry &&
  match read_text (manifest (child root_dir entry)) f with
  | Some _ => false
  | None => true
  end.

(** The entries discovery gets to: all of them, or those up to the first
    one it cannot get past. *)
Fixpoint reached (entries : list pystr) : list pystr :=
  match entries with
  | [] => []
  | e :: es => if unreadable e then [e] else e :: reached es
  end.

(** The metadata of the manifest of an entry, when it can be read. *)
Definition metadata_of (entry : pystr) : option metadata :=
  option_map extract_yaml_preamble_of
             (read_text (manifest (child root_dir entry)) f).

(** A candidate whose metadata has a name is a skill; one without is
    warned about. *)
Definition is_skill (entry : pystr) : bool :=
  candidate entry &&
  match metadata_of entry with
  | Some md => md_has (py "name") md
  | None => false
  end.

Definition is_nameless (entry : pystr) : bool :=
  candidate entry &&
  match metadata_of entry with
  | Some md => negb (md_has (py "name") md)
  | None => false
  end.

Definition record_of (entry : pystr) : skill path :=
  let md := match metadata_of entry with
            | Some md => md
            | None => []
            end in
  Skill (or_nil (md_get (py "name") md))
        (or_nil (md_get (py "description") md))
        (child root_dir entry).



(** An operation that looks no further than an entry of the root and its
    manifest. *)
Definition shallow (entries : list pystr) (o : op path) : Prop :=
  exists entry,
    In entry entries /\
    (o = OpIsdir (child root_dir entry) \/
     o = OpExists (manifest (child root_dir entry)) \/
     o = OpRead (manifest (child root_dir entry))).

(** What discovery comes to on a listing of the root. *)
Definition discovered (entries : list pystr) : res (list (skill path)) :=
  if existsb unreadable entries then Raise
  else Ret (sorted_by_name (map record_of (filter is_skill entries))).

End Discovery.

Section Runs.

Context {F : FileSystem}.

(** What the loop of [find_skills] comes to, from the skills found so far
    and the state [s]: the skills among the entries are added in order,
    unless the manifest of a candidate cannot be read; each nameless
    candidate it gets to is warned about, nothing is printed or changed,
    and the operations are shallow and stop where the loop stops. *)
Definition found (root_dir : path) (entries : list pystr)
    (skills : list (skill path)) (s : state)
    (r : res (list (skill path)) * state) : Prop :=
  fst r = (if existsb (unreadable root_dir (files s)) entries then Raise
           else Ret (skills ++ map (record_of root_dir (files s))
                                   (filter (is_skill root_dir (files s)) entries))) /\
  files (snd r) = files s /\
  out (snd r) = out s /\
  err (snd r) = err s ++ map (fun e => warn_missing_name (manifest (child root_dir e)))
                             (filter (is_nameless root_dir (files s))
                                     (reached root_dir (files s) entries)) /\
  exists os,
    ops (snd r) = ops s ++ os /\
    Forall (shallow root_dir (reached root_dir (files s) entries)) os.

End Runs.

End BuildSpec.

(** ** A file system to run the builder on *)

Module BuildScenario.

Import BuildSkills.

Definition root : list pystr := [py "repo"].

Definition nl : pystr := py (String "010" EmptyString).

Definition manifest_text (entry : pystr) : pystr :=
  if eqs entry (py "beta")
  then py "---" ++ nl ++ py "name: beta" ++ nl ++ py "description: Second skill"
       ++ nl ++ py "---" ++ nl ++ py "# Beta"
  else if eqs entry (py "alpha")
  then py "---" ++ nl ++ py "# metadata" ++ nl ++ py "name: alpha" ++ nl ++ py "---" ++ nl
  else if eqs entry (py "gamma")
  then py "---" ++ nl ++ py "name : gamma" ++ nl ++ py "description: 'Third: the last'"
       ++ nl ++ py "---"
  else py "---" ++ nl ++ py "description: no name here" ++ nl ++ py "---" ++ nl.

(** The root holds the skills [beta], [alpha] and [gamma], a directory
    [draft] whose manifest has no name, a directory [empty] without
    manifest, a file, and directories the builder skips. *)
Definition entries : list pystr :=
  [py "beta"; py ".git"; py "notes.txt"; py "alpha"; py "venv"; py "empty";
   py "draft"; py "gamma"].

(** A second root, [shelf], holds [beta] and [draft] again, besides a
    hidden directory and a file. *)
Definition shelf : list pystr := [py "shelf"].

Definition shelf_entries : list pystr :=
  [py "beta"; py ".git"; py "notes.txt"; py "draft"].


(** What goes wrong on the file system: the archive of [beta] cannot be
    made; the manifest of [draft] cannot be read; [README.md] cannot be
    written, as when it is a directory. *)
Record setup : Type := Setup {
  archive_fails : bool;
  manifest_locked : bool;
  listing_locked : bool
}.

Definition fine : setup := Setup false false false.
Definition failing : setup := Setup true false false.

(** [name.with_suffix('')] on a last component: the text from the last
    dot on is dropped, unless that dot is the first or the last
    character. *)
Definition stem (name : pystr) : pystr :=
  match split1 "."%char (rev name) with
  | Some (_ :: _, (_ :: _) as b) => rev b
  | _ => name
  end.

Definition str_of (p : list pystr) : pystr := join (py "/") p.

Definition same (p q : pystr) : bool := eqs p q.

(** The file system: a path is the list of its components (the names of
    the scenario hold no [/]), and the state is the list of the files made
    in the root. *)
Definition scripted_fs (c : setup) : FileSystem := {|
  fs := list pystr;
  path := list pystr;
  joinpath := fun p name => p ++ [name];
  path_name := fun p => last p [];
  path_parent := fun p => removelast p;
  with_suffix_empty := fun p => removelast p ++ [stem (last p [])];
  path_str := str_of;
  listdir := fun p _ =>
    if same (str_of p) (str_of root) then Some entries
    else if same (str_of p) (str_of shelf) then Some shelf_entries
    else None;
  isdir := fun p _ =>
    match p with
    | [r; e] => (eqs r (py "repo") || eqs r (py "shelf")) && negb (eqs e (py "notes.txt"))
    | _ => false
    end;
  exists_ := fun p made =>
    match p with
    | [r; e; m] =>
        (eqs r (py "repo") || eqs r (py "shelf")) && eqs m (py "SKILL.md")
        && negb (eqs e (py "empty"))
    | _ => existsb (same (str_of p)) made
    end;
  read_text := fun p _ =>
    match p with
    | [_; e; _] =>
        if manifest_locked c && eqs e (py "draft") then None
        else Some (manifest_text e)
    | _ => None
    end;
  unlink := fun p made => (true, filter (fun q => negb (same (str_of p) q)) made);
  make_archive := fun base_name root_dir base_dir made =>
    if archive_fails c && eqs base_dir (py "beta")
    then (Error (py "disk full"), made)
    else (Done, (base_name ++ py ".zip") :: made);
  write_text := fun p _ made =>
    if listing_locked c then (false, made) else (true, str_of p :: made)
|}.

Definition start (c : setup) : state (F := scripted_fs c) :=
  State (F := scripted_fs c) [] [] [] [].

(** The skills of the root, as discovery returns them. *)
Definition three : list (skill (list pystr)) :=
  [Skill (py "alpha") [] (root ++ [py "alpha"]);
   Skill (py "beta") (py "Second skill") (root ++ [py "beta"]);
   Skill (py "gamma") (py "Third: the last") (root ++ [py "gamma"])].

(** The same skills, found elsewhere. *)
Definition elsewhere : list pystr := [py "srv"; py "skills"].

Definition three_elsewhere : list (skill (list pystr)) :=
  map (fun k => Skill (name k) (description k) (elsewhere ++ [name k])) three.

(** A skill whose manifest gives it an empty name. *)
Definition anonymous : skill (list pystr) := Skill [] [] (root ++ [py "alpha"]).

End BuildScenario.

(** ** The shape of a GitHub remote *)

Module UrlSpec.

Import Render.

(** [(\.git)?$], the end of both URL patterns. *)
Definition suffix_re : regex := Cat (Opt (Grp 2 (lit (py ".git")))) Eol.

Definition slash_free (s : pystr) : Prop := Forall (fun c => notslash c = true) s.

(** What a pattern leaves after the repository name: nothing or [.git],
    and then at most a line break. *)
Definition url_end (t : pystr) : Prop :=
  t = [] \/ t = [newline] \/ t = py ".git" \/ t = py ".git" ++ [newline].

End UrlSpec.

(** ** What the synchroniser records *)

Module SyncRecords.

Import SyncTasks Render.

(** The URL of an issue as the synchroniser records it: not empty, and
    without white space at either end. *)
Definition recorded_url (u : pystr) : Prop := u <> [] /\ trimmed u.

(** A failure record is well formed: it carries the URL of the issue
    exactly when the reason is that the issue could not be added to the
    project. *)
Definition failure_ok (f : failed_entry) : Prop :=
  match f_issue_url f with
  | Some u => recorded_url u /\ f_error f = err_link
  | None => f_error f = err_no_title \/ f_error f = err_create
  end.

(** A machine without [gh] and without [git]: no command can be launched,
    no file exists, nothing parses. *)
Definition bare : Host := {|
  world := unit;
  subprocess_run := fun _ w => (None, w);
  read_file := fun _ _ => None;
  json_loads_projects := fun _ => None;
  json_loads := fun _ => None
|}.

(** The scripted machine in a clone of [acme/widgets]: [origin] has an
    SSH URL. *)
Definition cloned : Host := {|
  world := unit;
  subprocess_run := fun cmd w =>
    match cmd with
    | [g; r; u; o] =>
        if eqs g (py "git") && eqs r (py "remote") && eqs u (py "get-url")
           && eqs o (py "origin")
        then (Some (Completed 0 (py "git@github.com:acme/widgets.git" ++ [newline]) []), w)
        else Scenario.scripted_run cmd w
    | _ => Scenario.scripted_run cmd w
    end;
  read_file := Scenario.scripted_read;
  json_loads_projects := Scenario.scripted_projects;
  json_loads := Scenario.scripted_json
|}.

End SyncRecords.

(** ** What the builder touches and writes *)

Module BuildRecords.

Import BuildSkills BuildSpec Render.

(** An entry that is neither hidden nor excluded. *)
Definition visible (entry : pystr) : bool :=
  negb (is_hidden entry) && negb (is_excluded entry).

(** The entries [os.listdir] gives, none when it raises. *)
Definition listing (o : option (list pystr)) : list pystr :=
  match o with
  | Some entries => entries
  | None => []
  end.

Section Probes.

Context {F : FileSystem}.

Variable root_dir : path.
Variable f : fs.

(** What discovery does with the entries of the root: it asks whether an
    entry is a directory; for a visible directory, whether it has a
    manifest; and it reads the manifest of a candidate. *)
Inductive probe : op path -> Prop :=
| Probe_isdir (e : pystr) : probe (OpIsdir (child root_dir e))
| Probe_exists (e : pystr) :
    isdir (child root_dir e) f = true -> visible e = true ->
    probe (OpExists (manifest (child root_dir e)))
| Probe_read (e : pystr) :
    candidate root_dir f e = true ->
    probe (OpRead (manifest (child root_dir e))).

(** An operation for the archive of one of the skills: it checks or
    deletes [root_dir / <name>.zip], or builds the archive from that path
    without its suffix. *)
Inductive zip_op (skills : list (skill path)) : op path -> Prop :=
| Zip_exists (k : skill path) :
    In k skills -> zip_op skills (OpExists (zip_of root_dir k))
| Zip_unlink (k : skill path) (ok : bool) :
    In k skills -> zip_op skills (OpUnlink (zip_of root_dir k) ok)
| Zip_archive (k : skill path) (r : outcome) :
    In k skills ->
    zip_op skills (OpMakeArchive (archive_base root_dir k) (archive_root k)
                                 (archive_dir k) r).

End Probes.

(** The files a run tries to write, with their contents. *)
Definition writes {P : Type} (os : list (op P)) : list (P * pystr) :=
  flat_map (fun o => match o with
                     | OpWrite p c _ => [(p, c)]
                     | _ => []
                     end) os.

Definition has_name {P : Type} (n : pystr) (k : skill P) : bool := eqs (name k) n.

(** The listing, piece by piece. *)
Definition readme_head : pystr :=
  py "# Claude Skills" ++ [newline; newline] ++
  py "A collection of Claude Code skills." ++ [newline; newline] ++
  py "## Available Skills" ++ [newline; newline].

Definition readme_section {P : Type} (k : skill P) : pystr :=
  py "### " ++ name k ++ [newline; newline] ++
  match description k with
  | [] => []
  | _ :: _ => description k ++ [newline; newline]
  end ++
  py "- **File**: `" ++ name k ++ py ".zip`" ++ [newline; newline; newline].

Definition readme_foot : pystr :=
  py "## Installation" ++ [newline; newline] ++
  py "Download any of the `.zip` files above to install a skill." ++ [newline].

End BuildRecords.

(** * Properties *)

(** ** Strings *)

Module PyFacts.

Lemma take_lstrip (p : ascii -> bool) (s : pystr) :
  take_by p s ++ lstrip_by p s = s.
Proof.
  induction s as [|c s IH]; simpl; [reflexivity|].
  destruct (p c); simpl; [now rewrite IH | reflexivity].
Qed.

Lemma take_by_all (p : ascii -> bool) (s : pystr) :
  Forall (fun c => p c = true) (take_by p s).
Proof.
  induction s as [|c s IH]; simpl; [constructor|].
  destruct (p c) eqn:E; [constructor; assumption | constructor].
Qed.

Lemma lstrip_by_head (p : ascii -> bool) (s : pystr) (c : ascii) (s' : pystr) :
  lstrip_by p s = c :: s' -> p c = false.
Proof.
  induction s as [|d s IH]; simpl; [discriminate|].
  destruct (p d) eqn:E; [assumption|].
  intros Heq; injection Heq as -> _; assumption.
Qed.

Lemma lstrip_by_idem (p : ascii -> bool) (s : pystr) :
  lstrip_by p (lstrip_by p s) = lstrip_by p s.
Proof.
  destruct (lstrip_by p s) as [|c s'] eqn:E; [reflexivity|].
  simpl. now rewrite (lstrip_by_head _ _ E).
Qed.

Lemma lstrip_by_app (p : ascii -> bool) (l s : pystr) :
  Forall (fun c => p c = true) l -> lstrip_by p (l ++ s) = lstrip_by p s.
Proof.
  induction 1 as [|c l Hc _ IH]; simpl; [reflexivity|].
  now rewrite Hc.
Qed.

Lemma take_by_app (p : ascii -> bool) (l s : pystr) :
  Forall (fun c => p c = true) l -> take_by p (l ++ s) = l ++ take_by p s.
Proof.
  induction 1 as [|c l Hc _ IH]; simpl; [reflexivity|].
  now rewrite Hc, IH.
Qed.

Lemma strip_lstrip (s : pystr) : strip (lstrip_by isspace s) = strip s.
Proof. unfold strip. now rewrite lstrip_by_idem. Qed.

Lemma eqc_eq (a b : ascii) : eqc a b = true <-> a = b.
Proof. apply Ascii.eqb_eq. Qed.

Lemma bullet_not_space (c : ascii) : is_bullet c = true -> isspace c = false.
Proof.
  unfold is_bullet. intros Hb. apply orb_true_iff in Hb.
  destruct Hb as [Hb|Hb]; apply eqc_eq in Hb; subst c; reflexivity.
Qed.

End PyFacts.

(** ** More on strings *)

Module PyMore.

Import PyFacts.

Lemma eqc_refl (c : ascii) : eqc c c = true.
Proof. apply Ascii.eqb_refl. Qed.

Lemma eqc_neq (a b : ascii) : eqc a b = false <-> a <> b.
Proof. apply Ascii.eqb_neq. Qed.

Lemma startswith_nil (s : pystr) : startswith s [] = true.
Proof. destruct s; reflexivity. Qed.

Lemma split_aux_app (sep : ascii) (a : pystr) :
  forall cur b,
    split_aux sep cur (a ++ sep :: b) = split_aux sep cur a ++ split sep b.
Proof.
  induction a as [|c a IH]; intros cur b; cbn [app split_aux].
  - now rewrite eqc_refl.
  - destruct (eqc c sep); [|apply IH].
    cbn [app]. f_equal. apply IH.
Qed.

(** [(a + sep + b).split(sep)] is [a.split(sep) + b.split(sep)]. *)
Lemma split_app (sep : ascii) (a b : pystr) :
  split sep (a ++ sep :: b) = split sep a ++ split sep b.
Proof. apply split_aux_app. Qed.

Lemma split_aux_nosep (sep : ascii) (a : pystr) :
  Forall (fun c => eqc c sep = false) a ->
  forall cur, split_aux sep cur a = [rev cur ++ a].
Proof.
  induction 1 as [|c a Hc _ IH]; intros cur; cbn [split_aux].
  - now rewrite app_nil_r.
  - rewrite Hc, IH. cbn [rev]. now rewrite <- app_assoc.
Qed.

Lemma split_nosep (sep : ascii) (a : pystr) :
  Forall (fun c => eqc c sep = false) a -> split sep a = [a].
Proof. intros Ha. unfold split. now rewrite split_aux_nosep. Qed.

Lemma join_cons (sep x : pystr) (l : list pystr) :
  l <> [] -> join sep (x :: l) = x ++ sep ++ join sep l.
Proof. destruct l; [congruence | reflexivity]. Qed.

(** Joining lines and splitting the text gives the lines back. *)
Lemma split_join (sep : ascii) (lines : list pystr) :
  lines <> [] ->
  Forall (Forall (fun c => eqc c sep = false)) lines ->
  split sep (join [sep] lines) = lines.
Proof.
  induction lines as [|x l IH]; intros Hne Hl; [congruence|].
  inversion Hl as [|? ? Hx Hl']; subst.
  destruct l as [|y l].
  - cbn [join]. now apply split_nosep.
  - rewrite join_cons by discriminate. cbn [app].
    rewrite split_app, split_nosep by assumption.
    rewrite IH; [reflexivity | discriminate | assumption].
Qed.

Lemma split_aux_nonempty (sep : ascii) (s : pystr) :
  forall cur, split_aux sep cur s <> [].
Proof.
  induction s as [|c s IH]; intros cur; cbn [split_aux]; [discriminate|].
  destruct (eqc c sep); [discriminate | apply IH].
Qed.

Lemma join_split_aux (sep : ascii) (s : pystr) :
  forall cur, join [sep] (split_aux sep cur s) = rev cur ++ s.
Proof.
  induction s as [|c s IH]; intros cur; cbn [split_aux].
  - cbn [join]. now rewrite app_nil_r.
  - destruct (eqc c sep) eqn:E.
    + apply eqc_eq in E. subst c.
      rewrite join_cons by apply split_aux_nonempty.
      now rewrite IH.
    + rewrite IH. cbn [rev]. now rewrite <- app_assoc.
Qed.

(** Splitting a text and joining the pieces gives the text back. *)
Lemma join_split (sep : ascii) (s : pystr) : join [sep] (split sep s) = s.
Proof. apply join_split_aux. Qed.

Lemma split_aux_pieces (sep : ascii) (s : pystr) :
  forall cur,
    Forall (fun c => eqc c sep = false) cur ->
    Forall (Forall (fun c => eqc c sep = false)) (split_aux sep cur s).
Proof.
  induction s as [|c s IH]; intros cur Hcur; cbn [split_aux].
  - constructor; [|constructor]. now apply Forall_rev.
  - destruct (eqc c sep) eqn:E.
    + constructor; [now apply Forall_rev | apply IH; constructor].
    + apply IH. now constructor.
Qed.

(** No piece of a split holds the separator. *)
Lemma split_pieces (sep : ascii) (s : pystr) :
  Forall (Forall (fun c => eqc c sep = false)) (split sep s).
Proof. apply split_aux_pieces. constructor. Qed.

Lemma lstrip_by_keep (p : ascii -> bool) (a : pystr) (c : ascii) (b : pystr) :
  p c = false -> lstrip_by p (a ++ c :: b) = lstrip_by p a ++ c :: b.
Proof.
  intros Hc. induction a as [|d a IH]; cbn [app lstrip_by].
  - now rewrite Hc.
  - destruct (p d); [exact IH | reflexivity].
Qed.

Lemma rstrip_by_app_keep (p : ascii -> bool) (x : pystr) (c : ascii) (y : pystr) :
  p c = false -> rstrip_by p (x ++ c :: y) = x ++ c :: rstrip_by p y.
Proof.
  intros Hc. unfold rstrip_by.
  rewrite rev_app_distr. cbn [rev]. rewrite <- app_assoc. cbn [app].
  rewrite lstrip_by_keep by assumption. rewrite rev_app_distr. cbn [rev].
  rewrite rev_involutive, <- app_assoc. reflexivity.
Qed.

Lemma rstrip_by_cons_keep (p : ascii -> bool) (c : ascii) (y : pystr) :
  p c = false -> rstrip_by p (c :: y) = c :: rstrip_by p y.
Proof. intros Hc. exact (@rstrip_by_app_keep p [] c y Hc). Qed.

Lemma rstrip_by_last (p : ascii -> bool) (s t : pystr) (c : ascii) :
  rstrip_by p s = t ++ [c] -> p c = false.
Proof.
  unfold rstrip_by. intros Hs.
  apply (f_equal (@rev ascii)) in Hs.
  rewrite rev_involutive, rev_app_distr in Hs. cbn [rev app] in Hs.
  exact (@lstrip_by_head _ _ _ _ Hs).
Qed.

Lemma rstrip_by_idem (p : ascii -> bool) (s : pystr) :
  rstrip_by p (rstrip_by p s) = rstrip_by p s.
Proof. unfold rstrip_by. now rewrite rev_involutive, lstrip_by_idem. Qed.

Lemma rstrip_by_all (p : ascii -> bool) (s : pystr) :
  Forall (fun c => p c = true) s -> rstrip_by p s = [].
Proof.
  intros Hs. unfold rstrip_by.
  rewrite <- (app_nil_r (rev s)), lstrip_by_app; [reflexivity | now apply Forall_rev].
Qed.

(** Trailing characters of the class make no difference to [rstrip]. *)
Lemma rstrip_by_app (p : ascii -> bool) (s l : pystr) :
  Forall (fun c => p c = true) l -> rstrip_by p (s ++ l) = rstrip_by p s.
Proof.
  intros Hl. unfold rstrip_by. rewrite rev_app_distr, lstrip_by_app; [reflexivity|].
  now apply Forall_rev.
Qed.

(** [rstrip] drops a tail of characters of the class, and nothing else. *)
Lemma rstrip_by_split (p : ascii -> bool) (s : pystr) :
  exists tail, s = rstrip_by p s ++ tail /\ Forall (fun c => p c = true) tail.
Proof.
  unfold rstrip_by. exists (rev (take_by p (rev s))). split.
  - rewrite <- rev_app_distr, take_lstrip. now rewrite rev_involutive.
  - apply Forall_rev, take_by_all.
Qed.

Lemma strip_cases (s : pystr) :
  (lstrip_by isspace s = [] /\ strip s = []) \/
  (exists c u, lstrip_by isspace s = c :: u /\ isspace c = false /\
               strip s = c :: rstrip_by isspace u).
Proof.
  unfold strip. destruct (lstrip_by isspace s) as [|c u] eqn:E.
  - left. split; reflexivity.
  - right. exists c, u. pose proof (@lstrip_by_head _ _ _ _ E) as Hc.
    repeat split; try assumption.
    now apply rstrip_by_cons_keep.
Qed.

(** A trimmed text that is not empty starts and ends with a character
    that is not white space. *)
Lemma strip_first (s : pystr) (c : ascii) (t : pystr) :
  strip s = c :: t -> isspace c = false.
Proof.
  destruct (strip_cases s) as [[_ ->]|(d & u & _ & Hd & ->)]; [discriminate|].
  intros Heq. now injection Heq as <- _.
Qed.

Lemma strip_last (s t : pystr) (c : ascii) :
  strip s = t ++ [c] -> isspace c = false.
Proof. unfold strip. apply rstrip_by_last. Qed.

Lemma strip_idem (s : pystr) : strip (strip s) = strip s.
Proof.
  destruct (strip_cases s) as [[_ ->]|(d & u & _ & Hd & ->)]; [reflexivity|].
  unfold strip. cbn [lstrip_by]. rewrite Hd.
  rewrite rstrip_by_cons_keep by assumption.
  now rewrite rstrip_by_idem.
Qed.

Lemma Forall_lstrip_by (P : ascii -> Prop) (p : ascii -> bool) (s : pystr) :
  Forall P s -> Forall P (lstrip_by p s).
Proof.
  induction 1 as [|c s Hc Hs IH]; cbn [lstrip_by]; [constructor|].
  destruct (p c); [assumption | now constructor].
Qed.

Lemma Forall_rstrip_by (P : ascii -> Prop) (p : ascii -> bool) (s : pystr) :
  Forall P s -> Forall P (rstrip_by p s).
Proof.
  intros Hs. unfold rstrip_by. apply Forall_rev, Forall_lstrip_by, Forall_rev, Hs.
Qed.

Lemma Forall_strip (P : ascii -> Prop) (s : pystr) :
  Forall P s -> Forall P (strip s).
Proof. intros Hs. unfold strip. now apply Forall_rstrip_by, Forall_lstrip_by. Qed.





(** A line of output that neither starts nor ends with white space is
    what [strip] leaves of it and its line break. *)
Lemma strip_output (s : pystr) :
  lstrip_by isspace s = s -> rstrip_by isspace s = s ->
  strip (s ++ ["010"%char]) = s.
Proof.
  intros Hl Hr. destruct s as [|a t]; [reflexivity|].
  assert (Ha : isspace a = false) by (eapply lstrip_by_head; exact Hl).
  unfold strip. cbn [app lstrip_by]. rewrite Ha.
  change (a :: t ++ ["010"%char]) with ((a :: t) ++ ["010"%char]).
  rewrite rstrip_by_app by (repeat constructor). exact Hr.
Qed.

End PyMore.

(** ** The matcher *)

Module ReFacts.

Import PyFacts.

Lemma hd_error_app {A} (l1 l2 : list A) :
  hd_error (l1 ++ l2) =
  match hd_error l1 with Some x => Some x | None => hd_error l2 end.
Proof. destruct l1; reflexivity. Qed.

(** A greedy repetition followed by something that cannot start with a
    character of the class takes the whole run of the class. *)
Lemma flat_map_rep_greedy (p : ascii -> bool) (k : mstate -> list mstate) :
  (forall m c s', rest m = c :: s' -> p c = true -> k m = []) ->
  forall s lo caps pos,
    flat_map k (rep_greedy p lo caps pos s) =
    if lo <=? List.length (take_by p s)
    then k (MState (pos + List.length (take_by p s)) (lstrip_by p s) caps)
    else [].
Proof.
  intros Hk s. induction s as [|c s IH]; intros lo caps pos.
  - simpl. destruct lo; simpl; [|reflexivity].
    now rewrite Nat.add_0_r, app_nil_r.
  - simpl. destruct (p c) eqn:Hp.
    + rewrite flat_map_app, IH. simpl List.length.
      assert (Hz : flat_map k (if lo =? 0 then [MState pos (c :: s) caps] else []) = []).
      { destruct (lo =? 0); simpl; [|reflexivity].
        rewrite (Hk (MState pos (c :: s) caps) c s); auto. }
      rewrite Hz, app_nil_r.
      replace (S pos + List.length (take_by p s))
        with (pos + S (List.length (take_by p s))) by lia.
      destruct lo; reflexivity.
    + simpl. destruct lo; simpl; [|reflexivity].
      now rewrite Nat.add_0_r, app_nil_r.
Qed.

(** The first way a greedy repetition matches is the longest. *)
Lemma hd_rep_greedy (p : ascii -> bool) (s : pystr) :
  forall lo caps pos,
    hd_error (rep_greedy p lo caps pos s) =
    if lo <=? List.length (take_by p s)
    then Some (MState (pos + List.length (take_by p s)) (lstrip_by p s) caps)
    else None.
Proof.
  induction s as [|c s IH]; intros lo caps pos.
  - simpl. destruct lo; simpl; [|reflexivity]. now rewrite Nat.add_0_r.
  - simpl. destruct (p c) eqn:Hp.
    + rewrite hd_error_app, IH. simpl List.length.
      replace (S pos + List.length (take_by p s))
        with (pos + S (List.length (take_by p s))) by lia.
      destruct lo as [|lo]; simpl Nat.pred.
      * reflexivity.
      * change (S lo <=? S (List.length (take_by p s)))
          with (lo <=? List.length (take_by p s)).
        destruct (lo <=? List.length (take_by p s)); reflexivity.
    + simpl. destruct lo; simpl; [|reflexivity]. now rewrite Nat.add_0_r.
Qed.

(** A pattern that begins with [^] matches nowhere but at offset 0. *)
Lemma search_from_bol (r : regex) (s : pystr) :
  forall start adv, search_from (Cat Bol r) (S start) s adv = None.
Proof.
  induction s as [|c s IH]; intros start adv; simpl; unfold attempt; simpl;
    [reflexivity | apply IH].
Qed.

Lemma search_from_eq (r : regex) (start : nat) (s : pystr) (adv : bool) :
  search_from r start s adv =
  match attempt r start s adv with
  | Some m => Some (Match start m)
  | None =>
      match s with
      | [] => None
      | _ :: s' => search_from r (S start) s' false
      end
  end.
Proof. destruct s; reflexivity. Qed.

Lemma filter_all {A} (l : list A) : filter (fun _ => true) l = l.
Proof. induction l as [|x l IH]; simpl; [reflexivity | now rewrite IH]. Qed.

Lemma attempt_free (r : regex) (start : nat) (s : pystr) :
  attempt r start s false = hd_error (run r (MState start s [])).
Proof. unfold attempt. simpl. now rewrite filter_all. Qed.

End ReFacts.

(** ** The checklist parser *)

Module MarkdownFacts.

Import PyFacts PyMore ReFacts Spec Render.

(** Trimming a text that has no white space at either end, followed by
    white space, gives the text back. *)
Lemma strip_solid (t trail : pystr) :
  solid t -> blank trail -> strip (t ++ trail) = t.
Proof.
  intros [(a & u & Ht & Ha) (v & z & Hz & Hzs)] Htr.
  unfold strip. rewrite Ht at 1. cbn [app lstrip_by]. rewrite Ha.
  change (a :: u ++ trail) with ((a :: u) ++ trail). rewrite <- Ht.
  rewrite rstrip_by_app by exact Htr.
  rewrite Hz. now apply (@rstrip_by_app_keep isspace v z []).
Qed.

Lemma solid_strip (s : pystr) : strip s <> [] -> solid (strip s).
Proof.
  intros Hne. split.
  - destruct (strip s) as [|a u] eqn:E; [congruence|].
    exists a, u. split; [reflexivity|]. eapply strip_first. exact E.
  - destruct (exists_last Hne) as (v & z & Hz).
    exists v, z. split; [exact Hz|]. eapply strip_last. exact Hz.
Qed.

Lemma solid_trimmed (t : pystr) : solid t <-> t <> [] /\ trimmed t.
Proof.
  split.
  - intros Hs. split.
    + destruct Hs as [(a & u & -> & _) _]. discriminate.
    + unfold trimmed. rewrite <- (app_nil_r t) at 1.
      apply strip_solid; [exact Hs | constructor].
  - intros [Hne Ht]. rewrite <- Ht. apply solid_strip. now rewrite Ht.
Qed.

(** What [strip] drops at the end. *)
Lemma strip_tail (s : pystr) :
  exists trail, lstrip_by isspace s = strip s ++ trail /\ blank trail.
Proof. unfold strip. apply rstrip_by_split. Qed.

Lemma space_not_bullet (c : ascii) : isspace c = true -> is_bullet c = false.
Proof.
  intros Hs. destruct (is_bullet c) eqn:Hb; [|reflexivity].
  apply bullet_not_space in Hb. congruence.
Qed.

Lemma space_not_open (c : ascii) : isspace c = true -> eqc "["%char c = false.
Proof.
  intros Hs. destruct (eqc "["%char c) eqn:Hb; [|reflexivity].
  apply eqc_eq in Hb. subst c. discriminate.
Qed.

(** The matcher on [task_re] computes [item_parse]. *)
Lemma run_task_re (line : pystr) :
  hd_error (run task_re (MState 0 line [])) =
  match item_parse line with
  | Some (n, r) => Some (MState n r [])
  | None => None
  end.
Proof.
  unfold task_re, item_parse. cbn [run pos rest caps Nat.eqb flat_map app].
  rewrite app_nil_r, flat_map_rep_greedy.
  2:{ intros m c s' Hr Hc. rewrite Hr, (space_not_bullet _ Hc). reflexivity. }
  change (0 <=? List.length (take_by isspace line)) with true.
  cbn [pos rest caps].
  destruct (lstrip_by isspace line) as [|b s1]; [reflexivity|].
  destruct (is_bullet b); [|reflexivity].
  cbn [flat_map pos rest caps]. rewrite app_nil_r, flat_map_rep_greedy.
  2:{ intros m c s' Hr Hc. rewrite Hr, (space_not_open _ Hc). reflexivity. }
  destruct (1 <=? List.length (take_by isspace s1)); [|reflexivity].
  cbn [pos rest caps].
  destruct (lstrip_by isspace s1) as [|o s2]; [reflexivity|].
  destruct (eqc "["%char o); [|reflexivity].
  cbn [flat_map pos rest caps]. rewrite app_nil_r.
  destruct s2 as [|x s3]; [reflexivity|].
  destruct (isspace x); [|reflexivity].
  cbn [flat_map pos rest caps]. rewrite app_nil_r.
  destruct s3 as [|c s4]; [reflexivity|].
  destruct (eqc "]"%char c); [|reflexivity].
  cbn [flat_map pos rest caps]. rewrite app_nil_r, hd_rep_greedy.
  destruct (1 <=? List.length (take_by isspace s4)); reflexivity.
Qed.

Lemma item_parse_pos (line : pystr) (n : nat) (r : pystr) :
  item_parse line = Some (n, r) -> exists n', n = S n'.
Proof.
  unfold item_parse. intros Hp.
  repeat match type of Hp with
         | match ?x with _ => _ end = _ => destruct x; try discriminate
         | (if ?x then _ else _) = _ => destruct x; try discriminate
         end.
  injection Hp as <- _. simpl. eexists. reflexivity.
Qed.

(** [re.sub] with [task_re] deletes the one match at the start of the
    line. *)
Lemma re_sub_task_re (line : pystr) (n : nat) (r : pystr) :
  item_parse line = Some (n, r) -> re_sub_empty task_re line = r.
Proof.
  intros Hp. destruct (item_parse_pos _ Hp) as [n' ->].
  unfold re_sub_empty.
  replace (2 * List.length line + 2) with (S (S (2 * List.length line))) by lia.
  cbn [sub_loop]. rewrite search_from_eq, attempt_free, run_task_re, Hp.
  cbn [m_start m_end pos rest Nat.sub firstn app Nat.eqb].
  unfold task_re at 1. rewrite search_from_bol. reflexivity.
Qed.

Lemma line_title_parse (line : pystr) :
  line_title line =
  match item_parse line with
  | Some (_, r) => match strip r with [] => None | c :: t => Some (c :: t) end
  | None => None
  end.
Proof.
  unfold line_title, re_match. rewrite attempt_free, run_task_re.
  destruct (item_parse line) as [[n r]|] eqn:Hp; [|reflexivity].
  cbn [option_map]. rewrite (re_sub_task_re _ Hp).
  destruct (strip r); reflexivity.
Qed.

Lemma blank_take (s : pystr) : blank (take_by isspace s).
Proof. apply take_by_all. Qed.

Lemma take_nonempty (s : pystr) :
  (1 <=? List.length (take_by isspace s)) = true -> take_by isspace s <> [].
Proof. destruct (take_by isspace s); [discriminate | discriminate]. Qed.

(** From the match to the shape of the line. *)
Lemma item_parse_item (line : pystr) (n : nat) (r : pystr) :
  item_parse line = Some (n, r) -> strip r <> [] -> unchecked_item line (strip r).
Proof.
  unfold item_parse. intros Hp Ht.
  destruct (lstrip_by isspace line) as [|b s1] eqn:E0; [discriminate|].
  destruct (is_bullet b) eqn:Hb; [|discriminate].
  destruct (1 <=? List.length (take_by isspace s1)) eqn:L1; [|discriminate].
  destruct (lstrip_by isspace s1) as [|o s2] eqn:E1; [discriminate|].
  destruct (eqc "["%char o) eqn:Ho; [|discriminate].
  destruct s2 as [|x s3]; [discriminate|].
  destruct (isspace x) eqn:Hx; [|discriminate].
  destruct s3 as [|c s4]; [discriminate|].
  destruct (eqc "]"%char c) eqn:Hc; [|discriminate].
  destruct (1 <=? List.length (take_by isspace s4)) eqn:L4; [|discriminate].
  injection Hp as _ <-.
  apply eqc_eq in Ho, Hc. subst o c.
  rewrite strip_lstrip in *.
  assert (Hline : line =
    take_by isspace line ++ b :: take_by isspace s1 ++
    "["%char :: x :: "]"%char :: take_by isspace s4 ++ lstrip_by isspace s4).
  { rewrite (take_lstrip isspace s4), <- E1, (take_lstrip isspace s1), <- E0.
    symmetry. apply take_lstrip. }
  destruct (strip_tail s4) as (trail & Htl & Hbl).
  rewrite Hline at 1. rewrite Htl.
  apply Unchecked; auto using blank_take, take_nonempty, solid_strip.
Qed.

(** From the shape of the line to the match. *)
Lemma item_item_parse (line t : pystr) :
  unchecked_item line t ->
  exists n r, item_parse line = Some (n, r) /\ strip r = t /\ t <> [].
Proof.
  intros Hi.
  destruct Hi as [indent b sep1 x sep2 t trail Hin Hb Hn1 Hs1 Hx Hn2 Hs2 Ht Htr].
  unfold item_parse.
  rewrite (lstrip_by_app _ _ Hin). simpl lstrip_by at 1.
  rewrite (bullet_not_space _ Hb), Hb.
  rewrite (take_by_app _ _ Hs1), (lstrip_by_app _ _ Hs1).
  simpl take_by. simpl lstrip_by. rewrite app_nil_r.
  assert (L1 : (1 <=? List.length sep1) = true).
  { destruct sep1; [congruence | reflexivity]. }
  rewrite L1. simpl eqc. rewrite Hx.
  rewrite (take_by_app _ _ Hs2), (lstrip_by_app _ _ Hs2).
  assert (L2 : (1 <=? List.length (sep2 ++ take_by isspace (t ++ trail))) = true).
  { destruct sep2; [congruence | reflexivity]. }
  rewrite L2. do 2 eexists. split; [reflexivity|].
  split; [rewrite strip_lstrip; now apply strip_solid|].
  destruct Ht as [(a & u & -> & _) _]. discriminate.
Qed.

(** A line contributes title [t] exactly when it is an unchecked item with
    title [t]. *)
Lemma line_title_iff (line t : pystr) :
  line_title line = Some t <-> unchecked_item line t.
Proof.
  rewrite line_title_parse. split.
  - destruct (item_parse line) as [[n r]|] eqn:Hp; [|discriminate].
    destruct (strip r) as [|c u] eqn:Hs; [discriminate|].
    intros Heq; injection Heq as <-. rewrite <- Hs.
    apply (item_parse_item _ Hp). rewrite Hs. discriminate.
  - intros Hi. destruct (item_item_parse Hi) as (n & r & -> & Hs & Hne).
    rewrite Hs. destruct t; [congruence | reflexivity].
Qed.








End MarkdownFacts.

(** ** The repository URL parser *)

Module UrlFacts.

Example parse_https_widgets :
  _parse_github_url (py "https://github.com/acme/widgets.git")
  = Some (py "acme/widgets").
Proof. vm_compute. reflexivity. Qed.

Example parse_ssh_widgets :
  _parse_github_url (py "git@github.com:acme/widgets.git")
  = Some (py "acme/widgets").
Proof. vm_compute. reflexivity. Qed.

(** The pattern alone leaves the suffix out of group 1: on
    [https://github.com/acme/widget.git] the group is [acme/widget]. *)
Example group_1_widget :
  option_map (fun m => group (py "https://github.com/acme/widget.git") m 1)
             (re_search https_re (py "https://github.com/acme/widget.git"))
  = Some (Some (py "acme/widget")).
Proof. vm_compute. reflexivity. Qed.

(** C1. The parser does not return [owner/repo] for every repository:
    [rstrip('.git')] removes every trailing [.], [g], [i] and [t], so the
    repository [acme/widget] comes out as [acme/widge], in the HTTPS and in
    the SSH form, with and without the suffix. *)
Theorem parse_github_url_widget :
  _parse_github_url (py "https://github.com/acme/widget.git") = Some (py "acme/widge") /\
  _parse_github_url (py "https://github.com/acme/widget") = Some (py "acme/widge") /\
  _parse_github_url (py "git@github.com:acme/widget.git") = Some (py "acme/widge") /\
  _parse_github_url (py "git@github.com:acme/widget") = Some (py "acme/widge").
Proof. repeat split; vm_compute; reflexivity. Qed.

End UrlFacts.

(** ** The repository parser on well-formed remotes

    For any non-empty owner and repository name without a slash, the
    parser finds the host, captures [owner/repo] and then strips the
    character set of [.git] from the right of the capture. *)

Module UrlGeneral.
Import PyFacts ReFacts Spec.

Lemma run_lit (s : pystr) :
  forall m, run (lit s) m =
            if startswith (rest m) s
            then [MState (pos m + List.length s) (skipn (List.length s) (rest m)) (caps m)]
            else [].
Proof.
  induction s as [|c s IH]; intros [p r cs]; cbn [lit run rest pos caps startswith].
  - cbn [List.length skipn]. rewrite Nat.add_0_r. destruct r; reflexivity.
  - destruct r as [|d r]; [reflexivity|]. cbn [startswith List.length skipn].
    unfold eqc at 1. destruct (Ascii.eqb c d) eqn:E.
    + cbn [flat_map andb]. rewrite IH, app_nil_r. cbn [rest pos caps].
      unfold eqc. rewrite E. cbn [andb].
      destruct (startswith r s); [|reflexivity].
      now rewrite Nat.add_succ_r.
    + unfold eqc. rewrite E. reflexivity.
Qed.

Lemma run_cat (a b : regex) (m : mstate) :
  run (Cat a b) m = flat_map (run b) (run a m).
Proof. reflexivity. Qed.

Lemma run_opt (a : regex) (m : mstate) : run (Opt a) m = run a m ++ [m].
Proof. reflexivity. Qed.

Lemma run_grp (i : nat) (a : regex) (m : mstate) :
  run (Grp i a) m
  = map (fun m' => MState (pos m') (rest m') ((i, (pos m, pos m')) :: caps m'))
        (run a m).
Proof. reflexivity. Qed.

Lemma run_chr (p : ascii -> bool) (n : nat) (c : ascii) (s : pystr)
    (cs : list (nat * (nat * nat))) :
  run (Chr p) (MState n (c :: s) cs) = if p c then [MState (S n) s cs] else [].
Proof. reflexivity. Qed.

Lemma run_rep_greedy (lo : nat) (p : ascii -> bool) (m : mstate) :
  run (Rep true lo p) m = rep_greedy p lo (caps m) (pos m) (rest m).
Proof. reflexivity. Qed.

Lemma run_rep_lazy (lo : nat) (p : ascii -> bool) (m : mstate) :
  run (Rep false lo p) m = rep_lazy p lo (caps m) (pos m) (rest m).
Proof. reflexivity. Qed.

Lemma eol_fails (m : mstate) (y : pystr) (a : ascii) :
  rest m = y ++ [a] -> eqc a "010"%char = false -> run Eol m = [].
Proof.
  intros Hr Ha. cbn [run]. rewrite Hr.
  destruct y as [|b [|c y]]; cbn [app]; [now rewrite Ha | reflexivity | reflexivity].
Qed.

(** After a repository name that goes on, neither [.git$] nor [$] matches. *)
Lemma suffix_fails (m : mstate) (l : pystr) :
  l <> [] -> rest m = l ++ py ".git" ->
  run (Cat (Opt (Grp 2 (lit (py ".git")))) Eol) m = [].
Proof.
  intros Hl Hr. rewrite run_cat, run_opt, run_grp, flat_map_app, run_lit.
  assert (He : run Eol m = []).
  { apply eol_fails with (y := l ++ py ".gi") (a := "t"%char); [|reflexivity].
    rewrite Hr, <- app_assoc. reflexivity. }
  cbn [flat_map]. rewrite He, !app_nil_r.
  destruct (startswith (rest m) (py ".git")); [|reflexivity].
  cbn [map flat_map]. rewrite app_nil_r.
  apply eol_fails with (y := skipn 4 (l ++ py ".gi")) (a := "t"%char); [|reflexivity].
  cbn [rest]. rewrite Hr.
  change (py ".git") with (py ".gi" ++ ["t"%char]). rewrite app_assoc.
  change (List.length (py ".gi" ++ ["t"%char])) with 4.
  rewrite skipn_app.
  replace (4 - List.length (l ++ py ".gi")) with 0; [reflexivity|].
  rewrite length_app. cbn [List.length py list_ascii_of_string].
  destruct l; [congruence | cbn [List.length]; lia].
Qed.

(** The lazy repetition stops at the first place where [.git$] matches. *)
Lemma lazy_first (repo : pystr) :
  Forall (fun c => notslash c = true) repo ->
  forall pos caps p0,
  exists e sp2,
    hd_error (flat_map (run (Cat (Opt (Grp 2 (lit (py ".git")))) Eol))
                (map (close_group_1 p0)
                     (rep_lazy notslash 0 caps pos (repo ++ py ".git"))))
    = Some (MState e [] ((2, sp2) :: (1, (p0, pos + List.length repo)) :: caps)).
Proof.
  induction 1 as [|c r Hc _ IH]; intros pos caps p0.
  - do 2 eexists. cbn. rewrite Nat.add_0_r. reflexivity.
  - change ((c :: r) ++ py ".git") with (c :: (r ++ py ".git")).
    cbn [rep_lazy Nat.eqb app map flat_map]. rewrite Hc.
    rewrite (suffix_fails (close_group_1 p0 (MState pos (c :: r ++ py ".git") caps))
                          (l := c :: r)); [|discriminate|reflexivity].
    cbn [app Nat.pred]. destruct (IH (S pos) caps p0) as (e & sp2 & IHe).
    exists e, sp2. rewrite IHe. cbn [List.length]. now rewrite Nat.add_succ_r.
Qed.

Lemma startswith_app (p s : pystr) : startswith (p ++ s) p = true.
Proof.
  induction p as [|c p IH]; [destruct s; reflexivity|].
  cbn [app startswith]. unfold eqc. now rewrite Ascii.eqb_refl, IH.
Qed.

Lemma skipn_length_app {A} (p s : list A) : skipn (List.length p) (p ++ s) = s.
Proof. induction p as [|c p IH]; [reflexivity | exact IH]. Qed.

Lemma slash_rejected (m : mstate) (c : ascii) (s' : pystr) :
  rest m = c :: s' -> notslash c = true ->
  run (Cat (Chr (eqc slash)) (Rep false 1 notslash)) m = [].
Proof.
  intros Hr Hc. rewrite run_cat. cbn [run]. rewrite Hr.
  unfold notslash in Hc. apply negb_true_iff in Hc.
  assert (E : eqc slash c = false)
    by (unfold eqc in *; rewrite Ascii.eqb_sym; exact Hc).
  rewrite E. reflexivity.
Qed.

(** The pattern at the place where [github.com] starts. *)
Lemma attempt_at_host (sep : ascii) (start : nat) (owner repo : pystr) :
  eqc sep slash || eqc sep ":"%char = true ->
  owner <> [] -> Forall (fun c => notslash c = true) owner ->
  repo <> [] -> Forall (fun c => notslash c = true) repo ->
  exists e sp2,
    attempt https_re start
            (py "github.com" ++ sep :: owner ++ slash :: repo ++ py ".git") false
    = Some (MState e []
              [(2, sp2);
               (1, (start + 11, start + 11 + List.length owner + 1 + List.length repo))]).
Proof.
  intros Hsep Ho Hos Hr Hrs.
  rewrite attempt_free. unfold https_re.
  rewrite run_cat, run_lit. cbn [rest pos caps].
  rewrite startswith_app, skipn_length_app. cbn [flat_map]. rewrite app_nil_r.
  rewrite run_cat. cbn [app]. rewrite run_chr, Hsep.
  cbn [flat_map]. rewrite app_nil_r.
  rewrite run_cat, run_grp. unfold owner_repo_re. rewrite run_cat, run_rep_greedy.
  cbn [rest pos caps]. rewrite flat_map_rep_greedy.
  2:{ intros m c s' Hm Hc. exact (slash_rejected m Hm Hc). }
  rewrite (take_by_app _ _ Hos), (lstrip_by_app _ _ Hos).
  cbn [take_by lstrip_by]. change (notslash slash) with false. cbv iota.
  rewrite app_nil_r.
  destruct owner as [|o owner']; [congruence|]. cbn [List.length Nat.leb].
  rewrite run_cat, run_chr.
  change (eqc slash slash) with true. cbv iota. cbn [flat_map]. rewrite app_nil_r.
  rewrite run_rep_lazy. cbn [rest pos caps].
  destruct Hrs as [|c r Hc Hrs']; [congruence|].
  change ((c :: r) ++ py ".git") with (c :: (r ++ py ".git")).
  cbn [rep_lazy Nat.eqb app Nat.pred]. rewrite Hc.
  match goal with
  | |- context [map ?f (rep_lazy notslash 0 ?cs ?p ?s)] =>
      change f with (close_group_1 (S (start + List.length (py "github.com"))))
  end.
  match goal with
  | |- context [rep_lazy notslash 0 [] ?p (r ++ _)] =>
      destruct (lazy_first Hrs' p [] (S (start + List.length (py "github.com"))))
        as (e & sp2 & Hl)
  end.
  exists e, sp2. rewrite Hl. f_equal. f_equal. f_equal. f_equal. f_equal.
  cbn [List.length py list_ascii_of_string]. f_equal; lia.
Qed.

Lemma attempt_no_host (s : pystr) (start : nat) :
  startswith s (py "github.com") = false -> attempt https_re start s false = None.
Proof.
  intros Hs. rewrite attempt_free. unfold https_re.
  rewrite run_cat, run_lit. cbn [rest]. rewrite Hs. reflexivity.
Qed.

Lemma slice_mid (a b c : pystr) :
  slice (List.length a) (List.length a + List.length b) (a ++ b ++ c) = b.
Proof.
  unfold slice. rewrite skipn_length_app.
  replace (List.length a + List.length b - List.length a) with (List.length b) by lia.
  rewrite firstn_app, firstn_all, Nat.sub_diag. cbn [firstn]. apply app_nil_r.
Qed.

Lemma slice_mid_at (a b c : pystr) (i j : nat) :
  i = List.length a -> j = List.length a + List.length b ->
  slice i j (a ++ b ++ c) = b.
Proof. intros -> ->. apply slice_mid. Qed.

Lemma rstrip_by_keep (p : ascii -> bool) (l : pystr) (c : ascii) :
  p c = false -> rstrip_by p (l ++ [c]) = l ++ [c].
Proof.
  intros Hc. unfold rstrip_by. rewrite rev_app_distr. cbn [rev app lstrip_by].
  rewrite Hc. change (c :: rev l) with (rev [c] ++ rev l).
  now rewrite <- rev_app_distr, rev_involutive.
Qed.

Ltac skip_position :=
  rewrite search_from_eq, attempt_no_host by reflexivity.

(** On [https://github.com/owner/repo.git] the parser returns [owner/repo]
    with every trailing [.], [g], [i] and [t] removed. *)
Lemma parse_https_git (owner repo : pystr) :
  owner <> [] -> Forall (fun c => notslash c = true) owner ->
  repo <> [] -> Forall (fun c => notslash c = true) repo ->
  _parse_github_url (py "https://github.com/" ++ owner ++ slash :: repo ++ py ".git")
  = Some (rstrip (py ".git") (owner ++ slash :: repo)).
Proof.
  intros Ho Hos Hr Hrs. unfold _parse_github_url, re_search.
  set (url := py "https://github.com/" ++ owner ++ slash :: repo ++ py ".git").
  assert (Hurl : url = py "https://github.com/" ++ (owner ++ slash :: repo) ++ py ".git").
  { unfold url. now rewrite <- app_assoc. }
  unfold url at 1. cbn [py list_ascii_of_string app].
  do 8 skip_position.
  rewrite search_from_eq.
  destruct (attempt_at_host "/"%char 8 eq_refl Ho Hos Hr Hrs) as (e & sp2 & Ha).
  cbn [py list_ascii_of_string app] in Ha. rewrite Ha.
  unfold group. cbn [m_end caps span_of Nat.eqb option_map fst snd].
  f_equal. f_equal. rewrite Hurl.
  apply slice_mid_at; [reflexivity|].
  rewrite length_app. cbn [List.length py list_ascii_of_string]. lia.
Qed.

(** The same on [git@github.com:owner/repo.git]. *)
Lemma parse_ssh_git (owner repo : pystr) :
  owner <> [] -> Forall (fun c => notslash c = true) owner ->
  repo <> [] -> Forall (fun c => notslash c = true) repo ->
  _parse_github_url (py "git@github.com:" ++ owner ++ slash :: repo ++ py ".git")
  = Some (rstrip (py ".git") (owner ++ slash :: repo)).
Proof.
  intros Ho Hos Hr Hrs. unfold _parse_github_url, re_search.
  set (url := py "git@github.com:" ++ owner ++ slash :: repo ++ py ".git").
  assert (Hurl : url = py "git@github.com:" ++ (owner ++ slash :: repo) ++ py ".git").
  { unfold url. now rewrite <- app_assoc. }
  unfold url at 1. cbn [py list_ascii_of_string app].
  do 4 skip_position.
  rewrite search_from_eq.
  destruct (attempt_at_host ":"%char 4 eq_refl Ho Hos Hr Hrs) as (e & sp2 & Ha).
  cbn [py list_ascii_of_string app] in Ha. rewrite Ha.
  unfold group. cbn [m_end caps span_of Nat.eqb option_map fst snd].
  f_equal. f_equal. rewrite Hurl.
  apply slice_mid_at; [reflexivity|].
  rewrite length_app. cbn [List.length py list_ascii_of_string]. lia.
Qed.

(** The parser returns exactly [owner/repo] when the repository name
    ends with a character other than [.], [g], [i] and [t]. *)
Lemma parse_git_exact (owner repo : pystr) (c : ascii) :
  owner <> [] -> Forall (fun c => notslash c = true) owner ->
  Forall (fun c => notslash c = true) (repo ++ [c]) ->
  mem c (py ".git") = false ->
  _parse_github_url (py "https://github.com/" ++ owner ++ slash :: (repo ++ [c]) ++ py ".git")
  = Some (owner ++ slash :: repo ++ [c]) /\
  _parse_github_url (py "git@github.com:" ++ owner ++ slash :: (repo ++ [c]) ++ py ".git")
  = Some (owner ++ slash :: repo ++ [c]).
Proof.
  intros Ho Hos Hrs Hc.
  assert (Hr : repo ++ [c] <> []) by (destruct repo; discriminate).
  assert (Hk : rstrip (py ".git") (owner ++ slash :: repo ++ [c])
               = owner ++ slash :: repo ++ [c]).
  { unfold rstrip. change (owner ++ slash :: repo ++ [c])
      with (owner ++ (slash :: repo) ++ [c]).
    rewrite app_assoc. now apply rstrip_by_keep. }
  rewrite (parse_https_git Ho Hos Hr Hrs), (parse_ssh_git Ho Hos Hr Hrs), Hk.
  split; reflexivity.
Qed.

End UrlGeneral.

(** ** The synchroniser *)

Module SyncFacts.

Import SyncTasks SyncSpec.

Lemma Interleave_length {A : Type} (l r m : list A) :
  Interleave l r m -> List.length l + List.length r = List.length m.
Proof. induction 1; simpl; lia. Qed.

Lemma Interleave_Permutation {A : Type} (l r m : list A) :
  Interleave l r m -> Permutation (l ++ r) m.
Proof.
  induction 1 as [|x l r m _ IH|x l r m _ IH]; simpl.
  - constructor.
  - now constructor.
  - apply Permutation_sym, Permutation_cons_app, Permutation_sym. exact IH.
Qed.

Lemma Processed_Interleave repo pn owner ts sy fa cs :
  Processed repo pn owner ts sy fa cs ->
  Interleave (map s_task sy) (map f_task fa) ts.
Proof. induction 1; simpl; constructor; assumption. Qed.

Lemma is_issue_create_create repo title body labels :
  is_issue_create (cmd_issue_create repo title body labels) = true.
Proof. reflexivity. Qed.

Lemma is_issue_create_item_add pn url owner :
  is_issue_create (cmd_item_add pn url owner) = false.
Proof. reflexivity. Qed.

(** The command of [create_issue] is a [gh issue create]. *)
Lemma issue_cmd_shape repo title body labels cmd :
  issue_cmd repo title body labels = Some cmd ->
  exists t b l, cmd = cmd_issue_create repo t b l.
Proof.
  unfold issue_cmd.
  destruct (as_str title) as [t|]; [|discriminate].
  destruct (body_arg body) as [b|]; [|discriminate].
  destruct (label_arg labels) as [l|]; [|discriminate].
  intros [= <-]. now exists t, (Some b), l.
Qed.

Lemma creatable_create repo t :
  creatable repo t -> is_issue_create (create_cmd_of repo t) = true.
Proof.
  intros Hc. destruct (issue_cmd_shape _ _ _ _ Hc) as (ti & b & l & ->).
  reflexivity.
Qed.


(** In a batch the failures for a missing title are the untitled tasks, in
    order, and an issue is created for every other task, in order. *)
Lemma Processed_titles repo pn owner ts sy fa cs :
  Processed repo pn owner ts sy fa cs ->
  filter is_no_title fa = map (fun t => Failed t err_no_title None) (filter untitled ts)
  /\ filter is_issue_create cs
     = map (create_cmd_of repo) (filter (fun t => negb (untitled t)) ts).
Proof.
  assert (Hneg : forall t, untitled t = false -> negb (untitled t) = true)
    by (intros t ->; reflexivity).
  assert (Hpos : forall t, untitled t = true -> negb (untitled t) = false)
    by (intros t ->; reflexivity).
  induction 1 as [|t ts sy fa cs Hd Hu _ [IH1 IH2]|t ts sy fa cs Hu Hc _ [IH1 IH2]
                 |t url ts sy fa cs Hu Hc Hn _ [IH1 IH2]
                 |t url ts sy fa cs Hu Hc Hn _ [IH1 IH2]];
    cbn [filter map]; rewrite ?Hu, ?(Hneg _ Hu), ?(Hpos _ Hu); cbn [map].
  - split; reflexivity.
  - change (is_no_title (Failed t err_no_title None)) with true. cbv iota.
    split; [now rewrite IH1 | assumption].
  - change (is_no_title (Failed t err_create None)) with false. cbv iota.
    rewrite (creatable_create Hc).
    split; [assumption | now rewrite IH2].
  - change (is_no_title (Failed t err_link (Some url))) with false.
    rewrite (creatable_create Hc).
    change (is_issue_create (cmd_item_add pn url owner)) with false. cbv iota.
    split; [assumption | now rewrite IH2].
  - rewrite (creatable_create Hc).
    change (is_issue_create (cmd_item_add pn url owner)) with false. cbv iota.
    split; [assumption | now rewrite IH2].
Qed.

Section Facts.

Context {H : Host}.

Lemma run_cmd_calls (cmd : list pystr) (s : state) :
  calls (snd (run_cmd cmd s)) = calls s ++ [cmd].
Proof.
  unfold run_cmd. destruct (subprocess_run cmd (ext s)) as [[c|] w]; reflexivity.
Qed.

(** A call of [create_issue] that returns has launched its command, built
    from values of the right types. *)
Lemma create_issue_typed repo title body labels (s s1 : state) (o : option pystr) :
  create_issue repo title body labels s = (Ret o, s1) ->
  exists cmd,
    issue_cmd repo title body labels = Some cmd /\ calls s1 = calls s ++ [cmd].
Proof.
  unfold create_issue.
  destruct (issue_cmd repo title body labels) as [cmd|]; [|discriminate].
  intros Hrun. exists cmd. split; [reflexivity|].
  unfold bind in Hrun. pose proof (run_cmd_calls cmd s) as Hc.
  destruct (run_cmd cmd s) as [[c|e] s2]; [|discriminate]. simpl in Hc.
  destruct (returncode c =? 0)%Z; injection Hrun as _ <-; exact Hc.
Qed.

Lemma add_issue_to_project_calls pn url owner (s : state) :
  calls (snd (add_issue_to_project pn url owner s))
  = calls s ++ [cmd_item_add pn url owner].
Proof.
  unfold add_issue_to_project, bind.
  pose proof (run_cmd_calls (cmd_item_add pn url owner) s) as Hc.
  destruct (run_cmd _ s) as [[c|e] s1]; simpl in *; assumption.
Qed.

Lemma truthy_str_some (o : option pystr) :
  truthy_str o = true -> exists url, o = Some url /\ url <> [] /\ or_empty o = url.
Proof.
  destruct o as [[|c u]|]; try discriminate.
  intros _. exists (c :: u). repeat split. discriminate.
Qed.

(** A run of the loop that returns has processed every task by the state
    machine. *)
Lemma sync_loop_processed repo pn owner (tasks : list task) :
  forall synced failed s sy fa s',
    sync_loop repo pn owner tasks synced failed s = (Ret (sy, fa), s') ->
    exists sy' fa' cs,
      sy = synced ++ sy' /\ fa = failed ++ fa' /\ calls s' = calls s ++ cs /\
      Processed repo pn owner tasks sy' fa' cs.
Proof.
  induction tasks as [|t ts IH]; intros synced failed s sy fa s' Hrun.
  - simpl in Hrun. injection Hrun as <- <- <-.
    exists [], [], []. rewrite !app_nil_r. repeat split. constructor.
  - cbn [sync_loop] in Hrun.
    destruct (is_dict t) eqn:Hd; cbn [negb] in Hrun; [|discriminate].
    destruct (truthy (title t)) eqn:Ht; cbn [negb] in Hrun.
    + assert (Hu : untitled t = false) by (unfold untitled; now rewrite Ht).
      unfold bind in Hrun at 1.
      destruct (create_issue _ _ _ _ s) as [[o|e] s1] eqn:Hci; [|discriminate].
      destruct (create_issue_typed _ _ _ _ _ Hci) as (cmd & Hcmd & Hc).
      assert (Hcc : create_cmd_of repo t = cmd)
        by (unfold create_cmd_of; now rewrite Hcmd).
      assert (Hcr : creatable repo t) by (unfold creatable; now rewrite Hcc).
      destruct (truthy_str o) eqn:Ho; cbn [negb] in Hrun.
      * destruct (truthy_str_some _ Ho) as (url & -> & Hurl & Hor).
        simpl or_empty in Hrun.
        unfold bind in Hrun at 1.
        pose proof (add_issue_to_project_calls pn url owner s1) as Ha.
        destruct (add_issue_to_project _ _ _ s1) as [[[|]|e] s2]; [| |discriminate];
          simpl in Ha; destruct (IH _ _ _ _ _ _ Hrun) as (sy' & fa' & cs & -> & -> & Hcs & HP).
        -- exists (Synced t url :: sy'), fa',
             (create_cmd_of repo t :: cmd_item_add pn url owner :: cs).
           rewrite <- !app_assoc. repeat split.
           ++ rewrite Hcs, Ha, Hc, Hcc, <- !app_assoc. reflexivity.
           ++ apply Processed_linked; auto.
        -- exists sy', (Failed t err_link (Some url) :: fa'),
             (create_cmd_of repo t :: cmd_item_add pn url owner :: cs).
           rewrite <- !app_assoc. repeat split.
           ++ rewrite Hcs, Ha, Hc, Hcc, <- !app_assoc. reflexivity.
           ++ apply Processed_link_failed; auto.
      * destruct (IH _ _ _ _ _ _ Hrun) as (sy' & fa' & cs & -> & -> & Hcs & HP).
        exists sy', (Failed t err_create None :: fa'), (create_cmd_of repo t :: cs).
        rewrite <- !app_assoc. repeat split.
        -- rewrite Hcs, Hc, Hcc, <- !app_assoc. reflexivity.
        -- apply Processed_create_failed; auto.
    + destruct (IH _ _ _ _ _ _ Hrun) as (sy' & fa' & cs & -> & -> & Hcs & HP).
      exists sy', (Failed t err_no_title None :: fa'), cs.
      rewrite <- !app_assoc. repeat split; [assumption|].
      apply Processed_untitled; auto. unfold untitled. now rewrite Ht.
Qed.

End Facts.

Section Tame.

Context {H : Host}.

Variable Q : list pystr -> Prop.

Lemma tame_ret {A} (a : A) : tame Q (ret a).
Proof.
  intros s. split; [exists []; simpl; rewrite app_nil_r; auto | discriminate].
Qed.

Lemma tame_raise {A} (e : exn) : uncaught e -> tame Q (raise (A := A) e).
Proof.
  intros He s. split; [exists []; simpl; rewrite app_nil_r; auto|].
  intros e0 H0. now injection H0 as <-.
Qed.

Lemma tame_run_cmd (cmd : list pystr) : Q cmd -> tame Q (run_cmd cmd).
Proof.
  intros Hq s. split.
  - exists [cmd]. split; [apply run_cmd_calls | auto].
  - unfold run_cmd. destruct (subprocess_run cmd (ext s)) as [[c|] w]; simpl;
      intros e He; [discriminate | injection He as <-; exact I].
Qed.

Lemma tame_bind {A B} (m : M A) (k : A -> M B) :
  tame Q m -> (forall a, tame Q (k a)) -> tame Q (bind m k).
Proof.
  intros Hm Hk s. destruct (Hm s) as [(cs & Hcs & Hq) Hr]. unfold bind.
  destruct (m s) as [[a|e] s1]; simpl in *.
  - destruct (Hk a s1) as [(cs' & Hcs' & Hq') Hr']. split; [|exact Hr'].
    exists (cs ++ cs'). split; [|now apply Forall_app].
    now rewrite Hcs', Hcs, app_assoc.
  - split; [exists cs; auto|].
    intros e0 He0. injection He0 as <-. now apply Hr.
Qed.

Lemma tame_try_except {A} (m : M A) (h : exn -> option (M A)) :
  tame Q m -> (forall e k, h e = Some k -> tame Q k) -> tame Q (try_except m h).
Proof.
  intros Hm Hh s. destruct (Hm s) as [(cs & Hcs & Hq) Hr]. unfold try_except.
  destruct (m s) as [[a|e] s1]; simpl in *.
  - split; [exists cs; auto | discriminate].
  - destruct (h e) as [k|] eqn:He.
    + destruct (Hh e k He s1) as [(cs' & Hcs' & Hq') Hr']. split; [|exact Hr'].
      exists (cs ++ cs'). split; [|now apply Forall_app].
      now rewrite Hcs', Hcs, app_assoc.
    + split; [exists cs; auto | exact Hr].
Qed.

Lemma tame_if {A} (b : bool) (m1 m2 : M A) :
  tame Q m1 -> tame Q m2 -> tame Q (if b then m1 else m2).
Proof. destruct b; auto. Qed.

Lemma tame_except_ret {A} (a : A) (e : exn) (k : M A) :
  except_FileNotFoundError (ret a) e = Some k -> tame Q k.
Proof.
  destruct e; simpl; try discriminate. intros Hk; injection Hk as <-. apply tame_ret.
Qed.

Lemma tame_except_all_ret {A} (a : A) (e : exn) (k : M A) :
  except_Exception (ret a) e = Some k -> tame Q k.
Proof.
  destruct e; simpl; try discriminate; intros Hk; injection Hk as <-; apply tame_ret.
Qed.

Hypothesis Q_auth : Q cmd_auth_status.
Hypothesis Q_git : forall remote, Q (cmd_get_url remote).
Hypothesis Q_remote : Q cmd_remote.
Hypothesis Q_list : forall repo, Q (cmd_project_list repo).

Lemma tame_check_gh_cli : tame Q check_gh_cli.
Proof.
  unfold check_gh_cli. apply tame_try_except.
  - apply tame_bind; [now apply tame_run_cmd | intros c; apply tame_ret].
  - intros e k. apply tame_except_ret.
Qed.

Lemma tame_get_origin_remote : tame Q get_origin_remote.
Proof.
  unfold get_origin_remote. apply tame_try_except.
  - apply tame_bind; [now apply tame_run_cmd|]. intros c.
    apply tame_if; [apply tame_ret|].
    apply tame_bind; [now apply tame_run_cmd|]. intros c2.
    apply tame_if; [|apply tame_ret].
    apply tame_bind; [now apply tame_run_cmd|]. intros c3.
    apply tame_if; apply tame_ret.
  - intros e k. apply tame_except_all_ret.
Qed.

Lemma tame_get_first_project (repo : pystr) : tame Q (get_first_project repo).
Proof.
  unfold get_first_project, list_projects.
  apply tame_bind.
  - apply tame_bind; [now apply tame_run_cmd|]. intros c.
    apply tame_if; [|apply tame_ret].
    destruct (json_loads_projects (stdout c)) as [[[ps|]|ps]|]; apply tame_ret.
  - intros [|p ps]; apply tame_ret.
Qed.

Lemma tame_resolve_repo (self : GitHubProjectSync) : tame Q (resolve_repo self).
Proof.
  unfold resolve_repo. apply tame_if; [apply tame_get_origin_remote | apply tame_ret].
Qed.

Lemma tame_resolve_project (self : GitHubProjectSync) (repo : pystr) :
  tame Q (resolve_project self repo).
Proof.
  unfold resolve_project.
  apply tame_if; [apply tame_get_first_project | apply tame_ret].
Qed.

Hypothesis Q_create : forall repo title body labels,
    Q (cmd_issue_create repo title body labels).
Hypothesis Q_add : forall pn url owner, Q (cmd_item_add pn url owner).

Lemma tame_create_issue repo title body labels :
  tame Q (create_issue repo title body labels).
Proof.
  unfold create_issue.
  destruct (issue_cmd repo title body labels) as [cmd|] eqn:Hc;
    [|now apply tame_raise].
  destruct (issue_cmd_shape _ _ _ _ Hc) as (t & b & l & ->).
  apply tame_bind; [now apply tame_run_cmd|].
  intros c. apply tame_if; apply tame_ret.
Qed.

Lemma tame_sync_loop repo pn owner (tasks : list task) :
  forall synced failed, tame Q (sync_loop repo pn owner tasks synced failed).
Proof.
  induction tasks as [|t ts IH]; intros synced failed; cbn [sync_loop].
  - apply tame_ret.
  - apply tame_if; [now apply tame_raise|].
    apply tame_if; [apply IH|].
    apply tame_bind; [apply tame_create_issue|].
    intros o. apply tame_if; [apply IH|].
    apply tame_bind.
    + unfold add_issue_to_project.
      apply tame_bind; [now apply tame_run_cmd | intros c; apply tame_ret].
    + intros [|]; apply IH.
Qed.

Lemma tame_sync_tasks (self : GitHubProjectSync) (tasks : list task) :
  tame Q (sync_tasks self tasks).
Proof.
  unfold sync_tasks.
  apply tame_bind; [apply tame_check_gh_cli|]. intros ok.
  apply tame_if; [apply tame_ret|].
  apply tame_bind; [apply tame_resolve_repo|]. intros r.
  apply tame_if; [apply tame_ret|].
  apply tame_bind; [apply tame_resolve_project|]. intros p.
  apply tame_if; [apply tame_ret|].
  apply tame_bind; [apply tame_sync_loop | intros l; apply tame_ret].
Qed.

End Tame.

Section Claims.

Context {H : Host}.

Lemma filter_not_create (cs : list (list pystr)) :
  Forall not_create cs -> filter is_issue_create cs = [].
Proof.
  induction 1 as [|c cs Hc _ IH]; simpl; [reflexivity|]. now rewrite Hc.
Qed.

(** A successful [sync_tasks] is the loop run after the top-level steps,
    which create no issue. *)
Lemma sync_tasks_done self tasks s r p sy fa s' :
  sync_tasks self tasks s = (Ret (SyncDone r p sy fa), s') ->
  exists s1 pre,
    calls s1 = calls s ++ pre /\ Forall not_create pre /\
    sync_loop r p (owner_of r) tasks [] [] s1 = (Ret (sy, fa), s').
Proof.
  unfold sync_tasks, bind. intros Hrun.
  assert (Ta : not_create cmd_auth_status) by reflexivity.
  assert (Tg : forall x, not_create (cmd_get_url x)) by reflexivity.
  assert (Tr : not_create cmd_remote) by reflexivity.
  assert (Tl : forall x, not_create (cmd_project_list x)) by reflexivity.
  destruct (tame_check_gh_cli not_create Ta s) as [(cs1 & Hc1 & Hq1) _].
  destruct (check_gh_cli s) as [[[|]|e] s1]; simpl in *; try discriminate.
  destruct (tame_resolve_repo not_create Tg Tr self s1) as [(cs2 & Hc2 & Hq2) _].
  destruct (resolve_repo self s1) as [[o|e] s2]; simpl in *; try discriminate.
  destruct (truthy_str o); simpl in *; try discriminate.
  destruct (tame_resolve_project not_create Tl self (or_empty o) s2) as [(cs3 & Hc3 & Hq3) _].
  destruct (resolve_project self (or_empty o) s2) as [[n|e] s3]; simpl in *;
    try discriminate.
  destruct (truthy_int n); simpl in *; try discriminate.
  destruct (sync_loop _ _ _ tasks [] [] s3) as [[[sy' fa']|e] s4] eqn:Hl;
    try discriminate.
  simpl in Hrun. injection Hrun as <- <- <- <- <-.
  exists s3, (cs1 ++ cs2 ++ cs3). repeat split.
  - now rewrite Hc3, Hc2, Hc1, <- !app_assoc.
  - apply Forall_app. split; [assumption|].
    apply Forall_app. split; assumption.
  - exact Hl.
Qed.

(** C10. When the top-level steps succeed, the result partitions the
    input: the tasks of the synced and of the failed list, interleaved,
    are the input tasks, so every input task is in exactly one list, the
    two lengths add up to the number of input tasks, and each list keeps
    the input order. *)
Theorem sync_result_partitions (self : GitHubProjectSync) (tasks : list task)
    (s s' : state) (r : pystr) (p : Z) (synced : list synced_entry)
    (failed : list failed_entry) :
  sync_tasks self tasks s = (Ret (SyncDone r p synced failed), s') ->
  Interleave (map s_task synced) (map f_task failed) tasks /\
  List.length synced + List.length failed = List.length tasks /\
  Permutation (map s_task synced ++ map f_task failed) tasks.
Proof.
  intros Hrun. destruct (sync_tasks_done _ _ _ Hrun) as (s1 & pre & _ & _ & Hl).
  destruct (sync_loop_processed _ _ _ _ _ _ _ Hl) as (sy' & fa' & cs & Hs & Hf & _ & HP).
  simpl in Hs, Hf. subst sy' fa'.
  pose proof (Processed_Interleave HP) as Hi.
  split; [exact Hi|]. split.
  - apply Interleave_length in Hi. now rewrite !length_map in Hi.
  - now apply Interleave_Permutation.
Qed.


Lemma Processed_pair repo pn owner (e v : task) sy fa cs :
  untitled e = true -> untitled v = false ->
  Processed repo pn owner [e; v] sy fa cs ->
  (exists url, sy = [Synced v url] /\ fa = [Failed e err_no_title None]) \/
  (exists f, sy = [] /\ fa = [Failed e err_no_title None; f] /\ f_task f = v /\
             (f_error f = err_create \/ f_error f = err_link)).
Proof.
  intros He Hv HP.
  inversion HP as [|? ? ? ? ? _ _ HP1|? ? ? ? ? Hu|? ? ? ? ? ? Hu|? ? ? ? ? ? Hu];
    subst; try congruence.
  inversion HP1 as [|? ? ? ? ? _ Hu|? ? ? ? ? _ _ HP2|? ? ? ? ? ? _ _ _ HP2
                   |? ? ? ? ? ? _ _ _ HP2];
    subst; try congruence; inversion HP2; subst.
  - right. eexists. repeat split. now left.
  - right. eexists. repeat split. now right.
  - left. eexists. split; reflexivity.
Qed.

(** C4, amended. A task without a title is recorded as failed with the
    reason [No title provided] and the loop goes on with the remaining
    tasks; in a batch that returns, the failures with that reason are the
    untitled tasks, in order, and an issue creation is launched for every
    other task, in order; so for one untitled and one valid task there is
    exactly one failure for the missing title and the creation of the
    valid task's issue is launched; the valid task is synced and nothing
    else has failed, or it has failed too, at the creation or at the
    linking, and the failed list holds the two. *)
Theorem untitled_tasks_recorded (repo : pystr) (pn : Z) (owner : pystr) :
  (forall t ts synced failed s,
      is_dict t = true -> untitled t = true ->
      sync_loop repo pn owner (t :: ts) synced failed s
      = sync_loop repo pn owner ts synced (failed ++ [Failed t err_no_title None]) s)
  /\
  (forall self tasks s r p sy fa s',
      sync_tasks self tasks s = (Ret (SyncDone r p sy fa), s') ->
      filter is_no_title fa
      = map (fun t => Failed t err_no_title None) (filter untitled tasks)
      /\ exists cs,
          calls s' = calls s ++ cs /\
          filter is_issue_create cs
          = map (create_cmd_of r) (filter (fun t => negb (untitled t)) tasks))
  /\
  (forall self e v s r p sy fa s',
      untitled e = true -> untitled v = false ->
      sync_tasks self [e; v] s = (Ret (SyncDone r p sy fa), s') ->
      filter is_no_title fa = [Failed e err_no_title None]
      /\ (exists cs,
             calls s' = calls s ++ cs /\
             filter is_issue_create cs = [create_cmd_of r v])
      /\ ((exists url, sy = [Synced v url] /\ fa = [Failed e err_no_title None]) \/
          (exists f, sy = [] /\ fa = [Failed e err_no_title None; f] /\ f_task f = v /\
                     (f_error f = err_create \/ f_error f = err_link)))).
Proof.
  assert (Hrun : forall self tasks s r p sy fa s',
      sync_tasks self tasks s = (Ret (SyncDone r p sy fa), s') ->
      exists pre cs,
        calls s' = calls s ++ pre ++ cs /\ Forall not_create pre /\
        Processed r p (owner_of r) tasks sy fa cs).
  { intros self tasks s r p sy fa s' Hrun.
    destruct (sync_tasks_done _ _ _ Hrun) as (s1 & pre & Hpre & Hq & Hl).
    destruct (sync_loop_processed _ _ _ _ _ _ _ Hl)
      as (sy' & fa' & cs & Hs & Hf & Hcs & HP).
    simpl in Hs, Hf. subst sy' fa'. exists pre, cs.
    split; [now rewrite Hcs, Hpre, app_assoc|]. split; assumption. }
  assert (Hall : forall self tasks s r p sy fa s',
      sync_tasks self tasks s = (Ret (SyncDone r p sy fa), s') ->
      filter is_no_title fa
      = map (fun t => Failed t err_no_title None) (filter untitled tasks)
      /\ exists cs,
          calls s' = calls s ++ cs /\
          filter is_issue_create cs
          = map (create_cmd_of r) (filter (fun t => negb (untitled t)) tasks)).
  { intros self tasks s r p sy fa s' Hr.
    destruct (Hrun _ _ _ _ _ _ _ _ Hr) as (pre & cs & Hcs & Hq & HP).
    destruct (Processed_titles HP) as [H1 H2]. split; [exact H1|].
    exists (pre ++ cs). split; [exact Hcs|].
    now rewrite filter_app, (filter_not_create Hq), H2. }
  split; [|split].
  - intros t ts synced failed s Hd Ht. cbn [sync_loop]. rewrite Hd. cbn [negb].
    unfold untitled in Ht. now rewrite Ht.
  - exact Hall.
  - intros self e v s r p sy fa s' He Hv Hr.
    destruct (Hall _ _ _ _ _ _ _ _ Hr) as [H1 (cs & Hcs & H2)].
    cbn [filter map] in H1, H2. rewrite He, Hv in *. cbn [negb map] in *.
    split; [exact H1|]. split; [exists cs; split; assumption|].
    destruct (Hrun _ _ _ _ _ _ _ _ Hr) as (pre & cs' & _ & _ & HP).
    exact (Processed_pair He Hv HP).
Qed.

Lemma bind_assoc {A B C} (m : M A) (f : A -> M B) (g : B -> M C) (s : state) :
  bind (bind m f) g s = bind m (fun a => bind (f a) g) s.
Proof. unfold bind. destruct (m s) as [[a|e] s1]; reflexivity. Qed.

Lemma bind_run_cmd_calls {A} (cmd : list pystr) (k : completed -> M A) (s : state) :
  (forall c, tame any_cmd (k c)) ->
  exists cs, calls (snd (bind (run_cmd cmd) k s)) = calls s ++ cmd :: cs.
Proof.
  intros Hk. unfold bind. pose proof (run_cmd_calls cmd s) as Hc.
  destruct (run_cmd cmd s) as [[c|e] s1]; simpl in Hc.
  - destruct (Hk c s1) as [(cs & Hcs & _) _]. exists cs.
    now rewrite Hcs, Hc, <- app_assoc.
  - exists []. exact Hc.
Qed.

(** C9. A project number of 0 is treated as absent, and so is an empty
    repository string: [sync_tasks] behaves with them as it does without;
    with project number 0 it launches [gh project list] to find the first
    project, right after the check of the CLI when the repository is
    given. *)
Theorem zero_project_number_is_absent (r : option pystr) (p : option Z)
    (tasks : list task) (s : state) :
  sync_tasks (Syncer r (Some 0%Z)) tasks s = sync_tasks (Syncer r None) tasks s /\
  sync_tasks (Syncer (Some []) p) tasks s = sync_tasks (Syncer None p) tasks s /\
  forall (repo : pystr) (s1 : state),
    repo <> [] ->
    check_gh_cli s = (Ret true, s1) ->
    exists cs,
      calls (snd (sync_tasks (Syncer (Some repo) (Some 0%Z)) tasks s))
      = calls s1 ++ cmd_project_list repo :: cs.
Proof.
  split; [reflexivity|]. split; [reflexivity|].
  intros repo s1 Hrepo Hcheck.
  destruct repo as [|c u]; [congruence|].
  unfold sync_tasks. unfold bind at 1. rewrite Hcheck. cbn [negb].
  unfold resolve_repo. cbn [SyncTasks.repo truthy_str negb].
  unfold bind at 1. cbn [ret truthy_str negb or_empty].
  unfold resolve_project. cbn [project_number truthy_int Z.eqb negb].
  unfold get_first_project, list_projects.
  rewrite !bind_assoc. apply bind_run_cmd_calls.
  assert (Tt : forall x, any_cmd x) by exact (fun _ => I).
  intros c0. apply tame_bind.
  - apply tame_if; [|apply tame_ret].
    destruct (json_loads_projects (stdout c0)) as [[[ps|]|ps]|]; apply tame_ret.
  - intros a. apply tame_bind.
    + destruct a as [|q qs]; apply tame_ret.
    + intros n. apply tame_if; [apply tame_ret|].
      apply tame_bind; [|intros l; apply tame_ret].
      apply tame_sync_loop; intros; exact I.
Qed.

End Claims.

Section MainFacts.

Context {H : Host}.

Lemma gather_file_cases (a : args) (s : state) :
  (missing_file a (ext s) /\ gather_file a s = (Raise (SystemExit 1), s)) \/
  (~ missing_file a (ext s) /\ gather_file a s = (Ret (file_tasks a (ext s)), s)).
Proof.
  unfold gather_file, file_tasks, missing_file.
  destruct (a_tasks_file a) as [[|c f]|] eqn:Hf.
  - right. split; [|reflexivity]. intros (f & Hf' & Hne & _). congruence.
  - unfold try_except, bind, open_read.
    destruct (read_file (c :: f) (ext s)) eqn:Hr.
    + right. split; [|reflexivity].
      intros (f' & Hf' & _ & Hn). injection Hf' as <-. congruence.
    + left. split; [|reflexivity].
      exists (c :: f). repeat split; [discriminate | assumption].
  - right. split; [|reflexivity]. intros (f & Hf' & _). discriminate.
Qed.

Lemma gather_json_cases (a : args) (s : state) :
  (malformed_json a /\ gather_json a s = (Raise (SystemExit 1), s)) \/
  (~ malformed_json a /\ not_iterable a /\ gather_json a s = (Raise TypeError, s)) \/
  (~ malformed_json a /\ ~ not_iterable a /\
   gather_json a s = (Ret (json_tasks a), s)).
Proof.
  unfold gather_json, json_tasks, malformed_json, not_iterable.
  destruct (a_json_tasks a) as [[|c j]|] eqn:Hj.
  - right. right. split; [|split; [|reflexivity]].
    + intros (j & Hj' & Hne & _). congruence.
    + intros (j & v & Hj' & Hne & _). congruence.
  - destruct (json_loads (c :: j)) as [v|] eqn:Hl.
    + destruct (iter v) as [items|] eqn:Hi.
      * right. right. split; [|split; [|reflexivity]].
        -- intros (j' & Hj' & _ & Hn). injection Hj' as <-. congruence.
        -- intros (j' & v' & Hj' & _ & Hv & Hn). injection Hj' as <-. congruence.
      * right. left. split; [|split; [|reflexivity]].
        -- intros (j' & Hj' & _ & Hn). injection Hj' as <-. congruence.
        -- exists (c :: j), v. repeat split; [discriminate | assumption | assumption].
    + left. split; [|reflexivity].
      exists (c :: j). repeat split; [discriminate | assumption].
  - right. right. split; [|split; [|reflexivity]].
    + intros (j & Hj' & _). discriminate.
    + intros (j & v & Hj' & _). discriminate.
Qed.

Lemma main_unfold (a : args) (s : state) :
  main a s =
  match gather_file a s with
  | (Raise e, s1) => (exit_status (Raise e), s1)
  | (Ret from_file, s1) =>
      match gather_json a s1 with
      | (Raise e, s2) => (exit_status (Raise e), s2)
      | (Ret from_json, s2) =>
          match from_file ++ gather_flags a ++ from_json with
          | [] => (1%Z, s2)
          | t :: ts =>
              match sync_tasks (syncer_of a) (t :: ts) s2 with
              | (Raise e, s3) => (exit_status (Raise e), s3)
              | (Ret (SyncFailure _), s3) => (1%Z, s3)
              | (Ret (SyncDone _ _ _ []), s3) => (0%Z, s3)
              | (Ret (SyncDone _ _ _ (_ :: _)), s3) => (2%Z, s3)
              end
          end
      end
  end.
Proof.
  unfold main, main_body, bind, syncer_of.
  destruct (gather_file a s) as [[ff|e] s1]; [|reflexivity].
  destruct (gather_json a s1) as [[fj|e] s2]; [|reflexivity].
  destruct (ff ++ gather_flags a ++ fj) as [|t ts]; [reflexivity|].
  destruct (sync_tasks _ (t :: ts) s2) as [[[e|r p sy [|f fs]]|e] s3]; reflexivity.
Qed.

Lemma exit_status_uncaught (e : exn) : uncaught e -> exit_status (Raise e) = 1%Z.
Proof. destruct e; simpl; tauto. Qed.

End MainFacts.

Section Stages.

Context {H : Host}.

(** [check_gh_cli] answers whether the CLI is usable. *)
Lemma check_gh_cli_spec (s : state) :
  check_gh_cli s
  = (Ret (cli_usable (ext s)),
     State (checked (ext s)) (calls s ++ [cmd_auth_status])).
Proof.
  unfold check_gh_cli, try_except, bind, run_cmd, ret, cli_usable, checked, output.
  destruct (subprocess_run cmd_auth_status (ext s)) as [[c|] w];
    cbn [fst snd except_FileNotFoundError]; [|reflexivity].
  destruct (returncode c =? 0)%Z; reflexivity.
Qed.

(** [get_origin_remote] parses the URL of the remote to inspect. *)
Lemma get_origin_remote_spec (s : state) :
  exists cs,
    get_origin_remote s
    = (Ret (match fst (remote_url (ext s)) with
            | Some url => _parse_github_url (strip url)
            | None => None
            end),
       State (snd (remote_url (ext s))) (calls s ++ cs)).
Proof.
  unfold get_origin_remote, remote_url, try_except, bind, run_cmd, ret, output.
  destruct (subprocess_run (cmd_get_url (py "origin")) (ext s)) as [[c1|] w1];
    cbn [ext calls except_Exception fst snd].
  2:{ eexists. reflexivity. }
  destruct (returncode c1 =? 0)%Z; cbn [fst snd].
  { eexists. reflexivity. }
  cbn [ext calls].
  destruct (subprocess_run cmd_remote w1) as [[c2|] w2];
    cbn [ext calls except_Exception fst snd option_map nonempty].
  2:{ eexists. rewrite <- app_assoc. reflexivity. }
  destruct (returncode c2 =? 0)%Z; cbn [andb option_map nonempty truthy_str fst snd].
  2:{ eexists. rewrite <- app_assoc. reflexivity. }
  destruct (strip (stdout c2)) as [|ch names]; cbn [nonempty truthy_str fst snd].
  { eexists. rewrite <- app_assoc. reflexivity. }
  cbn [ext calls].
  destruct (subprocess_run (cmd_get_url (hd [] (split "010"%char (ch :: names)))) w2)
    as [[c3|] w3]; cbn [ext calls except_Exception fst snd].
  - destruct (returncode c3 =? 0)%Z; eexists; rewrite <- !app_assoc; reflexivity.
  - eexists. rewrite <- !app_assoc. reflexivity.
Qed.

Lemma state_eta (s : state) : State (ext s) (calls s ++ []) = s.
Proof. destruct s. cbn. now rewrite app_nil_r. Qed.

Lemma resolve_repo_spec (a : args) (s : state) :
  exists o cs,
    resolve_repo (syncer_of a) s
    = (Ret o, State (snd (resolved_repo a (ext s))) (calls s ++ cs)) /\
    nonempty o = fst (resolved_repo a (ext s)).
Proof.
  unfold resolve_repo, resolved_repo, syncer_of. cbn [repo].
  destruct (a_repo a) as [[|c r]|]; cbn [truthy_str negb nonempty].
  - destruct (get_origin_remote_spec s) as (cs & Hg). rewrite Hg.
    destruct (remote_url (ext s)) as [u w']. cbn [fst snd].
    eexists _, cs. split; reflexivity.
  - exists (Some (c :: r)), []. cbn [fst snd]. unfold ret.
    rewrite state_eta. split; reflexivity.
  - destruct (get_origin_remote_spec s) as (cs & Hg). rewrite Hg.
    destruct (remote_url (ext s)) as [u w']. cbn [fst snd].
    eexists _, cs. split; reflexivity.
Qed.

Lemma get_first_project_spec (repo : pystr) (s : state) :
  let x :=
    (let (r, w') := subprocess_run (cmd_project_list repo) (ext s) in
     (nonzero (match output r with
               | Some out =>
                   match json_loads_projects out with
                   | Some doc => first_number doc
                   | None => None
                   end
               | None => None
               end), w')) in
  exists cs,
    (exists o,
        get_first_project repo s = (Ret o, State (snd x) (calls s ++ cs)) /\
        nonzero o = fst x) \/
    (get_first_project repo s
     = (Raise FileNotFoundError, State (snd x) (calls s ++ cs)) /\
     fst x = None).
Proof.
  cbv zeta.
  unfold get_first_project, list_projects, bind, run_cmd, ret, output.
  destruct (subprocess_run (cmd_project_list repo) (ext s)) as [[c|] w'];
    cbn [fst snd].
  2:{ exists [cmd_project_list repo]. right. split; reflexivity. }
  exists [cmd_project_list repo]. left.
  destruct (returncode c =? 0)%Z; [|eexists; split; reflexivity].
  destruct (json_loads_projects (stdout c)) as [[[[|p ps]|]|[|p ps]]|];
    eexists; split; reflexivity.
Qed.

Lemma resolve_project_spec (a : args) (repo : pystr) (s : state) :
  exists cs,
    (exists o,
        resolve_project (syncer_of a) repo s
        = (Ret o, State (snd (resolved_project a repo (ext s))) (calls s ++ cs)) /\
        nonzero o = fst (resolved_project a repo (ext s))) \/
    (resolve_project (syncer_of a) repo s
     = (Raise FileNotFoundError,
        State (snd (resolved_project a repo (ext s))) (calls s ++ cs)) /\
     fst (resolved_project a repo (ext s)) = None).
Proof.
  unfold resolve_project, resolved_project, syncer_of. cbn [project_number].
  destruct (a_project_number a) as [n|]; cbn [truthy_int nonzero negb].
  - destruct (n =? 0)%Z eqn:Hn; cbn [negb].
    + apply get_first_project_spec.
    + exists []. left. exists (Some n). cbn [fst snd nonzero]. rewrite Hn.
      unfold ret. rewrite state_eta. split; reflexivity.
  - apply get_first_project_spec.
Qed.

(** The loop returns with as many more failures as the batch has, and
    raises when the batch is cut short. *)
Lemma sync_loop_failures repo pn owner (tasks : list task) :
  forall synced failed s,
    match failures repo pn owner tasks (ext s) with
    | Some n =>
        exists sy fa s',
          sync_loop repo pn owner tasks synced failed s = (Ret (sy, fa), s') /\
          List.length fa = List.length failed + n
    | None =>
        exists e s',
          sync_loop repo pn owner tasks synced failed s = (Raise e, s') /\
          uncaught e
    end.
Proof.
  induction tasks as [|t ts IH]; intros synced failed s.
  - cbn [failures sync_loop]. exists synced, failed, s. split; [reflexivity | lia].
  - assert (Hfail : forall w x (st : state),
               ext st = w ->
               match option_map S (failures repo pn owner ts w) with
               | Some n =>
                   exists sy fa s',
                     sync_loop repo pn owner ts synced (failed ++ [x]) st
                     = (Ret (sy, fa), s') /\
                     List.length fa = List.length failed + n
               | None =>
                   exists e s',
                     sync_loop repo pn owner ts synced (failed ++ [x]) st
                     = (Raise e, s') /\ uncaught e
               end).
    { intros w x st <-. specialize (IH synced (failed ++ [x]) st).
      destruct (failures repo pn owner ts (ext st)) as [n|]; cbn [option_map].
      - destruct IH as (sy & fa & s' & Hl & Hn). exists sy, fa, s'.
        split; [exact Hl|]. rewrite Hn, length_app. cbn [List.length]. lia.
      - exact IH. }
    cbn [failures sync_loop].
    unfold task_fate, create_issue, add_issue_to_project.
    unfold bind, run_cmd, ret, raise, output. cbv beta.
    destruct (is_dict t); cbn [negb].
    2:{ exists AttributeError, s. split; [reflexivity | exact I]. }
    destruct (truthy (title t)); cbn [negb];
      [|now apply Hfail].
    destruct (issue_cmd repo (title t) (body t) (labels t)) as [cmd|].
    2:{ exists TypeError, s. split; [reflexivity | exact I]. }
    destruct (subprocess_run cmd (ext s)) as [[c|] w1].
    2:{ eexists FileNotFoundError, _. split; [reflexivity | exact I]. }
    destruct (returncode c =? 0)%Z; cbn [option_map nonempty truthy_str negb];
      [|now apply Hfail].
    destruct (strip (stdout c)) as [|ch url];
      cbn [nonempty truthy_str negb or_empty]; [now apply Hfail|].
    cbn [ext calls].
    destruct (subprocess_run (cmd_item_add pn (ch :: url) owner) w1) as [[c2|] w2].
    2:{ eexists FileNotFoundError, _. split; [reflexivity | exact I]. }
    destruct (returncode c2 =? 0)%Z; [|now apply Hfail].
    match goal with
    | |- context [sync_loop repo pn owner ts ?sy ?fa ?st] =>
        specialize (IH sy fa st)
    end.
    cbn [ext] in IH. exact IH.
Qed.

(** What [sync_tasks] comes to at each stage of a run. *)
Lemma sync_tasks_stage (a : args) (s : state) :
  exists r s',
    sync_tasks (syncer_of a) (supplied a (ext s)) s = (r, s') /\
    match stage_of a (ext s) with
    | Batch n =>
        exists repo pn sy fa, r = Ret (SyncDone repo pn sy fa) /\ List.length fa = n
    | CutShort => exists e, r = Raise e /\ uncaught e
    | _ => (exists e, r = Ret (SyncFailure e)) \/ (exists e, r = Raise e /\ uncaught e)
    end.
Proof.
  unfold stage_of, sync_tasks. unfold bind at 1.
  rewrite check_gh_cli_spec.
  destruct (cli_usable (ext s)); cbn [negb];
    [|eexists _, _; split; [reflexivity | left; eexists; reflexivity]].
  destruct (resolve_repo_spec a (State (checked (ext s)) (calls s ++ [cmd_auth_status])))
    as (o & cs & Hr & Ho).
  cbn [ext calls] in Hr, Ho.
  unfold bind at 1. rewrite Hr. clear Hr.
  destruct (resolved_repo a (checked (ext s))) as [ro w2]. cbn [fst snd] in *.
  destruct o as [[|c r]|]; cbn [nonempty] in Ho; subst ro; cbn [truthy_str negb];
    try (eexists _, _; split; [reflexivity | left; eexists; reflexivity]).
  cbn [or_empty].
  destruct (resolve_project_spec a (c :: r)
              (State w2 ((calls s ++ [cmd_auth_status]) ++ cs)))
    as (cs3 & [(po & Hp & Hpo)|(Hp & Hpo)]);
    cbn [ext calls] in Hp, Hpo; unfold bind at 1; rewrite Hp; clear Hp;
    destruct (resolved_project a (c :: r) w2) as [rp w3]; cbn [fst snd] in *.
  2:{ subst rp. eexists _, _. split; [reflexivity|].
      right. exists FileNotFoundError. split; [reflexivity | exact I]. }
  destruct po as [n|]; cbn [nonzero] in Hpo;
    [|subst rp; eexists _, _; split; [reflexivity | left; eexists; reflexivity]].
  destruct (n =? 0)%Z eqn:Hn; subst rp; cbn [truthy_int negb]; rewrite Hn;
    cbn [negb];
    [eexists _, _; split; [reflexivity | left; eexists; reflexivity]|].
  pose proof (sync_loop_failures (c :: r) n (owner_of (c :: r)) (supplied a (ext s))
                [] [] (State w3 (((calls s ++ [cmd_auth_status]) ++ cs) ++ cs3)))
    as Hl.
  cbn [ext] in Hl. unfold bind.
  destruct (failures (c :: r) n (owner_of (c :: r)) (supplied a (ext s)) w3) as [k|].
  - destruct Hl as (sy & fa & s' & Hl & Hlen). rewrite Hl. cbn [fst snd ret].
    eexists _, _. split; [reflexivity|].
    exists (c :: r), n, sy, fa. split; [reflexivity | exact Hlen].
  - destruct Hl as (e & s' & Hl & He). rewrite Hl.
    eexists _, _. split; [reflexivity|].
    exists e. split; [reflexivity | exact He].
Qed.

(** The exit status, case by case. *)
Lemma main_status (a : args) (s : state) :
  let st := fst (main a s) in
  let w := ext s in
  (missing_file a w /\ st = 1%Z) \/
  (~ missing_file a w /\ malformed_json a /\ st = 1%Z) \/
  (~ missing_file a w /\ ~ malformed_json a /\ not_iterable a /\ st = 1%Z) \/
  (~ missing_file a w /\ ~ malformed_json a /\ ~ not_iterable a /\
   supplied a w = [] /\ st = 1%Z) \/
  (inputs_ok a w /\
   st = match stage_of a w with
        | Batch 0 => 0
        | Batch (S _) => 2
        | _ => 1
        end%Z).
Proof.
  cbv zeta. rewrite main_unfold.
  destruct (gather_file_cases a s) as [[Hm Hg]|[Hm Hg]]; rewrite Hg;
    [left; split; [assumption | reflexivity]|].
  right.
  destruct (gather_json_cases a s) as [[Hj Hgj]|[(Hj & Hi & Hgj)|(Hj & Hi & Hgj)]];
    rewrite Hgj.
  - left. repeat split; assumption.
  - right. left. repeat split; assumption.
  - right. right. fold (supplied a (ext s)).
    destruct (supplied a (ext s)) as [|t ts] eqn:Hsup;
      [left; repeat split; assumption|].
    right. split; [unfold inputs_ok; rewrite Hsup; repeat split; auto; discriminate|].
    destruct (sync_tasks_stage a s) as (r & s' & Hrun & Hst).
    rewrite Hsup in Hrun. rewrite Hrun.
    destruct (stage_of a (ext s)) as [| | | |n].
    1-3: destruct Hst as [(e & ->)|(e & -> & He)];
      [reflexivity | exact (exit_status_uncaught _ He)].
    + destruct Hst as (e & -> & He). exact (exit_status_uncaught _ He).
    + destruct Hst as (repo & pn & sy & fa & -> & Hlen).
      destruct fa as [|f fa]; cbn [List.length] in Hlen; subst n; reflexivity.
Qed.

Ltac stage_cases a w :=
  unfold stage_of, repo_unresolved, project_unresolved, cut_short, batch_fails,
    top_level;
  destruct (cli_usable w) eqn:Hcli;
  [destruct (resolved_repo a (checked w)) as [[repo|] w2] eqn:Hrepo;
   [destruct (resolved_project a repo w2) as [[pn|] w3] eqn:Hproj;
    [destruct (failures repo pn (owner_of repo) (supplied a w) w3) as [k|] eqn:Hf|]|]|].

Ltac stage_solve :=
  split;
  [ intros Hs; try discriminate Hs;
    try (injection Hs as <-);
    repeat first
      [ eexists | split | reflexivity | eassumption
      | match goal with
        | [ Hx : ?l = _ |- context [?l] ] => rewrite Hx; reflexivity
        end ]
  | intros Hp;
    repeat match goal with
           | [ Hx : _ /\ _ |- _ ] => destruct Hx
           | [ Hx : exists _, _ |- _ ] => destruct Hx
           end;
    repeat match goal with
           | [ Hx : (_, _) = (_, _) |- _ ] => injection Hx as <- <-
           | [ Hx : ?l = _, Hy : context [?l] |- _ ] => rewrite Hx in Hy
           | [ Hx : fst (_, _) = _ |- _ ] => cbn [fst] in Hx
           end;
    try congruence ].

Lemma stage_no_cli (a : args) (w : world) :
  stage_of a w = NoCli <-> cli_usable w = false.
Proof. stage_cases a w; stage_solve. Qed.

Lemma stage_no_repo (a : args) (w : world) :
  stage_of a w = NoRepo <-> repo_unresolved a w.
Proof. stage_cases a w; stage_solve. Qed.

Lemma stage_no_project (a : args) (w : world) :
  stage_of a w = NoProject <-> project_unresolved a w.
Proof. stage_cases a w; stage_solve. Qed.

Lemma stage_cut_short (a : args) (w : world) :
  stage_of a w = CutShort <-> cut_short a w.
Proof. stage_cases a w; stage_solve. Qed.

Lemma stage_batch (a : args) (w : world) (n : nat) :
  stage_of a w = Batch n <-> batch_fails a w n.
Proof. stage_cases a w; stage_solve. Qed.

End Stages.

Section ExitStatus.

Context {H : Host}.

(** C3, amended. The process exits with status 0 exactly when the inputs
    are read and supply a task, [gh] is installed and authenticated, the
    repository and the project are resolved, and every task is synced; with
    status 2 exactly when all this holds but for the last and the batch runs
    to its end with a task that fails; and with status 1 in every other
    case: the checklist file does not exist, the JSON string does not
    parse or parses to a value that cannot be iterated, no task is
    supplied, [gh] is missing or unauthenticated, the repository or the
    project cannot be resolved, or the batch is cut short because a
    command cannot be launched or an entry of the JSON input is not a task
    of the documented types. *)
Theorem main_exit_status (a : args) (s : state) :
  let st := fst (main a s) in
  let w := ext s in
  (st = 0%Z <-> inputs_ok a w /\ batch_fails a w 0) /\
  (st = 2%Z <-> inputs_ok a w /\ exists n, batch_fails a w (S n)) /\
  (st = 1%Z <->
   missing_file a w \/ malformed_json a \/ not_iterable a \/ supplied a w = [] \/
   cli_usable w = false \/ repo_unresolved a w \/ project_unresolved a w \/
   cut_short a w).
Proof.
  cbv zeta.
  assert (Hin : inputs_ok a (ext s) ->
                ~ (missing_file a (ext s) \/ malformed_json a \/ not_iterable a \/
                   supplied a (ext s) = [])).
  { intros (H1 & H2 & H3 & H4). tauto. }
  destruct (main_status a s)
    as [[Hm ->]|[(Hm & Hj & ->)|[(Hm & Hj & Hi & ->)|[(Hm & Hj & Hi & Hs & ->)
       |(Hok & ->)]]]].
  1-4: (split; [|split]; split; intros Hx;
        try discriminate Hx; try reflexivity; try tauto;
        destruct Hx as [Hok _]; exfalso; apply (Hin Hok); tauto).
  specialize (Hin Hok).
  pose proof (stage_no_cli a (ext s)) as E1.
  pose proof (stage_no_repo a (ext s)) as E2.
  pose proof (stage_no_project a (ext s)) as E3.
  pose proof (stage_cut_short a (ext s)) as E4.
  pose proof (stage_batch a (ext s)) as E5.
  destruct (stage_of a (ext s)) as [| | | |[|n]].
  all: try (assert (F1 := proj1 E1 eq_refl)).
  all: try (assert (F2 := proj1 E2 eq_refl)).
  all: try (assert (F3 := proj1 E3 eq_refl)).
  all: try (assert (F4 := proj1 E4 eq_refl)).
  all: try (assert (F5 := proj1 (E5 _) eq_refl)).
  all: (split; [|split]); split; intros Hx; try discriminate Hx; try reflexivity.
  all: try (split; [exact Hok|]; first [exact F5 | eexists; exact F5]).
  all: try tauto.
  all: try (match type of Hx with
            | _ /\ batch_fails _ _ _ => destruct Hx as [_ Hb]
            | _ /\ (exists _, _) => destruct Hx as [_ (n' & Hb)]
            end;
            apply E5 in Hb; discriminate Hb).
  all: destruct Hx as [?|[?|[?|[?|[Hc|[Hc|[Hc|Hc]]]]]]]; try tauto;
    first [apply E1 in Hc | apply E2 in Hc | apply E3 in Hc | apply E4 in Hc];
    discriminate Hc.
Qed.

End ExitStatus.

End SyncFacts.

(** ** The synchroniser on the scripted machine *)

Module SyncRuns.

Import SyncTasks SyncSpec SyncFacts Scenario.

Example batch_result :
  fst (sync_tasks (H := scripted) (Syncer (Some acme) None) batch start)
  = Ret (SyncDone acme 7
           [Synced (titled (py "ok")) (issue_url (py "1"))]
           [Failed nameless err_no_title None;
            Failed (titled (py "broken")) err_create None;
            Failed (titled (py "orphan")) err_link (Some (issue_url (py "2")))]).
Proof. vm_compute. reflexivity. Qed.

(** A number in place of the array of tasks: [tasks.extend] raises, and
    the process ends with status 1 before any command is launched, though a
    task is given by flag. *)
Example json_number_exits_1 :
  main (H := scripted)
       (Args (Some acme) (Some 7%Z) None (Some [py "foo"]) (Some (py "5"))) start
  = (1%Z, start).
Proof. vm_compute. reflexivity. Qed.

(** A bare object in place of the array: the loop goes through its keys,
    which are strings, and the first [task.get] raises; the process ends
    with status 1 after the check of the CLI. *)
Example json_object_exits_1 :
  main (H := scripted)
       (Args (Some acme) (Some 7%Z) None None (Some (object_text (py "x")))) start
  = (1%Z, after [cmd_auth_status]).
Proof. vm_compute. reflexivity. Qed.

(** An array that holds a number: the same, after the tasks before it
    have been synced. *)
Example json_array_of_number_exits_1 :
  main (H := scripted)
       (Args (Some acme) (Some 7%Z) None (Some [py "ok"]) (Some (py "[7]"))) start
  = (1%Z, after [cmd_auth_status; create_cmd_of acme (titled (py "ok"));
                 cmd_item_add 7 (issue_url (py "1")) (owner_of acme)]).
Proof. vm_compute. reflexivity. Qed.

Lemma sync_result_partitions_witness :
  exists r p synced failed s',
    sync_tasks (H := scripted) (Syncer (Some acme) None) batch start
    = (Ret (SyncDone r p synced failed), s') /\
    Interleave (map s_task synced) (map f_task failed) batch /\
    List.length synced + List.length failed = List.length batch.
Proof.
  do 5 eexists.
  assert (Hrun : sync_tasks (H := scripted) (Syncer (Some acme) None) batch start
                 = (Ret (SyncDone _ _ _ _), _)) by (vm_compute; reflexivity).
  split; [exact Hrun|].
  destruct (sync_result_partitions (H := scripted) _ _ _ Hrun) as (Hi & Hl & _).
  split; assumption.
Defined.


Lemma untitled_tasks_recorded_witness :
  exists r p sy fa s' cs,
    untitled nameless = true /\ untitled (titled (py "ok")) = false /\
    sync_tasks (H := scripted) (Syncer (Some acme) (Some 7%Z))
               [nameless; titled (py "ok")] start
    = (Ret (SyncDone r p sy fa), s') /\
    filter is_no_title fa = [Failed nameless err_no_title None] /\
    calls s' = calls start ++ cs /\
    filter is_issue_create cs = [create_cmd_of r (titled (py "ok"))].
Proof.
  assert (H0 : untitled nameless = true) by reflexivity.
  assert (H1 : untitled (titled (py "ok")) = false) by reflexivity.
  assert (H2 : sync_tasks (H := scripted) (Syncer (Some acme) (Some 7%Z))
                 [nameless; titled (py "ok")] start
               = (Ret (SyncDone acme 7
                         [Synced (titled (py "ok")) (issue_url (py "1"))]
                         [Failed nameless err_no_title None]),
                  after [cmd_auth_status;
                            create_cmd_of acme (titled (py "ok"));
                            cmd_item_add 7 (issue_url (py "1")) (owner_of acme)]))
    by (vm_compute; reflexivity).
  destruct (proj2 (proj2 (untitled_tasks_recorded (H := scripted) acme 7 (owner_of acme)))
              _ _ _ _ _ _ _ _ _ H0 H1 H2) as (Hf & (cs & Hc & Hi) & _).
  do 5 eexists. exists cs.
  repeat (split; [eassumption|]). exact Hi.
Defined.

(** C4 as stated fails: one entry with an empty title and one valid entry
    whose issue cannot be created give two failed tasks, not exactly
    one. *)
Lemma valid_task_fails_too :
  untitled nameless = true /\ untitled (titled (py "broken")) = false /\
  exists s',
    sync_tasks (H := scripted) (Syncer (Some acme) (Some 7%Z))
               [nameless; titled (py "broken")] start
    = (Ret (SyncDone acme 7 []
              [Failed nameless err_no_title None;
               Failed (titled (py "broken")) err_create None]), s') /\
    List.length [Failed nameless err_no_title None;
                 Failed (titled (py "broken")) err_create None] <> 1.
Proof.
  split; [reflexivity|]. split; [reflexivity|].
  eexists. split; [vm_compute; reflexivity | discriminate].
Qed.

Lemma zero_project_number_is_absent_witness :
  exists s1 cs,
    acme <> [] /\
    check_gh_cli (H := scripted) start = (Ret true, s1) /\
    calls (snd (sync_tasks (H := scripted) (Syncer (Some acme) (Some 0%Z)) batch start))
    = calls s1 ++ cmd_project_list acme :: cs.
Proof.
  assert (H0 : acme <> []) by discriminate.
  assert (H1 : check_gh_cli (H := scripted) start
               = (Ret true, after [cmd_auth_status])) by (vm_compute; reflexivity).
  destruct (proj2 (proj2 (zero_project_number_is_absent (H := scripted)
                            None None batch start)) acme _ H0 H1) as (cs & Hcs).
  eexists. exists cs. repeat (split; [eassumption|]). exact Hcs.
Defined.

(** C3 as stated fails: with the CLI authenticated, the repository and the
    project given, a task given by flag and no JSON input, a checklist file
    that does not exist ends the process with status 1. *)
Lemma missing_file_exits_1 :
  fst (main (H := scripted) args_missing_file start) = 1%Z /\
  ~ claimed_status_1 (H := scripted) args_missing_file (ext start).
Proof.
  split; [vm_compute; reflexivity|].
  intros [Hc|[[_ Hr]|[(_ & repo & w2 & Hr & Hp)|[Hs|(j & Hj & _)]]]].
  - vm_compute in Hc. discriminate.
  - vm_compute in Hr. discriminate.
  - vm_compute in Hr. injection Hr as <- <-. vm_compute in Hp. discriminate.
  - vm_compute in Hs. discriminate.
  - discriminate.
Qed.

Lemma main_exit_status_witness :
  (missing_file (H := scripted) args_missing_file (ext start) /\
   fst (main (H := scripted) args_missing_file start) = 1%Z) /\
  (fst (main (H := scripted)
             (Args (Some acme) (Some 7%Z) None (Some [py "ok"; py "broken"]) None)
             start) = 2%Z /\
   exists n,
     batch_fails (H := scripted)
       (Args (Some acme) (Some 7%Z) None (Some [py "ok"; py "broken"]) None)
       (ext start) (S n)) /\
  (fst (main (H := scripted) (Args None None (Some (py "tasks.md")) None None)
             start) = 1%Z /\
   repo_unresolved (H := scripted) (Args None None (Some (py "tasks.md")) None None)
                   (ext start)) /\
  (fst (main (H := scripted) (Args (Some acme) None (Some (py "tasks.md")) None None)
             start) = 0%Z /\
   batch_fails (H := scripted) (Args (Some acme) None (Some (py "tasks.md")) None None)
               (ext start) 0).
Proof.
  assert (Hm : missing_file (H := scripted) args_missing_file (ext start)).
  { exists (py "missing.md").
    split; [reflexivity|]. split; [discriminate | reflexivity]. }
  assert (H2 : fst (main (H := scripted)
                      (Args (Some acme) (Some 7%Z) None (Some [py "ok"; py "broken"]) None)
                      start) = 2%Z) by (vm_compute; reflexivity).
  assert (Hr : repo_unresolved (H := scripted)
                 (Args None None (Some (py "tasks.md")) None None)
                   (ext start))
    by (split; vm_compute; reflexivity).
  assert (H0 : fst (main (H := scripted)
                      (Args (Some acme) None (Some (py "tasks.md")) None None)
                      start) = 0%Z) by (vm_compute; reflexivity).
  split; [|split; [|split]].
  - split; [exact Hm|].
    exact (proj2 (proj2 (proj2 (main_exit_status (H := scripted) args_missing_file start)))
             (or_introl Hm)).
  - split; [exact H2|].
    exact (proj2 (proj1 (proj1 (proj2 (main_exit_status (H := scripted) _ start))) H2)).
  - split; [|exact Hr].
    exact (proj2 (proj2 (proj2 (main_exit_status (H := scripted) _ start)))
             (or_intror (or_intror (or_intror (or_intror (or_intror (or_introl Hr))))))).
  - split; [exact H0|].
    exact (proj2 (proj1 (proj1 (main_exit_status (H := scripted) _ start)) H0)).
Defined.

End SyncRuns.

(** ** More on the matcher *)

Module ReMore.

Import PyFacts PyMore ReFacts Render.

Lemma startswith_prefix (p : pystr) :
  forall s, startswith s p = true -> s = p ++ skipn (List.length p) s.
Proof.
  induction p as [|c p IH]; intros [|d s]; cbn [startswith List.length skipn app];
    try discriminate; try reflexivity.
  intros Hs. apply andb_true_iff in Hs. destruct Hs as [H1 H2].
  apply eqc_eq in H1. subst d. f_equal. now apply IH.
Qed.

Lemma in_rep_lazy (p : ascii -> bool) (s : pystr) :
  forall lo cs n m,
    In m (rep_lazy p lo cs n s) ->
    exists l,
      s = l ++ rest m /\ Forall (fun c => p c = true) l /\ lo <= List.length l /\
      pos m = n + List.length l /\ caps m = cs.
Proof.
  induction s as [|c s IH]; intros lo cs n m Hin; cbn [rep_lazy] in Hin;
    apply in_app_or in Hin; destruct Hin as [Hin|Hin].
  - destruct (lo =? 0) eqn:E; [|contradiction]. destruct Hin as [<-|[]].
    apply Nat.eqb_eq in E. exists []. cbn. repeat split; auto; lia.
  - contradiction.
  - destruct (lo =? 0) eqn:E; [|contradiction]. destruct Hin as [<-|[]].
    apply Nat.eqb_eq in E. exists []. cbn. repeat split; auto; lia.
  - destruct (p c) eqn:Hc; [|contradiction].
    apply IH in Hin. destruct Hin as (l & Hs & Hl & Hlo & Hp & Hcs).
    exists (c :: l). cbn [app List.length]. repeat split.
    + now rewrite Hs at 1.
    + now constructor.
    + lia.
    + lia.
    + assumption.
Qed.

Lemma in_rep_greedy (p : ascii -> bool) (s : pystr) :
  forall lo cs n m,
    In m (rep_greedy p lo cs n s) ->
    exists l,
      s = l ++ rest m /\ Forall (fun c => p c = true) l /\ lo <= List.length l /\
      pos m = n + List.length l /\ caps m = cs.
Proof.
  induction s as [|c s IH]; intros lo cs n m Hin; cbn [rep_greedy] in Hin;
    apply in_app_or in Hin; destruct Hin as [Hin|Hin].
  - contradiction.
  - destruct (lo =? 0) eqn:E; [|contradiction]. destruct Hin as [<-|[]].
    apply Nat.eqb_eq in E. exists []. cbn. repeat split; auto; lia.
  - destruct (p c) eqn:Hc; [|contradiction].
    apply IH in Hin. destruct Hin as (l & Hs & Hl & Hlo & Hp & Hcs).
    exists (c :: l). cbn [app List.length]. repeat split.
    + now rewrite Hs at 1.
    + now constructor.
    + lia.
    + lia.
    + assumption.
  - destruct (lo =? 0) eqn:E; [|contradiction]. destruct Hin as [<-|[]].
    apply Nat.eqb_eq in E. exists []. cbn. repeat split; auto; lia.
Qed.

Lemma in_run_eol (a b : mstate) :
  In b (run Eol a) -> b = a /\ (rest a = [] \/ rest a = [newline]).
Proof.
  cbn [run]. destruct (rest a) as [|c [|d s]].
  - intros [<-|[]]. auto.
  - destruct (eqc c "010"%char) eqn:E; [|contradiction].
    intros [<-|[]]. apply eqc_eq in E. subst c. auto.
  - contradiction.
Qed.

Lemma hd_error_in {A} (l : list A) (x : A) : hd_error l = Some x -> In x l.
Proof. destruct l; [discriminate|]. intros [= <-]. now left. Qed.

Lemma in_hd_error {A} (l : list A) (x : A) : In x l -> hd_error l <> None.
Proof. destruct l; [contradiction | discriminate]. Qed.

(** A search that succeeds found its match at some place of the text. *)
Lemma search_from_some (r : regex) (s : pystr) :
  forall st mo,
    search_from r st s false = Some mo ->
    exists pre suf,
      s = pre ++ suf /\ m_start mo = st + List.length pre /\
      attempt r (st + List.length pre) suf false = Some (m_end mo).
Proof.
  induction s as [|c s IH]; intros st mo; rewrite search_from_eq.
  - destruct (attempt r st [] false) eqn:E; [|discriminate].
    intros [= <-]. exists [], []. cbn. rewrite Nat.add_0_r. auto.
  - destruct (attempt r st (c :: s) false) eqn:E.
    + intros [= <-]. exists [], (c :: s). cbn. rewrite Nat.add_0_r. auto.
    + intros Hs. apply IH in Hs. destruct Hs as (pre & suf & -> & Hst & Ha).
      exists (c :: pre), suf. cbn [List.length app]. rewrite Nat.add_succ_r. auto.
Qed.

(** A search finds a match when there is one somewhere. *)
Lemma search_from_complete (r : regex) (pre : pystr) :
  forall st suf,
    attempt r (st + List.length pre) suf false <> None ->
    search_from r st (pre ++ suf) false <> None.
Proof.
  induction pre as [|c pre IH]; intros st suf Ha; rewrite search_from_eq.
  - cbn [List.length app] in *. rewrite Nat.add_0_r in Ha.
    destruct (attempt r st suf false); [discriminate | congruence].
  - cbn [app]. destruct (attempt r st (c :: pre ++ suf) false); [discriminate|].
    apply IH. cbn [List.length] in Ha. now rewrite Nat.add_succ_r in Ha.
Qed.

End ReMore.

(** ** The preamble of a manifest *)

Module ManifestFacts.

Import PyFacts PyMore ReFacts ReMore Spec UrlGeneral Render BuildSkills ManifestSpec.

Lemma startswith_longer (p : pystr) :
  forall s r, List.length p <= List.length s ->
              startswith (s ++ r) p = startswith s p.
Proof.
  induction p as [|c p IH]; intros s r Hl; [destruct s; destruct r; reflexivity|].
  destruct s as [|d s]; cbn [List.length] in Hl; [lia|].
  cbn [app startswith]. rewrite IH by lia. reflexivity.
Qed.

Lemma run_closing (p0 n : nat) (s : pystr) (cs : list (nat * (nat * nat))) :
  run closing_re (close_group_1 p0 (MState n s cs))
  = if startswith s closing
    then [MState (n + 4) (skipn 4 s) ((1, (p0, n)) :: cs)]
    else [].
Proof. unfold closing_re. rewrite run_lit. reflexivity. Qed.

(** The lazy [.*?] stops at the first place where the closing marker
    follows. *)
Lemma lazy_marker (body : pystr) :
  (forall p q, body = p ++ q -> q <> [] -> startswith (q ++ closing) closing = false) ->
  forall n cs p0 rest,
    hd_error (flat_map (run closing_re)
                (map (close_group_1 p0)
                     (rep_lazy any_char 0 cs n (body ++ closing ++ rest))))
    = Some (MState (n + List.length body + 4) rest
                   ((1, (p0, n + List.length body)) :: cs)).
Proof.
  induction body as [|c b IH]; intros Hgood n cs p0 rest.
  - cbn [app List.length]. unfold closing at 1.
    cbn [app rep_lazy Nat.eqb map flat_map].
    rewrite run_closing.
    change (newline :: py "---" ++ rest) with (closing ++ rest).
    rewrite startswith_app.
    change 4 with (List.length closing) at 2. rewrite skipn_length_app.
    cbn [app hd_error]. rewrite !Nat.add_0_r. reflexivity.
  - cbn [app rep_lazy Nat.eqb map flat_map any_char Nat.pred].
    rewrite run_closing.
    assert (Hs : startswith (c :: b ++ closing ++ rest) closing = false).
    { change (c :: b ++ closing ++ rest) with ((c :: b) ++ closing ++ rest).
      rewrite app_assoc, startswith_longer.
      - apply (Hgood [] (c :: b)); [reflexivity | discriminate].
      - rewrite length_app. cbn. lia. }
    rewrite Hs. cbn [app].
    rewrite IH.
    + cbn [List.length]. now rewrite !Nat.add_succ_r.
    + intros p q Hb Hq. apply (Hgood (c :: p) q); [now rewrite Hb | exact Hq].
Qed.

Lemma first_char_not_newline (c : ascii) (q : pystr) :
  eqc c newline = false -> startswith ((c :: q) ++ closing) closing = false.
Proof.
  intros Hc. unfold closing. cbn [app startswith].
  unfold eqc in *. rewrite Ascii.eqb_sym. unfold newline in *. now rewrite Hc.
Qed.

Lemma not_marker_ext (l x : pystr) (d : ascii) :
  eqc "-"%char d = false ->
  startswith l (py "---") = false ->
  startswith (l ++ d :: x) (py "---") = false.
Proof.
  intros Hd.
  destruct l as [|a [|b [|c l]]]; cbn [app]; intros Hl;
    cbn [startswith py list_ascii_of_string] in *.
  - now rewrite Hd.
  - now rewrite Hd, andb_false_r.
  - now rewrite Hd, !andb_false_r.
  - replace (startswith (l ++ d :: x) []) with (startswith l []);
      [exact Hl | destruct l; reflexivity].
Qed.

Lemma join_lines_cons (l : pystr) (ls : list pystr) :
  exists x, join [newline] (l :: ls) ++ closing = l ++ newline :: x.
Proof.
  destruct ls as [|l' ls].
  - exists (py "---"). reflexivity.
  - eexists. rewrite join_cons by discriminate.
    rewrite <- app_assoc. cbn [app]. reflexivity.
Qed.

(** In the lines of a preamble the closing marker occurs nowhere. *)
Lemma lines_unmarked (lines : list pystr) :
  lines <> [] -> Forall one_line lines -> unmarked lines ->
  forall p q, join [newline] lines = p ++ q -> q <> [] ->
              startswith (q ++ closing) closing = false.
Proof.
  induction lines as [|l ls IH]; intros Hne Hl Hu; [congruence|].
  inversion Hl as [|? ? Hl1 Hls]; subst.
  assert (Hin : forall p q, l = p ++ q -> q <> [] -> forall y,
               startswith ((q ++ y) ++ closing) closing = false).
  { intros p q Hq Hqn y. destruct q as [|c q]; [congruence|].
    apply first_char_not_newline.
    unfold one_line in Hl1. rewrite Hq in Hl1. apply Forall_app in Hl1.
    destruct Hl1 as [_ Hl1]. now inversion Hl1. }
  destruct ls as [|l' ls].
  - cbn [join]. intros p q Hq Hqn.
    rewrite <- (app_nil_r q) at 1. exact (Hin p q Hq Hqn []).
  - rewrite join_cons by discriminate. cbn [app].
    intros p q Hq Hqn.
    assert (Hmark : startswith ((newline :: join [newline] (l' :: ls)) ++ closing)
                               closing = false).
    { unfold closing at 2. cbn [app startswith].
      change (eqc newline newline) with true. cbn [andb].
      destruct (join_lines_cons l' ls) as (x & Hx). rewrite Hx.
      apply not_marker_ext; [reflexivity|]. unfold unmarked in Hu. cbn [tl] in Hu.
      now inversion Hu. }
    apply app_eq_app in Hq. destruct Hq as (m & [[Hl' Hq]|[Hp Hq]]).
    + (* the cut is inside [l] *)
      destruct m as [|c m].
      * cbn [app] in Hq. subst q. exact Hmark.
      * subst q. apply (Hin p (c :: m)); [exact Hl' | discriminate].
    + (* the cut is after the end of [l] *)
      destruct m as [|c m].
      * cbn [app] in Hq. subst q. exact Hmark.
      * cbn [app] in Hq. injection Hq as _ Hq.
        apply (IH ltac:(discriminate) Hls) with (p := m); [|exact Hq|exact Hqn].
        unfold unmarked in *. cbn [tl] in *. now inversion Hu.
Qed.

Lemma run_bol (s : pystr) (cs : list (nat * (nat * nat))) :
  run Bol (MState 0 s cs) = [MState 0 s cs].
Proof. reflexivity. Qed.

Lemma run_preamble (body rest : pystr) :
  run preamble_re (MState 0 (opening ++ body ++ closing ++ rest) [])
  = flat_map (run closing_re)
      (map (close_group_1 4) (rep_lazy any_char 0 [] 4 (body ++ closing ++ rest))).
Proof.
  unfold preamble_re. rewrite run_cat, run_bol. cbn [flat_map]. rewrite app_nil_r.
  rewrite run_cat, run_lit. cbn [Re.rest pos caps].
  unfold opening. rewrite <- app_assoc.
  rewrite startswith_app, skipn_length_app. cbn [flat_map app]. rewrite app_nil_r.
  rewrite run_cat, run_chr. change (eqc "010"%char newline) with true. cbv iota.
  cbn [flat_map]. rewrite app_nil_r.
  rewrite run_cat, run_grp, run_rep_lazy. cbn [Re.rest pos caps].
  reflexivity.
Qed.

Lemma preamble_body (body rest : pystr) :
  (forall p q, body = p ++ q -> q <> [] -> startswith (q ++ closing) closing = false) ->
  extract_yaml_preamble_of (opening ++ body ++ closing ++ rest)
  = fold_left parse_line (split newline body) [].
Proof.
  intros Hgood. unfold extract_yaml_preamble_of, re_match.
  rewrite attempt_free, run_preamble, (lazy_marker Hgood).
  cbn [option_map]. unfold group.
  cbn [m_end caps span_of Nat.eqb option_map fst snd].
  rewrite (@slice_mid_at opening body (closing ++ rest)); reflexivity.
Qed.

Lemma preamble_lines_aux (lines : list pystr) (rest : pystr) :
  lines <> [] -> Forall one_line lines -> unmarked lines ->
  extract_yaml_preamble_of (with_preamble lines rest) = fold_left parse_line lines [].
Proof.
  intros Hne Hl Hu. unfold with_preamble.
  rewrite preamble_body by (now apply lines_unmarked).
  now rewrite split_join.
Qed.

(** X18. The metadata of a text that starts with [---], some lines and a line
    that starts with [---] is read from those lines, one after the other,
    and from nothing else: the preamble ends at the first line that starts
    with the marker, and the text after it is ignored. *)
Theorem preamble_lines (lines : list pystr) (rest : pystr) :
  lines <> [] -> Forall one_line lines -> unmarked lines ->
  extract_yaml_preamble_of (with_preamble lines rest) = fold_left parse_line lines [].
Proof.
  intros Hne Hl Hu. unfold with_preamble.
  rewrite preamble_body by (now apply lines_unmarked).
  now rewrite split_join.
Qed.

Lemma preamble_lines_witness :
  [py "name: demo"; py "# a comment"; py "description: 'A demo'"] <> [] /\
  Forall one_line [py "name: demo"; py "# a comment"; py "description: 'A demo'"] /\
  unmarked [py "name: demo"; py "# a comment"; py "description: 'A demo'"] /\
  extract_yaml_preamble_of
    (with_preamble [py "name: demo"; py "# a comment"; py "description: 'A demo'"]
                   (newline :: py "name: other"))
  = [(py "name", py "demo"); (py "description", py "A demo")].
Proof.
  assert (H1 : [py "name: demo"; py "# a comment"; py "description: 'A demo'"] <> [])
    by discriminate.
  assert (H2 : Forall one_line
                 [py "name: demo"; py "# a comment"; py "description: 'A demo'"])
    by (repeat constructor).
  assert (H3 : unmarked [py "name: demo"; py "# a comment"; py "description: 'A demo'"])
    by (repeat constructor).
  repeat (split; [assumption|]).
  exact (@preamble_lines _ (newline :: py "name: other") H1 H2 H3).
Defined.

(** X17. A text has metadata only if it starts with the line [---] and holds,
    further on, a line break followed by [---]. *)
Theorem preamble_shape (content : pystr) :
  extract_yaml_preamble_of content <> [] ->
  exists body rest, content = opening ++ body ++ closing ++ rest.
Proof.
  unfold extract_yaml_preamble_of, re_match. rewrite attempt_free.
  destruct (hd_error (run preamble_re (MState 0 content []))) as [m|] eqn:Hm;
    [|cbn; congruence].
  intros _. apply hd_error_in in Hm. unfold preamble_re in Hm.
  rewrite run_cat, run_bol in Hm. cbn [flat_map] in Hm. rewrite app_nil_r in Hm.
  rewrite run_cat, run_lit in Hm. cbn [Re.rest pos caps] in Hm.
  destruct (startswith content (py "---")) eqn:Hs; [|contradiction].
  cbn [flat_map] in Hm. rewrite app_nil_r in Hm.
  apply startswith_prefix in Hs.
  remember (skipn (List.length (py "---")) content) as s1 eqn:E1.
  rewrite run_cat in Hm. apply in_flat_map in Hm. destruct Hm as (m3 & H3 & Hm).
  cbn [run Re.rest] in H3. destruct s1 as [|c s2]; [contradiction|].
  destruct (eqc "010"%char c) eqn:Hc; [|contradiction].
  apply eqc_eq in Hc. subst c. destruct H3 as [<-|[]].
  rewrite run_cat in Hm. apply in_flat_map in Hm. destruct Hm as (m4 & H4 & Hm).
  rewrite run_grp in H4. apply in_map_iff in H4. destruct H4 as (m4' & <- & H4).
  rewrite run_rep_lazy in H4. cbn [Re.rest pos caps] in H4.
  apply in_rep_lazy in H4. destruct H4 as (body & Hb & _).
  change (Cat (Chr (eqc "010"%char)) (lit (py "---"))) with (lit closing) in Hm.
  rewrite run_lit in Hm. cbn [Re.rest] in Hm.
  destruct (startswith (Re.rest m4') closing) eqn:Hcl; [|contradiction].
  apply startswith_prefix in Hcl.
  exists body, (skipn (List.length closing) (Re.rest m4')).
  rewrite Hs, Hb, Hcl at 1. unfold opening. rewrite <- app_assoc. reflexivity.
Qed.

Lemma preamble_shape_witness :
  extract_yaml_preamble_of (BuildScenario.manifest_text (py "alpha")) <> [] /\
  exists body rest,
    BuildScenario.manifest_text (py "alpha") = opening ++ body ++ closing ++ rest.
Proof.
  assert (H : extract_yaml_preamble_of (BuildScenario.manifest_text (py "alpha")) <> [])
    by (vm_compute; discriminate).
  split; [exact H|].
  exact (preamble_shape _ H).
Defined.

(** *** Keys and values *)

Lemma eqs_eq (a : pystr) : forall b, eqs a b = true <-> a = b.
Proof.
  induction a as [|x a IH]; intros [|y b]; cbn [eqs]; split; try discriminate;
    try reflexivity.
  - intros H. apply andb_true_iff in H. destruct H as [H1 H2].
    apply eqc_eq in H1. apply IH in H2. now subst.
  - intros [= -> ->]. rewrite eqc_refl. now apply IH.
Qed.

Lemma eqs_neq (a b : pystr) : a <> b -> eqs a b = false.
Proof.
  intros Hn. destruct (eqs a b) eqn:E; [|reflexivity].
  apply eqs_eq in E. contradiction.
Qed.

Lemma md_get_set_same (k v : pystr) (md : metadata) :
  md_get k (md_set k v md) = Some v.
Proof.
  induction md as [|[k0 v0] md IH]; cbn [md_set md_get].
  - now rewrite (proj2 (eqs_eq k k) eq_refl).
  - destruct (eqs k0 k) eqn:E; cbn [md_get]; rewrite E; [reflexivity | exact IH].
Qed.

Lemma md_get_set_other (k k' v : pystr) (md : metadata) :
  k' <> k -> md_get k' (md_set k v md) = md_get k' md.
Proof.
  intros Hn. induction md as [|[k0 v0] md IH]; cbn [md_set md_get].
  - now rewrite eqs_neq by congruence.
  - destruct (eqs k0 k) eqn:E; cbn [md_get].
    + apply eqs_eq in E. subst k0. now rewrite eqs_neq by congruence.
    + now rewrite IH.
Qed.

Lemma md_set_fresh (k v : pystr) (md : metadata) :
  md_get k md = None -> md_set k v md = md ++ [(k, v)].
Proof.
  induction md as [|[k0 v0] md IH]; cbn [md_set md_get app]; [reflexivity|].
  destruct (eqs k0 k); [discriminate|]. intros Hg. now rewrite IH.
Qed.

Lemma md_get_app (k : pystr) (a b : metadata) :
  md_get k a = None -> md_get k (a ++ b) = md_get k b.
Proof.
  induction a as [|[k0 v0] a IH]; cbn [md_get app]; [reflexivity|].
  destruct (eqs k0 k); [discriminate | exact IH].
Qed.

Lemma split1_app (sep : ascii) (a b : pystr) :
  Forall (fun c => eqc c sep = false) a -> split1 sep (a ++ sep :: b) = Some (a, b).
Proof.
  induction 1 as [|c a Hc _ IH]; cbn [app split1].
  - now rewrite eqc_refl.
  - now rewrite Hc, IH.
Qed.

Lemma trimmed_last (v : pystr) :
  trimmed v -> v <> [] -> exists t c, v = t ++ [c] /\ isspace c = false.
Proof.
  intros Ht Hne. destruct (exists_last Hne) as (t & c & Hv).
  exists t, c. split; [exact Hv|].
  unfold trimmed in Ht. rewrite Hv in Ht. eapply strip_last; exact Ht.
Qed.

Lemma trimmed_first (v : pystr) :
  trimmed v -> v <> [] -> exists c t, v = c :: t /\ isspace c = false.
Proof.
  intros Ht Hne. destruct v as [|c t]; [congruence|].
  exists c, t. split; [reflexivity | eapply strip_first; exact Ht].
Qed.

(** The value of a line, after the colon, once trimmed. *)
Lemma strip_value (value : pystr) :
  trimmed value -> strip (rstrip_by isspace (" "%char :: value)) = value.
Proof.
  intros Ht. destruct value as [|c0 v0] eqn:Ev; [reflexivity|]. rewrite <- Ev in *.
  destruct (@trimmed_last value Ht ltac:(subst; discriminate)) as (t & c & Hv & Hc).
  rewrite Hv. change (" "%char :: t ++ [c]) with ((" "%char :: t) ++ [c]).
  rewrite rstrip_by_keep by assumption.
  unfold strip. cbn [app lstrip_by]. change (isspace " "%char) with true. cbv iota.
  rewrite <- Hv. exact Ht.
Qed.

(** A line [key: value] sets the key to the value, its quotes removed. *)
Lemma parse_line_set (md : metadata) (key value : pystr) :
  plain_key key -> trimmed value ->
  parse_line md (pair_line (key, value)) = md_set key (unquote value) md.
Proof.
  intros (Hne & Htk & _ & Hcolon & Hhash & _) Htv.
  destruct (trimmed_first Htk Hne) as (c & t & Hk & Hc). subst key.
  assert (Hline : strip (pair_line ((c :: t) : pystr, value))
                  = (c :: t) ++ ":"%char :: rstrip_by isspace (" "%char :: value)).
  { unfold pair_line, strip. cbn [fst snd app lstrip_by]. rewrite Hc.
    change (c :: t ++ py ": " ++ value) with ((c :: t) ++ ":"%char :: " "%char :: value).
    now rewrite rstrip_by_app_keep by reflexivity. }
  assert (Hh : eqc c "#"%char = false).
  { cbn [startswith py list_ascii_of_string] in Hhash.
    unfold eqc in *. rewrite Ascii.eqb_sym.
    destruct (Ascii.eqb "#"%char c); [|reflexivity]. destruct t; discriminate Hhash. }
  unfold parse_line. rewrite Hline, split1_app by assumption.
  cbn [app]. rewrite Hh.
  unfold trimmed in Htk. now rewrite Htk, strip_value.
Qed.

(** X19. After a line [key: value] the key has the value, its quotes removed,
    whatever it had before, and every other key has what it had. *)
Theorem parse_line_pair (md : metadata) (key value : pystr) :
  plain_key key -> trimmed value ->
  md_get key (parse_line md (pair_line (key, value))) = Some (unquote value) /\
  forall k, k <> key ->
            md_get k (parse_line md (pair_line (key, value))) = md_get k md.
Proof.
  intros Hk Hv. rewrite (parse_line_set md Hk Hv). split.
  - apply md_get_set_same.
  - intros k Hn. now apply md_get_set_other.
Qed.

Lemma parse_line_pair_witness :
  plain_key (py "name") /\ trimmed (py "'new'") /\
  md_get (py "name")
         (parse_line [(py "name", py "old"); (py "description", py "kept")]
                     (py "name: 'new'"))
  = Some (py "new").
Proof.
  assert (H1 : plain_key (py "name")).
  { repeat split; try discriminate; repeat constructor. }
  assert (H2 : trimmed (py "'new'")) by reflexivity.
  split; [exact H1|]. split; [exact H2|].
  exact (proj1 (@parse_line_pair [(py "name", py "old"); (py "description", py "kept")]
                  (py "name") (py "'new'") H1 H2)).
Defined.

Lemma inner_quoted (q : ascii) (v : pystr) : inner (q :: v ++ [q]) = v.
Proof.
  unfold inner, slice. cbn [List.length skipn]. rewrite length_app. cbn [List.length].
  replace (S (List.length v + 1) - 1 - 1) with (List.length v) by lia.
  rewrite firstn_app, firstn_all, Nat.sub_diag. cbn [firstn]. apply app_nil_r.
Qed.

Lemma endswith_quoted (q : ascii) (v : pystr) : endswith (q :: v ++ [q]) [q] = true.
Proof.
  unfold endswith. cbn [rev]. rewrite rev_app_distr. cbn [rev app startswith].
  now rewrite eqc_refl, startswith_nil.
Qed.

(** X20. A value between two double quotes, or between two single quotes,
    loses them, and only them; a value that starts with no quote is kept as
    it is. *)
Theorem unquote_cases :
  (forall v, unquote (quote :: v ++ [quote]) = v) /\
  (forall v, unquote (apostrophe :: v ++ [apostrophe]) = v) /\
  (forall v, startswith v [quote] = false -> startswith v [apostrophe] = false ->
             unquote v = v).
Proof.
  split; [|split].
  - intros v. unfold unquote. rewrite endswith_quoted. cbn [startswith].
    rewrite eqc_refl, startswith_nil. cbn [andb]. apply inner_quoted.
  - intros v. unfold unquote. rewrite endswith_quoted. cbn [startswith].
    change (eqc quote apostrophe) with false.
    rewrite eqc_refl, startswith_nil. cbn [andb].
    apply inner_quoted.
  - intros v H1 H2. unfold unquote. now rewrite H1, H2.
Qed.

Lemma unquote_cases_witness :
  startswith (py "it's") [quote] = false /\
  startswith (py "it's") [apostrophe] = false /\
  unquote (py "it's") = py "it's".
Proof.
  assert (H1 : startswith (py "it's") [quote] = false) by reflexivity.
  assert (H2 : startswith (py "it's") [apostrophe] = false) by reflexivity.
  split; [exact H1|]. split; [exact H2|].
  exact (proj2 (proj2 unquote_cases) (py "it's") H1 H2).
Defined.

Lemma fold_parse_pairs (kvs : list (pystr * pystr)) :
  Forall (fun kv => plain_key (fst kv) /\ plain_value (snd kv)) kvs ->
  NoDup (map fst kvs) ->
  forall md,
    (forall k, In k (map fst kvs) -> md_get k md = None) ->
    fold_left parse_line (map pair_line kvs) md
    = md ++ map (fun kv => (fst kv, unquote (snd kv))) kvs.
Proof.
  induction 1 as [|[k v] kvs [Hk [Hv _]] _ IH]; intros Hnd md Hfresh.
  - cbn. now rewrite app_nil_r.
  - cbn [map fold_left fst snd] in *. inversion Hnd as [|? ? Hnin Hnd']; subst.
    rewrite (parse_line_set md Hk Hv), md_set_fresh by (apply Hfresh; now left).
    rewrite IH; [now rewrite <- app_assoc | exact Hnd' |].
    intros k' Hin. rewrite md_get_app by (apply Hfresh; now right).
    cbn [md_get]. rewrite eqs_neq; [reflexivity|].
    intros ->. contradiction.
Qed.

Lemma pair_line_one_line (k v : pystr) :
  one_line k -> one_line v -> one_line (pair_line (k, v)).
Proof.
  intros Hk Hv. unfold pair_line, one_line. cbn [fst snd].
  apply Forall_app. split; [exact Hk|].
  apply Forall_app. split; [repeat constructor | exact Hv].
Qed.

Lemma pair_line_unmarked (k v : pystr) :
  startswith k (py "---") = false -> startswith (pair_line (k, v)) (py "---") = false.
Proof.
  intros Hk. unfold pair_line. cbn [fst snd].
  change (py ": " ++ v) with (":"%char :: " "%char :: v).
  now apply not_marker_ext.
Qed.




(** X21. A preamble written with one line [key: value] for each pair reads
    back as the pairs, in order, each value without its quotes, when the
    keys are distinct; what follows the preamble makes no difference. *)
Theorem preamble_round_trip (kvs : list (pystr * pystr)) (rest : pystr) :
  Forall (fun kv => plain_key (fst kv) /\ plain_value (snd kv)) kvs ->
  NoDup (map fst kvs) ->
  extract_yaml_preamble_of (with_preamble (map pair_line kvs) rest)
  = map (fun kv => (fst kv, unquote (snd kv))) kvs.
Proof.
  intros Hall Hnd. destruct kvs as [|kv kvs].
  - unfold with_preamble. cbn [map join].
    rewrite preamble_body; [reflexivity|].
    intros p q Hpq Hq. symmetry in Hpq. apply app_eq_nil in Hpq.
    destruct Hpq as [_ ->]. congruence.
  - rewrite preamble_lines_aux.
    + now rewrite (fold_parse_pairs Hall Hnd []).
    + discriminate.
    + apply Forall_map. apply Forall_impl with (2 := Hall).
      intros [k v] [(_ & _ & Hk & _) [_ Hv]]. now apply pair_line_one_line.
    + unfold unmarked. cbn [map tl]. apply Forall_map.
      inversion Hall as [|? ? _ Hall']; subst.
      apply Forall_impl with (2 := Hall').
      intros [k v] [(_ & _ & _ & _ & _ & Hk) _]. now apply pair_line_unmarked.
Qed.

Lemma preamble_round_trip_witness :
  Forall (fun kv => plain_key (fst kv) /\ plain_value (snd kv))
         [(py "name", py "demo"); (py "description", py "A demo: the first")] /\
  NoDup (map fst [(py "name", py "demo"); (py "description", py "A demo: the first")]) /\
  extract_yaml_preamble_of
    (with_preamble
       (map pair_line [(py "name", py "demo"); (py "description", py "A demo: the first")])
       (newline :: py "# Demo"))
  = [(py "name", py "demo"); (py "description", py "A demo: the first")].
Proof.
  assert (H1 : Forall (fun kv => plain_key (fst kv) /\ plain_value (snd kv))
                 [(py "name", py "demo"); (py "description", py "A demo: the first")]).
  { repeat constructor; try discriminate. }
  assert (H2 : NoDup (map fst [(py "name", py "demo");
                               (py "description", py "A demo: the first")])).
  { repeat constructor; cbn; intuition discriminate. }
  split; [exact H1|]. split; [exact H2|].
  exact (@preamble_round_trip _ (newline :: py "# Demo") H1 H2).
Defined.

End ManifestFacts.

(** ** The package builder *)

Module BuildFacts.

Import ManifestFacts Render ManifestSpec BuildSkills BuildSpec BuildRecords.







Lemma attempts_app (P : Type) (a b : list (op P)) :
  attempts (a ++ b) = attempts a ++ attempts b.
Proof. unfold attempts. apply flat_map_app. Qed.


Section Discovery.

Context {F : FileSystem}.

Lemma shallow_cons root_dir (e : pystr) (entries : list pystr) (o : op path) :
  shallow root_dir entries o -> shallow root_dir (e :: entries) o.
Proof. intros (x & Hx & Ho). exists x. split; [now right | exact Ho]. Qed.

Lemma shallow_here root_dir (e : pystr) (entries : list pystr) (o : op path) :
  o = OpIsdir (child root_dir e) \/
  o = OpExists (manifest (child root_dir e)) \/
  o = OpRead (manifest (child root_dir e)) ->
  shallow root_dir (e :: entries) o.
Proof. intros Ho. exists e. split; [now left | exact Ho]. Qed.




(** One turn of the loop that goes on to the next entry. *)
Lemma found_step root_dir (e : pystr) (entries : list pystr)
    (skills skills1 : list (skill path)) (s s1 : state)
    (r : res (list (skill path)) * state) (os1 : list (op path))
    (warned : list pystr) :
  unreadable root_dir (files s) e = false ->
  files s1 = files s -> out s1 = out s ->
  ops s1 = ops s ++ os1 -> Forall (shallow root_dir [e]) os1 ->
  err s1 = err s ++ warned ->
  skills1 ++ map (record_of root_dir (files s))
                 (filter (is_skill root_dir (files s)) entries)
  = skills ++ map (record_of root_dir (files s))
                  (filter (is_skill root_dir (files s)) (e :: entries)) ->
  warned = map (fun e => warn_missing_name (manifest (child root_dir e)))
               (filter (is_nameless root_dir (files s)) [e]) ->
  found root_dir entries skills1 s1 r ->
  found root_dir (e :: entries) skills s r.
Proof.
  intros Hu Hf Ho Hops Hsh Herr Hsk Hw (R1 & R2 & R3 & R4 & os & R5 & R6).
  rewrite Hf in *. unfold found. cbn [existsb reached]. rewrite Hu. cbn [orb].
  repeat split.
  - rewrite R1. destruct (existsb _ entries); [reflexivity|]. now rewrite Hsk.
  - assumption.
  - now rewrite R3.
  - rewrite R4, Herr, <- app_assoc, Hw, <- map_app.
    change (e :: reached root_dir (files s) entries)
      with ([e] ++ reached root_dir (files s) entries).
    now rewrite filter_app.
  - exists (os1 ++ os). split; [now rewrite R5, Hops, app_assoc|].
    apply Forall_app. split.
    + eapply Forall_impl; [|exact Hsh]. intros o (x & [<-|[]] & Hx).
      now apply shallow_here.
    + eapply Forall_impl; [|exact R6]. intros o. apply shallow_cons.
Qed.

Ltac step_side Hd :=
  first
    [ reflexivity
    | repeat (constructor; [apply shallow_here; tauto|]); constructor
    | cbn [ops log files out err]; rewrite <- ?app_assoc; reflexivity
    | cbn [ops log files out err]; rewrite ?app_nil_r; reflexivity ].

(** The loop of [find_skills]. *)
Lemma find_loop_found root_dir (entries : list pystr) :
  forall skills s, found root_dir entries skills s (find_loop root_dir entries skills s).
Proof.
  induction entries as [|e entries IH]; intros skills s.
  - cbn [find_loop]. unfold found, ret. cbn [fst snd filter map existsb reached].
    rewrite !app_nil_r. repeat split. exists []. now rewrite app_nil_r.
  - cbn [find_loop]. unfold bind at 1. unfold do_isdir at 1.
    set (p := child root_dir e). set (m := manifest p).
    destruct (isdir p (files s)) eqn:Hd; cbn [negb orb].
    2:{ eapply found_step with (os1 := [OpIsdir p]) (warned := []);
          only 9: apply IH; subst p m.
        all: try (cbn [filter]; unfold unreadable, is_skill, is_nameless, candidate;
                  rewrite Hd; cbn [andb negb]).
        all: step_side Hd. }
    destruct (is_hidden e) eqn:Hh.
    { eapply found_step with (os1 := [OpIsdir p]) (warned := []);
        only 9: apply IH; subst p m.
      all: try (cbn [filter]; unfold unreadable, is_skill, is_nameless, candidate;
                rewrite Hd, Hh; cbn [andb negb]).
      all: step_side Hd. }
    destruct (is_excluded e) eqn:Hx.
    { eapply found_step with (os1 := [OpIsdir p]) (warned := []);
        only 9: apply IH; subst p m.
      all: try (cbn [filter]; unfold unreadable, is_skill, is_nameless, candidate;
                rewrite Hd, Hh, Hx; cbn [andb negb]).
      all: step_side Hd. }
    unfold bind at 1. unfold do_exists at 1. cbn [files log].
    fold m. destruct (exists_ m (files s)) eqn:He; cbn [negb].
    2:{ eapply found_step with (os1 := [OpIsdir p; OpExists m]) (warned := []);
          only 9: apply IH; subst p m.
        all: try (cbn [filter]; unfold unreadable, is_skill, is_nameless, candidate;
                  rewrite Hd, Hh, Hx, He; cbn [andb negb]).
        all: step_side Hd. }
    assert (Hc : candidate root_dir (files s) e = true).
    { unfold candidate. fold p m. now rewrite Hd, Hh, Hx, He. }
    unfold bind at 1. unfold extract_yaml_preamble, bind at 1, do_read at 1.
    cbn [files log].
    destruct (read_text m (files s)) as [content|] eqn:Hr.
    2:{ assert (Hu : unreadable root_dir (files s) e = true).
        { unfold unreadable. rewrite Hc. subst p m. now rewrite Hr. }
        assert (Hnl : is_nameless root_dir (files s) e = false).
        { unfold is_nameless, metadata_of. rewrite Hc. subst p m. now rewrite Hr. }
        unfold found. cbn [fst snd existsb reached files out err ops log].
        rewrite Hu. cbn [orb filter]. rewrite Hnl. cbn [map]. rewrite app_nil_r.
        repeat split.
        exists [OpIsdir p; OpExists m; OpRead m].
        split; [now rewrite <- !app_assoc|].
        subst p m. repeat (constructor; [apply shallow_here; tauto|]). constructor. }
    unfold ret at 1.
    assert (Hmd : metadata_of root_dir (files s) e
                  = Some (extract_yaml_preamble_of content)).
    { unfold metadata_of. subst p m. now rewrite Hr. }
    assert (Hu : unreadable root_dir (files s) e = false).
    { unfold unreadable. rewrite Hc. subst p m. now rewrite Hr. }
    assert (Hsh : Forall (shallow root_dir [e]) [OpIsdir p; OpExists m; OpRead m]).
    { subst p m. repeat (constructor; [apply shallow_here; tauto|]). constructor. }
    destruct (md_get (py "name") (extract_yaml_preamble_of content)) as [n|] eqn:Hn.
    + assert (Hs : is_skill root_dir (files s) e = true).
      { unfold is_skill, md_has. now rewrite Hc, Hmd, Hn. }
      assert (Hnl : is_nameless root_dir (files s) e = false).
      { unfold is_nameless, md_has. now rewrite Hc, Hmd, Hn. }
      assert (Hrec : record_of root_dir (files s) e
                     = Skill n
                             match md_get (py "description")
                                          (extract_yaml_preamble_of content) with
                             | Some d => d
                             | None => []
                             end p).
      { unfold record_of. rewrite Hmd, Hn. reflexivity. }
      eapply found_step with (os1 := [OpIsdir p; OpExists m; OpRead m]) (warned := []);
        [exact Hu | | | | exact Hsh | | | | apply IH].
      * reflexivity.
      * reflexivity.
      * cbn [ops log]. now rewrite <- !app_assoc.
      * cbn [err log]. now rewrite app_nil_r.
      * cbn [filter]. rewrite Hs. cbn [map]. rewrite Hrec, <- app_assoc. reflexivity.
      * cbn [filter]. now rewrite Hnl.
    + assert (Hs : is_skill root_dir (files s) e = false).
      { unfold is_skill, md_has. now rewrite Hc, Hmd, Hn. }
      assert (Hnl : is_nameless root_dir (files s) e = true).
      { unfold is_nameless, md_has. now rewrite Hc, Hmd, Hn. }
      unfold bind at 1, print_err at 1.
      eapply found_step with (os1 := [OpIsdir p; OpExists m; OpRead m])
                             (warned := [warn_missing_name m]);
        [exact Hu | | | | exact Hsh | | | | apply IH].
      * reflexivity.
      * reflexivity.
      * cbn [ops log]. now rewrite <- !app_assoc.
      * reflexivity.
      * cbn [filter]. now rewrite Hs.
      * cbn [filter]. now rewrite Hnl.
Qed.

(** What [find_skills] returns and does. *)
Lemma find_skills_found (root_dir : path) (s : state) :
  let r := find_skills root_dir s in
  let f := files s in
  files (snd r) = f /\ out (snd r) = out s /\
  match listdir root_dir f with
  | None =>
      fst r = Raise /\ err (snd r) = err s /\
      ops (snd r) = ops s ++ [OpListdir root_dir]
  | Some entries =>
      fst r = discovered root_dir f entries /\
      err (snd r) = err s ++ map (fun e => warn_missing_name (manifest (child root_dir e)))
                                 (filter (is_nameless root_dir f)
                                         (reached root_dir f entries)) /\
      exists os,
        ops (snd r) = ops s ++ OpListdir root_dir :: os /\
        Forall (shallow root_dir (reached root_dir f entries)) os
  end.
Proof.
  cbv zeta. unfold find_skills, bind, do_listdir.
  destruct (listdir root_dir (files s)) as [entries|] eqn:Hl.
  2:{ cbn [fst snd files out err ops log]. repeat split. }
  pose proof (find_loop_found root_dir entries [] (log (OpListdir root_dir) s))
    as (R1 & R2 & R3 & R4 & os & R5 & R6).
  cbn [files out err ops log] in *.
  destruct (find_loop root_dir entries [] (log (OpListdir root_dir) s))
    as [[skills|] s'];
    cbn [fst snd ret] in *; unfold discovered;
    destruct (existsb (unreadable root_dir (files s)) entries); try discriminate.
  - injection R1 as ->. cbn [app].
    repeat split; try assumption.
    exists os. split; [|exact R6]. rewrite R5. now rewrite <- app_assoc.
  - repeat split; try assumption.
    exists os. split; [|exact R6]. rewrite R5. now rewrite <- app_assoc.
Qed.

(** The result of [find_skills] is a function of the files. *)
Lemma find_skills_result (root_dir : path) (s : state) :
  fst (find_skills root_dir s)
  = match listdir root_dir (files s) with
    | Some entries => discovered root_dir (files s) entries
    | None => Raise
    end.
Proof.
  destruct (find_skills_found root_dir s) as (_ & _ & H). cbv zeta in H.
  destruct (listdir root_dir (files s)); tauto.
Qed.


End Discovery.

Section Claims.

Context {F : FileSystem}.







End Claims.

Section Archives.

Context {F : FileSystem}.

Lemma zip_op_cons root_dir (k : skill path) (ks : list (skill path)) (o : op path) :
  zip_op root_dir ks o -> zip_op root_dir (k :: ks) o.
Proof. intros Ho. destruct Ho; constructor; now right. Qed.

Lemma attempts_zip_check root_dir (k : skill path) (ok : bool) :
  attempts [OpExists (zip_of root_dir k)] = [] /\
  attempts [OpExists (zip_of root_dir k); OpUnlink (zip_of root_dir k) ok] = [].
Proof. split; reflexivity. Qed.

Lemma writes_zip_ops root_dir (skills : list (skill path)) (os : list (op path)) :
  Forall (zip_op root_dir skills) os -> writes os = [].
Proof.
  induction 1 as [|o os Ho _ IH]; [reflexivity|]. destruct Ho; exact IH.
Qed.

Lemma Archived_cons root_dir (k : skill path) (ks : list (skill path))
    (e : ending path) (att : list attempt) :
  Archived root_dir ks e att ->
  Archived root_dir (k :: ks) e (attempt_of root_dir Done k :: att).
Proof.
  destruct e as [|k' msg|k']; cbn [Archived].
  - intros ->. reflexivity.
  - intros (before & after & -> & ->). exists (k :: before), after. split; reflexivity.
  - intros (before & after & -> & ->). exists (k :: before), after. split; reflexivity.
Qed.

(** One turn of the loop of [create_skill_zips]. *)
Lemma create_skill_zips_step (root_dir : path) (k : skill path)
    (ks : list (skill path)) (s : state) :
  create_skill_zips root_dir (k :: ks) s =
  let z := zip_of root_dir k in
  let s1 := State (files s) (out s ++ [py "Creating " ++ path_name z ++ py "..."])
                  (err s) (ops s ++ [OpExists z]) in
  let build (s2 : state) :=
    match make_archive (archive_base root_dir k) (archive_root k) (archive_dir k)
                       (files s2) with
    | (Done, f') =>
        create_skill_zips root_dir ks
          (State f' (out s2 ++ [py "  Created: " ++ path_name z]) (err s2)
                 (ops s2 ++ [OpMakeArchive (archive_base root_dir k) (archive_root k)
                                           (archive_dir k) Done]))
    | (Error msg, f') =>
        (Ret false,
         State f' (out s2) (err s2 ++ [zip_error k msg])
               (ops s2 ++ [OpMakeArchive (archive_base root_dir k) (archive_root k)
                                         (archive_dir k) (Error msg)]))
    end in
  if exists_ z (files s) then
    match unlink z (files s) with
    | (true, f1) => build (State f1 (out s1) (err s1) (ops s1 ++ [OpUnlink z true]))
    | (false, f1) => (Raise, State f1 (out s1) (err s1) (ops s1 ++ [OpUnlink z false]))
    end
  else build s1.
Proof.
  cbn [create_skill_zips].
  unfold bind, print, do_exists, do_unlink, do_make_archive, print_err, ret, log.
  cbn [files out err ops].
  destruct (exists_ (zip_of root_dir k) (files s)); cbn [files out err ops].
  - destruct (unlink (zip_of root_dir k) (files s)) as [[|] f1];
      cbn [files out err ops]; [|reflexivity].
    destruct (make_archive _ _ _ _) as [[|msg] f']; reflexivity.
  - destruct (make_archive _ _ _ _) as [[|msg] f']; reflexivity.
Qed.

(** The loop of [create_skill_zips]. *)
Lemma create_skill_zips_run (root_dir : path) (skills : list (skill path)) :
  forall s,
    let r := create_skill_zips root_dir skills s in
    exists os e,
      ops (snd r) = ops s ++ os /\
      Forall (zip_op root_dir skills) os /\
      Archived root_dir skills e (attempts os) /\
      match e with
      | AllMade => fst r = Ret true /\ err (snd r) = err s
      | FailedAt k msg =>
          fst r = Ret false /\ err (snd r) = err s ++ [zip_error k msg]
      | StoppedAt k =>
          fst r = Raise /\ err (snd r) = err s /\
          exists before, os = before ++ [OpUnlink (zip_of root_dir k) false]
      end.
Proof.
  induction skills as [|k ks IH]; intros s r; subst r.
  - exists [], AllMade. cbn. rewrite app_nil_r. repeat split; constructor.
  - rewrite create_skill_zips_step. cbv zeta.
    set (z := zip_of root_dir k).
    set (s1 := State (files s) _ (err s) (ops s ++ [OpExists z])).
    assert (Hin : In k (k :: ks)) by now left.
    assert (Hz1 : zip_op root_dir (k :: ks) (OpExists z)) by now constructor.
    assert (Hbuild : forall s2 pre,
               ops s2 = ops s ++ pre -> err s2 = err s -> attempts pre = [] ->
               Forall (zip_op root_dir (k :: ks)) pre ->
               let r :=
                 match make_archive (archive_base root_dir k) (archive_root k)
                                    (archive_dir k) (files s2) with
                 | (Done, f') =>
                     create_skill_zips root_dir ks
                       (State f' (out s2 ++ [py "  Created: " ++ path_name z]) (err s2)
                              (ops s2 ++ [OpMakeArchive (archive_base root_dir k)
                                            (archive_root k) (archive_dir k) Done]))
                 | (Error msg, f') =>
                     (Ret false,
                      State f' (out s2) (err s2 ++ [zip_error k msg])
                            (ops s2 ++ [OpMakeArchive (archive_base root_dir k)
                                          (archive_root k) (archive_dir k) (Error msg)]))
                 end in
               exists os e,
                 ops (snd r) = ops s ++ os /\
                 Forall (zip_op root_dir (k :: ks)) os /\
                 Archived root_dir (k :: ks) e (attempts os) /\
                 match e with
                 | AllMade => fst r = Ret true /\ err (snd r) = err s
                 | FailedAt k msg =>
                     fst r = Ret false /\ err (snd r) = err s ++ [zip_error k msg]
                 | StoppedAt k =>
                     fst r = Raise /\ err (snd r) = err s /\
                     exists before, os = before ++ [OpUnlink (zip_of root_dir k) false]
                 end).
    { intros s2 pre Hops Herr Hatt Hpre. cbv zeta.
      destruct (make_archive _ _ _ (files s2)) as [[|msg] f'].
      - match goal with |- context [create_skill_zips root_dir ks ?s3] =>
          destruct (IH s3) as (os & e & H1 & H2 & H3 & H4); cbn [ops err] in H1, H4
        end.
        exists (pre ++ OpMakeArchive (archive_base root_dir k) (archive_root k)
                                     (archive_dir k) Done :: os), e.
        split; [rewrite H1, Hops, <- !app_assoc; reflexivity|].
        split.
        { apply Forall_app. split; [exact Hpre|].
          constructor; [now constructor|].
          apply Forall_impl with (2 := H2). apply zip_op_cons. }
        split.
        { rewrite attempts_app, Hatt. cbn [app attempts flat_map].
          exact (@Archived_cons root_dir k ks e (attempts os) H3). }
        destruct e as [|k' msg|k']; rewrite <- Herr; try exact H4.
        destruct H4 as (H5 & H6 & before & ->).
        split; [exact H5|]. split; [exact H6|].
        exists (pre ++ OpMakeArchive (archive_base root_dir k) (archive_root k)
                                     (archive_dir k) Done :: before).
        now rewrite <- app_assoc.
      - cbn [fst snd files out err ops].
        exists (pre ++ [OpMakeArchive (archive_base root_dir k) (archive_root k)
                                      (archive_dir k) (Error msg)]),
               (FailedAt k msg).
        split; [now rewrite Hops, <- app_assoc|].
        split.
        { apply Forall_app. split; [exact Hpre|].
          constructor; [now constructor | constructor]. }
        split.
        { rewrite attempts_app, Hatt. cbn [app attempts flat_map Archived].
          exists [], ks. split; reflexivity. }
        split; [reflexivity | now rewrite Herr]. }
    destruct (exists_ z (files s)).
    + destruct (unlink z (files s)) as [[|] f1].
      * apply Hbuild with (pre := [OpExists z; OpUnlink z true]).
        -- cbn [ops]. subst s1. cbn [ops]. now rewrite <- app_assoc.
        -- reflexivity.
        -- reflexivity.
        -- repeat constructor; assumption.
      * cbn [fst snd files out err ops]. subst s1. cbn [ops out err].
        exists [OpExists z; OpUnlink z false], (StoppedAt k).
        split; [now rewrite <- app_assoc|].
        split; [repeat constructor; assumption|].
        split; [exists [], ks; split; reflexivity|].
        split; [reflexivity|]. split; [reflexivity|].
        exists [OpExists z]. reflexivity.
    + apply Hbuild with (pre := [OpExists z]).
      * reflexivity.
      * reflexivity.
      * reflexivity.
      * repeat constructor; assumption.
Qed.

End Archives.

Section Build.

Context {F : FileSystem}.



End Build.

Lemma readme_entries (P : Type) (skills1 : list (skill P)) :
  forall skills2 : list (skill P),
    map (@name P) skills1 = map (@name P) skills2 ->
    map (@description P) skills1 = map (@description P) skills2 ->
    flat_map readme_entry skills1 = flat_map readme_entry skills2.
Proof.
  induction skills1 as [|a l IH]; intros [|b l'] Hn Hd; simpl in *;
    try discriminate; [reflexivity|].
  injection Hn as Hn1 Hn. injection Hd as Hd1 Hd.
  rewrite (IH l' Hn Hd). unfold readme_entry. now rewrite Hn1, Hd1.
Qed.

(** C8. The listing is a function of the names and the descriptions of
    the skills, in their order, and of nothing else: two calls on skill
    sequences with the same names and descriptions return the same
    document, whatever the root directory and the paths of the skills; the
    generator takes no state and returns none. *)
Theorem generate_readme_pure (P : Type) (root1 root2 : P)
    (skills1 skills2 : list (skill P)) :
  map (@name P) skills1 = map (@name P) skills2 ->
  map (@description P) skills1 = map (@description P) skills2 ->
  generate_readme root1 skills1 = generate_readme root2 skills2.
Proof.
  intros Hn Hd. unfold generate_readme. now rewrite (@readme_entries P skills1 skills2 Hn Hd).
Qed.

End BuildFacts.

(** ** The builder on the scripted file system *)

Module BuildRuns.

Import Render ManifestSpec BuildSkills BuildSpec BuildRecords BuildFacts BuildScenario.

Example discovery_result :
  fst (find_skills (F := scripted_fs fine) root (start fine)) = Ret three /\
  map string_of_list_ascii
      (err (snd (find_skills (F := scripted_fs fine) root (start fine))))
  = ["Warning: repo/draft/SKILL.md missing 'name' field"%string].
Proof. split; vm_compute; reflexivity. Qed.

Example build_succeeds :
  fst (main (F := scripted_fs fine) root (start fine)) = 0%Z /\
  map string_of_list_ascii (files (snd (main (F := scripted_fs fine) root (start fine))))
  = ["repo/README.md"; "repo/gamma.zip"; "repo/beta.zip"; "repo/alpha.zip"]%string.
Proof. split; vm_compute; reflexivity. Qed.

(** When the archive of [beta] fails, the one of [alpha] is made and the
    one of [gamma] is not attempted. *)
Example build_fails :
  let r := main (F := scripted_fs failing) root (start failing) in
  fst r = 1%Z /\
  map (fun a => (string_of_list_ascii (fst (fst (fst a))), is_failure a))
      (attempts (ops (snd r)))
  = [("repo/alpha"%string, false); ("repo/beta"%string, true)] /\
  map string_of_list_ascii (err (snd r))
  = ["Warning: repo/draft/SKILL.md missing 'name' field";
     "Error creating zip for beta: disk full"]%string.
Proof. repeat split; vm_compute; reflexivity. Qed.

(** An archive left by an earlier build is deleted before the new one is
    made. *)
Example old_archive_deleted :
  let s := State (F := scripted_fs fine) [py "repo/alpha.zip"] [] [] [] in
  let r := create_skill_zips (F := scripted_fs fine) root
             [Skill (py "alpha") [] (root ++ [py "alpha"])] s in
  fst r = Ret true /\
  ops (snd r) = [OpExists (root ++ [py "alpha.zip"]);
                 OpUnlink (root ++ [py "alpha.zip"]) true;
                 OpMakeArchive (py "repo/alpha") (py "repo") (py "alpha") Done].
Proof. split; vm_compute; reflexivity. Qed.

(** For a skill whose name is empty the builder looks for [repo/.zip],
    and the archive is built from that very path, which has no suffix to
    drop: the file made is [repo/.zip.zip]. *)
Example archive_of_empty_name :
  let r := create_skill_zips (F := scripted_fs fine) root [anonymous] (start fine) in
  ops (snd r) = [OpExists (root ++ [py ".zip"]);
                 OpMakeArchive (py "repo/.zip") (py "repo") (py "alpha") Done] /\
  map string_of_list_ascii (files (snd r)) = ["repo/.zip.zip"%string].
Proof. split; vm_compute; reflexivity. Qed.






Lemma generate_readme_pure_witness :
  map (@name _) three = map (@name _) three_elsewhere /\
  map (@description _) three = map (@description _) three_elsewhere /\
  generate_readme root three = generate_readme elsewhere three_elsewhere.
Proof.
  assert (Hn : map (@name _) three = map (@name _) three_elsewhere) by reflexivity.
  assert (Hd : map (@description _) three = map (@description _) three_elsewhere)
    by reflexivity.
  repeat (split; [assumption|]).
  exact (@generate_readme_pure _ root elsewhere three three_elsewhere Hn Hd).
Defined.

End BuildRuns.

(** ** More on the checklist parser *)

Module MarkdownMore.

Import PyFacts PyMore ReFacts Spec MarkdownFacts Render.

Lemma in_parse_markdown_tasks (content : pystr) (k : task) :
  In k (parse_markdown_tasks content) <->
  exists line t,
    In line (split newline content) /\ unchecked_item line t /\ k = titled t.
Proof.
  unfold parse_markdown_tasks. rewrite in_flat_map. split.
  - intros (line & Hin & Hk).
    destruct (line_title line) as [t|] eqn:Hl; [|contradiction].
    destruct Hk as [<-|[]]. exists line, t.
    repeat split; [assumption | now apply line_title_iff].
  - intros (line & t & Hin & Hi & ->). exists line. split; [assumption|].
    apply line_title_iff in Hi. rewrite Hi. now left.
Qed.

(** X5. Every task the parser returns has a title and nothing else; the title
    is not empty, has no white space at either end and holds no line
    break. *)
Theorem parse_markdown_tasks_titles (content : pystr) (k : task) :
  In k (parse_markdown_tasks content) ->
  exists t, k = titled t /\ t <> [] /\ trimmed t /\ one_line t.
Proof.
  intros Hk. apply in_parse_markdown_tasks in Hk.
  destruct Hk as (line & t & Hin & Hi & ->). exists t.
  split; [reflexivity|].
  assert (Hline : one_line line).
  { pose proof (split_pieces newline content) as Hp.
    rewrite Forall_forall in Hp. now apply Hp. }
  destruct Hi as [indent b sep1 x sep2 t trail _ _ _ _ _ _ _ Ht _].
  destruct (proj1 (solid_trimmed t) Ht) as [Hne Htr].
  split; [exact Hne|]. split; [exact Htr|].
  unfold one_line in Hline.
  apply Forall_app in Hline. destruct Hline as [_ Hline].
  apply Forall_inv_tail in Hline.
  apply Forall_app in Hline. destruct Hline as [_ Hline].
  do 3 apply Forall_inv_tail in Hline.
  apply Forall_app in Hline. destruct Hline as [_ Hline].
  apply Forall_app in Hline. now destruct Hline.
Qed.

Lemma parse_markdown_tasks_titles_witness :
  In (titled (py "Buy milk"))
     (parse_markdown_tasks (py "# To do" ++ [newline] ++ py "  * [ ]   Buy milk  ")) /\
  exists t, titled (py "Buy milk") = titled t /\ t <> [] /\ trimmed t /\ one_line t.
Proof.
  assert (Hin : In (titled (py "Buy milk"))
                   (parse_markdown_tasks
                      (py "# To do" ++ [newline] ++ py "  * [ ]   Buy milk  ")))
    by (vm_compute; left; reflexivity).
  split; [exact Hin|].
  exact (parse_markdown_tasks_titles _ _ Hin).
Defined.

(** X6. The tasks of two documents put one after the other, with a line break
    between them, are the tasks of the first followed by the tasks of the
    second. *)
Theorem parse_markdown_tasks_app (a b : pystr) :
  parse_markdown_tasks (a ++ newline :: b)
  = parse_markdown_tasks a ++ parse_markdown_tasks b.
Proof.
  unfold parse_markdown_tasks, newline. now rewrite split_app, flat_map_app.
Qed.

Lemma line_title_item (t : pystr) :
  t <> [] -> trimmed t -> line_title (py "- [ ] " ++ t) = Some t.
Proof.
  intros Hne Ht. apply line_title_iff.
  assert (Hb : blank (py " ")) by (repeat constructor).
  assert (Hs : solid t) by (apply solid_trimmed; now split).
  pose proof (@Unchecked [] "-"%char (py " ") " "%char (py " ") t []
                (Forall_nil _) eq_refl ltac:(discriminate) Hb eq_refl
                ltac:(discriminate) Hb Hs (Forall_nil _)) as Hi.
  rewrite app_nil_r in Hi. exact Hi.
Qed.

(** X7. A checklist written with one [- [ ]] item for each title reads back as
    the titles, in order, when every title is one non-empty line without
    white space at either end. *)
Theorem parse_markdown_tasks_checklist (titles : list pystr) :
  Forall (fun t => t <> [] /\ trimmed t /\ one_line t) titles ->
  parse_markdown_tasks (checklist titles) = map titled titles.
Proof.
  intros Hall. destruct titles as [|t0 ts]; [reflexivity|].
  unfold parse_markdown_tasks, checklist. fold newline.
  rewrite split_join.
  - induction Hall as [|t l (Hne & Ht & _) _ IH]; [reflexivity|].
    cbn [map flat_map]. rewrite (line_title_item Hne Ht). cbn [app].
    now rewrite IH.
  - discriminate.
  - apply Forall_map. apply Forall_impl with (2 := Hall).
    intros t (_ & _ & Hl). apply Forall_app. split; [|exact Hl].
    repeat constructor.
Qed.

Lemma parse_markdown_tasks_checklist_witness :
  Forall (fun t => t <> [] /\ trimmed t /\ one_line t)
         [py "Buy milk"; py "Walk the dog"] /\
  parse_markdown_tasks (checklist [py "Buy milk"; py "Walk the dog"])
  = map titled [py "Buy milk"; py "Walk the dog"].
Proof.
  assert (H : Forall (fun t => t <> [] /\ trimmed t /\ one_line t)
                     [py "Buy milk"; py "Walk the dog"]).
  { repeat constructor; try discriminate. }
  split; [exact H|].
  exact (parse_markdown_tasks_checklist H).
Defined.

End MarkdownMore.

(** ** More on the repository URL parser *)

Module UrlMore.

Import PyFacts PyMore ReFacts ReMore Spec UrlGeneral Render UrlSpec.

Lemma eol_one_line (m : mstate) :
  rest m <> [] -> one_line (rest m) -> run Eol m = [].
Proof.
  intros Hne Hl. cbn [run]. destruct (rest m) as [|c [|d s]];
    [congruence | | reflexivity].
  inversion Hl as [|? ? Hc _]; subst. unfold newline in Hc. now rewrite Hc.
Qed.

(** After a repository name that goes on, on the same line, neither
    [.git$] nor [$] matches. *)
Lemma suffix_one_line (m : mstate) :
  rest m <> [] -> rest m <> py ".git" -> one_line (rest m) -> run suffix_re m = [].
Proof.
  intros Hne Hg Hl. unfold suffix_re.
  rewrite run_cat, run_opt, flat_map_app. cbn [flat_map].
  rewrite (@eol_one_line m Hne Hl), app_nil_r.
  rewrite run_grp, run_lit.
  destruct (startswith (rest m) (py ".git")) eqn:Hs; [|reflexivity].
  cbn [map flat_map]. rewrite app_nil_r.
  apply startswith_prefix in Hs.
  apply eol_one_line; cbn [rest].
  - intros Hn. apply Hg. rewrite Hs, Hn. reflexivity.
  - rewrite Hs in Hl. apply Forall_app in Hl. apply Hl.
Qed.

Lemma suffix_at_git (pos : nat) (caps : list (nat * (nat * nat))) :
  run suffix_re (MState pos (py ".git") caps)
  = [MState (S (S (S (S pos)))) [] ((2, (pos, S (S (S (S pos))))) :: caps)].
Proof. reflexivity. Qed.

Lemma suffix_at_end (pos : nat) (caps : list (nat * (nat * nat))) :
  run suffix_re (MState pos [] caps) = [MState pos [] caps].
Proof. reflexivity. Qed.

(** The lazy repetition stops at the end of the name, or before a final
    [.git]. *)
Lemma lazy_any (t : pystr) :
  one_line t -> slash_free t ->
  forall pos caps p0,
  exists m p r,
    t = p ++ r /\ (r = [] \/ r = py ".git") /\
    hd_error (flat_map (run suffix_re)
                (map (close_group_1 p0) (rep_lazy notslash 0 caps pos t))) = Some m /\
    span_of 1 (Re.caps m) = Some (p0, pos + List.length p).
Proof.
  induction t as [|c t IH]; intros Hl Hs pos caps p0.
  - exists (MState pos [] ((1, (p0, pos)) :: caps)), [], [].
    split; [reflexivity|]. split; [now left|]. split; [reflexivity|].
    cbn. now rewrite Nat.add_0_r.
  - inversion Hl as [|? ? Hc Hl']; inversion Hs as [|? ? Hn Hs']; subst.
    cbn [rep_lazy Nat.eqb app map flat_map]. rewrite Hn. cbn [Nat.pred].
    destruct (list_eq_dec ascii_dec (c :: t) (py ".git")) as [E|E].
    + injection E as -> ->.
      exists (MState (S (S (S (S pos)))) []
                     ((2, (pos, S (S (S (S pos))))) :: (1, (p0, pos)) :: caps)),
             [], (py ".git").
      split; [reflexivity|]. split; [now right|]. split; [reflexivity|].
      cbn. now rewrite Nat.add_0_r.
    + rewrite suffix_one_line; [|discriminate|exact E|exact Hl].
      cbn [app].
      destruct (IH Hl' Hs' (S pos) caps p0) as (m & p & r & Ht & Hr & Hm & Hsp).
      exists m, (c :: p), r.
      split; [now rewrite Ht|]. split; [exact Hr|]. split; [exact Hm|].
      rewrite Hsp. cbn [List.length]. now rewrite Nat.add_succ_r.
Qed.

(** The pattern at the place where [github.com] starts, up to the second
    character of the repository name. *)
Lemma run_at_host (sep : ascii) (start : nat) (owner : pystr) (c : ascii) (x : pystr) :
  eqc sep slash || eqc sep ":"%char = true ->
  owner <> [] -> slash_free owner -> notslash c = true ->
  run https_re (MState start (py "github.com" ++ sep :: owner ++ slash :: c :: x) [])
  = flat_map (run suffix_re)
      (map (close_group_1 (start + 11))
           (rep_lazy notslash 0 [] (start + 11 + List.length owner + 2) x)).
Proof.
  intros Hsep Ho Hos Hc. unfold https_re.
  rewrite run_cat, run_lit. cbn [rest pos caps].
  rewrite startswith_app, skipn_length_app. cbn [flat_map]. rewrite app_nil_r.
  rewrite run_cat. cbn [app]. rewrite run_chr, Hsep.
  cbn [flat_map]. rewrite app_nil_r.
  rewrite run_cat, run_grp. unfold owner_repo_re. rewrite run_cat, run_rep_greedy.
  cbn [rest pos caps]. rewrite flat_map_rep_greedy.
  2:{ intros m d s' Hm Hd. exact (slash_rejected m Hm Hd). }
  rewrite (take_by_app _ _ Hos), (lstrip_by_app _ _ Hos).
  cbn [take_by lstrip_by]. change (notslash slash) with false. cbv iota.
  rewrite app_nil_r.
  destruct owner as [|o owner']; [congruence|]. cbn [List.length Nat.leb].
  rewrite run_cat, run_chr.
  change (eqc slash slash) with true. cbv iota. cbn [flat_map]. rewrite app_nil_r.
  rewrite run_rep_lazy. cbn [rest pos caps].
  cbn [rep_lazy Nat.eqb app Nat.pred]. rewrite Hc.
  change (Cat (Opt (Grp 2 (lit (py ".git")))) Eol) with suffix_re.
  match goal with
  | |- context [map ?f (rep_lazy notslash 0 ?cs ?p ?s)] =>
      change f with (close_group_1 (S (start + List.length (py "github.com"))))
  end.
  cbn [List.length py list_ascii_of_string].
  f_equal. f_equal; [f_equal; lia | f_equal; lia].
Qed.

Lemma attempt_host_any (sep : ascii) (start : nat) (owner repo : pystr) :
  eqc sep slash || eqc sep ":"%char = true ->
  owner <> [] -> slash_free owner ->
  repo <> [] -> slash_free repo -> one_line repo ->
  exists m p r,
    repo = p ++ r /\ (r = [] \/ r = py ".git") /\
    attempt https_re start (py "github.com" ++ sep :: owner ++ slash :: repo) false
    = Some m /\
    span_of 1 (caps m)
    = Some (start + 11, start + 11 + List.length owner + 1 + List.length p).
Proof.
  intros Hsep Ho Hos Hr Hrs Hrl.
  destruct repo as [|c x]; [congruence|].
  inversion Hrs as [|? ? Hc Hxs]; inversion Hrl as [|? ? _ Hxl]; subst.
  rewrite attempt_free, run_at_host by assumption.
  destruct (lazy_any Hxl Hxs (start + 11 + List.length owner + 2) [] (start + 11))
    as (m & p & r & Hx & Hrr & Hm & Hsp).
  exists m, (c :: p), r.
  split; [now rewrite Hx|]. split; [exact Hrr|]. split; [exact Hm|].
  rewrite Hsp. cbn [List.length]. f_equal. f_equal. lia.
Qed.

Lemma rstrip_dot_git (s r : pystr) :
  r = [] \/ r = py ".git" -> rstrip (py ".git") (s ++ r) = rstrip (py ".git") s.
Proof.
  intros [->| ->]; [now rewrite app_nil_r|].
  unfold rstrip. apply rstrip_by_app. repeat constructor.
Qed.

Lemma group_1_at (pre id r : pystr) (start : nat) (m : mstate) (e : nat) :
  span_of 1 (caps m) = Some (List.length pre, e) ->
  e = List.length pre + List.length id ->
  group (pre ++ id ++ r) (Match start m) 1 = Some id.
Proof.
  intros Hsp He. unfold group. cbn [m_end]. rewrite Hsp. cbn [option_map fst snd].
  f_equal. now apply slice_mid_at.
Qed.

Lemma parse_canonical_https (owner repo : pystr) :
  owner <> [] -> slash_free owner ->
  repo <> [] -> slash_free repo -> one_line repo ->
  _parse_github_url (py "https://github.com/" ++ owner ++ slash :: repo)
  = Some (rstrip (py ".git") (owner ++ slash :: repo)).
Proof.
  intros Ho Hos Hr Hrs Hrl.
  unfold _parse_github_url, re_search.
  destruct (attempt_host_any "/"%char 8 eq_refl Ho Hos Hr Hrs Hrl)
    as (m & p & r & Hrepo & Hend & Ha & Hsp).
  cbn [py list_ascii_of_string app] in Ha.
  set (url := py "https://github.com/" ++ owner ++ slash :: repo).
  assert (Hurl : url = py "https://github.com/" ++ (owner ++ slash :: p) ++ r).
  { unfold url. rewrite Hrepo, <- app_assoc. reflexivity. }
  unfold url at 1. cbn [py list_ascii_of_string app].
  do 8 skip_position.
  rewrite search_from_eq, Ha, Hurl.
  rewrite (@group_1_at (py "https://github.com/") (owner ++ slash :: p) r 8 m _ Hsp).
  + cbn [option_map]. f_equal.
    rewrite Hrepo. change (owner ++ slash :: p ++ r) with (owner ++ (slash :: p) ++ r).
    rewrite app_assoc. symmetry. now apply rstrip_dot_git.
  + rewrite length_app. cbn [List.length py list_ascii_of_string]. lia.
Qed.

Lemma parse_canonical_ssh (owner repo : pystr) :
  owner <> [] -> slash_free owner ->
  repo <> [] -> slash_free repo -> one_line repo ->
  _parse_github_url (py "git@github.com:" ++ owner ++ slash :: repo)
  = Some (rstrip (py ".git") (owner ++ slash :: repo)).
Proof.
  intros Ho Hos Hr Hrs Hrl.
  unfold _parse_github_url, re_search.
  destruct (attempt_host_any ":"%char 4 eq_refl Ho Hos Hr Hrs Hrl)
    as (m & p & r & Hrepo & Hend & Ha & Hsp).
  cbn [py list_ascii_of_string app] in Ha.
  set (url := py "git@github.com:" ++ owner ++ slash :: repo).
  assert (Hurl : url = py "git@github.com:" ++ (owner ++ slash :: p) ++ r).
  { unfold url. rewrite Hrepo, <- app_assoc. reflexivity. }
  unfold url at 1. cbn [py list_ascii_of_string app].
  do 4 skip_position.
  rewrite search_from_eq, Ha, Hurl.
  rewrite (@group_1_at (py "git@github.com:") (owner ++ slash :: p) r 4 m _ Hsp).
  + cbn [option_map]. f_equal.
    rewrite Hrepo. change (owner ++ slash :: p ++ r) with (owner ++ (slash :: p) ++ r).
    rewrite app_assoc. symmetry. now apply rstrip_dot_git.
  + rewrite length_app. cbn [List.length py list_ascii_of_string]. lia.
Qed.

(** X1. On [https://github.com/owner/repo] and on [git@github.com:owner/repo],
    for any owner and repository name, with the suffix [.git] or without,
    the parser returns [owner/repo] with every trailing [.], [g], [i] and
    [t] removed. *)
Theorem parse_github_url_canonical (owner repo : pystr) :
  owner <> [] -> slash_free owner ->
  repo <> [] -> slash_free repo -> one_line repo ->
  _parse_github_url (py "https://github.com/" ++ owner ++ slash :: repo)
  = Some (rstrip (py ".git") (owner ++ slash :: repo)) /\
  _parse_github_url (py "git@github.com:" ++ owner ++ slash :: repo)
  = Some (rstrip (py ".git") (owner ++ slash :: repo)).
Proof.
  intros Ho Hos Hr Hrs Hrl. split.
  - now apply parse_canonical_https.
  - now apply parse_canonical_ssh.
Qed.

Lemma parse_github_url_canonical_witness :
  py "cli" <> [] /\ slash_free (py "cli") /\
  py "git" <> [] /\ slash_free (py "git") /\ one_line (py "git") /\
  _parse_github_url (py "https://github.com/cli/git") = Some (py "cli/").
Proof.
  assert (H1 : py "cli" <> []) by discriminate.
  assert (H2 : slash_free (py "cli")) by (repeat constructor).
  assert (H3 : py "git" <> []) by discriminate.
  assert (H4 : slash_free (py "git")) by (repeat constructor).
  assert (H5 : one_line (py "git")) by (repeat constructor).
  repeat (split; [assumption|]).
  exact (proj1 (parse_github_url_canonical H1 H2 H3 H4 H5)).
Defined.

(** X2. The parser returns exactly [owner/repo], from the four forms of the
    remote, when the repository name ends with a character other than [.],
    [g], [i] and [t]. *)
Theorem parse_github_url_exact (owner name : pystr) (c : ascii) :
  owner <> [] -> slash_free owner ->
  slash_free (name ++ [c]) -> one_line (name ++ [c]) ->
  mem c (py ".git") = false ->
  let id := owner ++ slash :: name ++ [c] in
  _parse_github_url (py "https://github.com/" ++ id) = Some id /\
  _parse_github_url (py "https://github.com/" ++ id ++ py ".git") = Some id /\
  _parse_github_url (py "git@github.com:" ++ id) = Some id /\
  _parse_github_url (py "git@github.com:" ++ id ++ py ".git") = Some id.
Proof.
  intros Ho Hos Hrs Hrl Hc id.
  assert (Hr : name ++ [c] <> []) by (destruct name; discriminate).
  assert (Hk : rstrip (py ".git") id = id).
  { unfold rstrip, id.
    change (owner ++ slash :: name ++ [c]) with (owner ++ (slash :: name) ++ [c]).
    rewrite app_assoc. now apply rstrip_by_keep. }
  pose proof (parse_canonical_https Ho Hos Hr Hrs Hrl) as H1.
  pose proof (parse_canonical_ssh Ho Hos Hr Hrs Hrl) as H3.
  fold id in H1, H3. rewrite Hk in H1, H3.
  assert (Hr' : (name ++ [c]) ++ py ".git" <> []) by (destruct name; discriminate).
  assert (Hrs' : slash_free ((name ++ [c]) ++ py ".git")).
  { apply Forall_app. split; [exact Hrs | repeat constructor]. }
  assert (Hrl' : one_line ((name ++ [c]) ++ py ".git")).
  { apply Forall_app. split; [exact Hrl | repeat constructor]. }
  pose proof (parse_canonical_https Ho Hos Hr' Hrs' Hrl') as H2.
  pose proof (parse_canonical_ssh Ho Hos Hr' Hrs' Hrl') as H4.
  assert (Hid : owner ++ slash :: (name ++ [c]) ++ py ".git" = id ++ py ".git").
  { unfold id.
    now rewrite <- (app_assoc owner (slash :: name ++ [c]) (py ".git")). }
  rewrite Hid in H2, H4.
  rewrite (@rstrip_dot_git id (py ".git") (or_intror eq_refl)), Hk in H2, H4.
  repeat split; assumption.
Qed.

Lemma parse_github_url_exact_witness :
  py "acme" <> [] /\ slash_free (py "acme") /\
  slash_free (py "widget" ++ ["s"%char]) /\ one_line (py "widget" ++ ["s"%char]) /\
  mem "s"%char (py ".git") = false /\
  _parse_github_url (py "git@github.com:acme/widgets.git") = Some (py "acme/widgets").
Proof.
  assert (H1 : py "acme" <> []) by discriminate.
  assert (H2 : slash_free (py "acme")) by (repeat constructor).
  assert (H3 : slash_free (py "widget" ++ ["s"%char])) by (repeat constructor).
  assert (H4 : one_line (py "widget" ++ ["s"%char])) by (repeat constructor).
  assert (H5 : mem "s"%char (py ".git") = false) by reflexivity.
  repeat (split; [assumption|]).
  exact (proj2 (proj2 (proj2
           (@parse_github_url_exact (py "acme") (py "widget") "s"%char
                                    H1 H2 H3 H4 H5)))).
Defined.

(** *** What a match tells about the text *)

Lemma in_run_suffix (m0 m : mstate) :
  In m (run suffix_re m0) ->
  url_end (rest m0) /\ span_of 1 (caps m) = span_of 1 (caps m0).
Proof.
  unfold suffix_re. rewrite run_cat, run_opt. intros Hin.
  apply in_flat_map in Hin. destruct Hin as (m6 & H6 & H7).
  apply in_run_eol in H7. destruct H7 as [-> H7].
  apply in_app_or in H6. destruct H6 as [H6|H6].
  - rewrite run_grp, run_lit in H6.
    destruct (startswith (rest m0) (py ".git")) eqn:Hs; [|contradiction].
    cbn [map] in H6. destruct H6 as [<-|[]]. cbn [rest caps] in *.
    apply startswith_prefix in Hs. split; [|reflexivity].
    rewrite Hs. unfold url_end.
    destruct H7 as [-> | ->]; [right; right; left | right; right; right]; reflexivity.
  - destruct H6 as [<-|[]]. split; [|reflexivity].
    unfold url_end. destruct H7; [left | right; left]; assumption.
Qed.

Lemma in_run_owner_repo (m0 m : mstate) :
  In m (run owner_repo_re m0) ->
  exists owner repo,
    rest m0 = owner ++ slash :: repo ++ rest m /\
    owner <> [] /\ slash_free owner /\ repo <> [] /\ slash_free repo /\
    pos m = pos m0 + List.length owner + 1 + List.length repo /\
    caps m = caps m0.
Proof.
  unfold owner_repo_re. rewrite run_cat, run_rep_greedy. intros Hin.
  apply in_flat_map in Hin. destruct Hin as (m4 & H4 & H5).
  apply in_rep_greedy in H4. destruct H4 as (owner & Ho & Hof & Hol & Hop & Hoc).
  rewrite run_cat in H5. apply in_flat_map in H5. destruct H5 as (m5 & H5 & H6).
  cbn [run] in H5. destruct (rest m4) as [|c s3] eqn:E4; [contradiction|].
  destruct (eqc slash c) eqn:Ec; [|contradiction]. destruct H5 as [<-|[]].
  apply eqc_eq in Ec. subst c.
  rewrite run_rep_lazy in H6. cbn [rest pos caps] in H6.
  apply in_rep_lazy in H6. destruct H6 as (repo & Hr & Hrf & Hrl & Hrp & Hrc).
  exists owner, repo. repeat split.
  - now rewrite Ho, Hr.
  - destruct owner; [cbn in Hol; lia | discriminate].
  - exact Hof.
  - destruct repo; [cbn in Hrl; lia | discriminate].
  - exact Hrf.
  - rewrite Hrp, Hop. lia.
  - now rewrite Hrc.
Qed.

Lemma in_run_https (st : nat) (s : pystr) (m : mstate) :
  In m (run https_re (MState st s [])) ->
  exists sep owner repo tail,
    s = py "github.com" ++ sep :: owner ++ slash :: repo ++ tail /\
    (sep = slash \/ sep = ":"%char) /\
    owner <> [] /\ slash_free owner /\ repo <> [] /\ slash_free repo /\
    url_end tail /\
    span_of 1 (caps m)
    = Some (st + 11, st + 11 + List.length owner + 1 + List.length repo).
Proof.
  unfold https_re. rewrite run_cat, run_lit. cbn [rest pos caps]. intros Hin.
  destruct (startswith s (py "github.com")) eqn:Hs; [|contradiction].
  cbn [flat_map] in Hin. rewrite app_nil_r in Hin.
  apply startswith_prefix in Hs.
  remember (skipn (List.length (py "github.com")) s) as s1 eqn:E1.
  rewrite run_cat in Hin. apply in_flat_map in Hin. destruct Hin as (m2 & H2 & Hin).
  cbn [run rest] in H2. destruct s1 as [|sep s2]; [contradiction|].
  destruct (eqc sep slash || eqc sep ":"%char) eqn:Hsep; [|contradiction].
  destruct H2 as [<-|[]]. cbn [pos caps] in Hin.
  rewrite run_cat in Hin. apply in_flat_map in Hin. destruct Hin as (m3 & H3 & Hin).
  rewrite run_grp in H3. apply in_map_iff in H3. destruct H3 as (m3' & <- & H3).
  apply in_run_owner_repo in H3.
  destruct H3 as (owner & repo & Hrest & Ho & Hos & Hr & Hrs & Hp & Hc).
  cbn [rest pos caps] in Hrest, Hp, Hc, Hin.
  apply in_run_suffix in Hin. destruct Hin as [Hend Hsp]. cbn [rest caps] in Hend, Hsp.
  exists sep, owner, repo, (rest m3').
  split; [now rewrite Hs, Hrest|].
  split.
  { apply orb_true_iff in Hsep. destruct Hsep as [E|E]; apply eqc_eq in E; auto. }
  repeat (split; [assumption|]).
  rewrite Hsp. cbn [span_of Nat.eqb]. rewrite Hp.
  cbn [List.length py list_ascii_of_string]. f_equal. f_equal; lia.
Qed.

(** Where the SSH pattern matches, the first pattern matches four
    characters further. *)
Lemma in_run_ssh (st : nat) (s : pystr) (m : mstate) :
  In m (run ssh_re (MState st s [])) ->
  exists s2, s = py "git@" ++ s2 /\ In m (run https_re (MState (st + 4) s2 [])).
Proof.
  unfold ssh_re. rewrite run_cat, run_lit. cbn [rest pos caps]. intros Hin.
  destruct (startswith s (py "git@github.com:")) eqn:Hs; [|contradiction].
  cbn [flat_map] in Hin. rewrite app_nil_r in Hin.
  apply startswith_prefix in Hs.
  remember (skipn (List.length (py "git@github.com:")) s) as s3 eqn:E3.
  exists (py "github.com" ++ ":"%char :: s3). split; [exact Hs|].
  unfold https_re. rewrite run_cat, run_lit. cbn [rest pos caps].
  rewrite startswith_app, skipn_length_app. cbn [flat_map]. rewrite app_nil_r.
  rewrite run_cat, run_chr.
  change (eqc ":"%char slash || eqc ":"%char ":"%char) with true. cbv iota.
  cbn [flat_map]. rewrite app_nil_r.
  replace (S (st + 4 + List.length (py "github.com")))
    with (st + List.length (py "git@github.com:"))
    by (cbn [List.length py list_ascii_of_string]; lia).
  exact Hin.
Qed.

Lemma ssh_match_https_match (url : pystr) :
  re_search https_re url = None -> re_search ssh_re url = None.
Proof.
  intros Hh. destruct (re_search ssh_re url) as [mo|] eqn:E; [|reflexivity].
  exfalso. unfold re_search in E. apply search_from_some in E.
  destruct E as (pre & suf & Hurl & _ & Ha).
  rewrite attempt_free in Ha. apply hd_error_in, in_run_ssh in Ha.
  destruct Ha as (s2 & Hsuf & Hin).
  apply in_hd_error in Hin. rewrite <- attempt_free in Hin.
  assert (Hc : search_from https_re 0 ((pre ++ py "git@") ++ s2) false <> None).
  { apply search_from_complete. rewrite length_app.
    cbn [List.length py list_ascii_of_string].
    now rewrite Nat.add_assoc. }
  apply Hc. rewrite <- app_assoc, <- Hsuf, <- Hurl. exact Hh.
Qed.

Lemma parse_first_pattern (url : pystr) :
  _parse_github_url url =
  match re_search https_re url with
  | Some m => option_map (rstrip (py ".git")) (group url m 1)
  | None => None
  end.
Proof.
  unfold _parse_github_url.
  destruct (re_search https_re url) eqn:Eh; [reflexivity|].
  now rewrite (ssh_match_https_match _ Eh).
Qed.

(** X3. The second pattern never decides: whenever it matches, the first one
    has matched already, so the result is what the first pattern gives. *)
Theorem parse_github_url_first_pattern (url : pystr) :
  _parse_github_url url =
  match re_search https_re url with
  | Some m => option_map (rstrip (py ".git")) (group url m 1)
  | None => None
  end.
Proof.
  unfold _parse_github_url.
  destruct (re_search https_re url) eqn:Eh; [reflexivity|].
  now rewrite (ssh_match_https_match _ Eh).
Qed.

(** X4. Whatever the parser returns comes from a text that holds
    [github.com], then [/] or [:], then an owner and a repository name
    separated by one [/], then at most [.git] and a line break: the result
    is the owner, a [/], and the name without its trailing [.], [g], [i]
    and [t]; its part before the [/] is the owner; and it does not end
    with one of those four characters. *)
Theorem parse_github_url_sound (url res : pystr) :
  _parse_github_url url = Some res ->
  exists pre sep owner repo tail,
    url = pre ++ py "github.com" ++ sep :: owner ++ slash :: repo ++ tail /\
    (sep = slash \/ sep = ":"%char) /\
    owner <> [] /\ slash_free owner /\ repo <> [] /\ slash_free repo /\
    url_end tail /\
    res = owner ++ slash :: rstrip (py ".git") repo /\
    SyncTasks.owner_of res = owner /\
    (forall t c, res = t ++ [c] -> mem c (py ".git") = false).
Proof.
  rewrite parse_first_pattern.
  destruct (re_search https_re url) as [mo|] eqn:Eh; [|discriminate].
  intros Hres. unfold re_search in Eh. apply search_from_some in Eh.
  destruct Eh as (pre & suf & Hurl & _ & Ha). cbn [Nat.add] in Ha.
  rewrite attempt_free in Ha. apply hd_error_in, in_run_https in Ha.
  destruct Ha as (sep & owner & repo & tail & Hsuf & Hsep & Ho & Hos & Hr & Hrs
                  & Hend & Hsp).
  assert (Hu : url = (pre ++ py "github.com" ++ [sep]) ++ (owner ++ slash :: repo) ++ tail).
  { rewrite Hurl, Hsuf, <- !app_assoc. reflexivity. }
  assert (Hg : group url mo 1 = Some (owner ++ slash :: repo)).
  { unfold group. rewrite Hsp. cbn [option_map fst snd]. f_equal.
    rewrite Hu. apply slice_mid_at.
    - rewrite !length_app. cbn [List.length py list_ascii_of_string]. lia.
    - rewrite !length_app. cbn [List.length py list_ascii_of_string]. lia. }
  rewrite Hg in Hres. cbn [option_map] in Hres. injection Hres as Hres.
  assert (Hres' : res = owner ++ slash :: rstrip (py ".git") repo).
  { rewrite <- Hres. unfold rstrip. now apply rstrip_by_app_keep. }
  exists pre, sep, owner, repo, tail.
  split; [rewrite Hurl, Hsuf; reflexivity|].
  repeat (split; [assumption|]).
  split.
  - rewrite Hres'. unfold SyncTasks.owner_of. rewrite split_app.
    rewrite split_nosep; [reflexivity|].
    apply Forall_impl with (2 := Hos). intros c Hc.
    unfold notslash in Hc. now apply negb_true_iff in Hc.
  - intros t c Ht. rewrite <- Hres in Ht. unfold rstrip in Ht.
    exact (@rstrip_by_last _ _ _ _ Ht).
Qed.

Lemma parse_github_url_sound_witness :
  _parse_github_url (py "ssh://git@github.com:acme/widget.git")
  = Some (py "acme/widge") /\
  exists pre sep owner repo tail,
    py "ssh://git@github.com:acme/widget.git"
    = pre ++ py "github.com" ++ sep :: owner ++ slash :: repo ++ tail /\
    py "acme/widge" = owner ++ slash :: rstrip (py ".git") repo.
Proof.
  assert (H : _parse_github_url (py "ssh://git@github.com:acme/widget.git")
              = Some (py "acme/widge")) by (vm_compute; reflexivity).
  split; [exact H|].
  destruct (parse_github_url_sound _ H)
    as (pre & sep & owner & repo & tail & H1 & _ & _ & _ & _ & _ & _ & H2 & _).
  exists pre, sep, owner, repo, tail. split; assumption.
Defined.

End UrlMore.

(** ** More on the synchroniser *)

Module SyncMore.

Import PyFacts PyMore SyncTasks SyncSpec SyncFacts Render UrlSpec SyncRecords.

(** X11. The owner of a repository is the text before its first [/], and the
    whole text when there is none. *)
Theorem owner_of_split :
  (forall owner rest : pystr,
      slash_free owner -> owner_of (owner ++ slash :: rest) = owner) /\
  (forall repo : pystr, slash_free repo -> owner_of repo = repo).
Proof.
  assert (Hs : forall s, slash_free s -> Forall (fun c => eqc c slash = false) s).
  { intros s Hs. apply Forall_impl with (2 := Hs). intros c Hc.
    unfold notslash in Hc. now apply negb_true_iff in Hc. }
  split.
  - intros owner rest Ho. unfold owner_of.
    rewrite split_app, split_nosep by auto. reflexivity.
  - intros repo Hr. unfold owner_of. rewrite split_nosep by auto. reflexivity.
Qed.

Lemma owner_of_split_witness :
  slash_free (py "acme") /\ owner_of (py "acme/widgets/extra") = py "acme".
Proof.
  assert (H : slash_free (py "acme")) by (repeat constructor).
  split; [exact H|].
  exact (proj1 owner_of_split (py "acme") (py "widgets/extra") H).
Defined.

(** X12. The labels of a task are passed as one [--label] argument, which
    splits at the commas into the labels when none of them holds a comma;
    without labels the command has no [--label]. *)
Theorem cmd_issue_create_labels (repo title : pystr) (body : option pystr) :
  (forall l ls,
      Forall (Forall (fun c => eqc c ","%char = false)) (l :: ls) ->
      exists arg,
        cmd_issue_create repo title body (Some (l :: ls))
        = cmd_issue_create repo title body None ++ [py "--label"; arg] /\
        split ","%char arg = l :: ls) /\
  cmd_issue_create repo title body (Some []) = cmd_issue_create repo title body None /\
  cmd_issue_create repo title body None
  = [py "gh"; py "issue"; py "create"; py "--repo"; repo; py "--title"; title;
     py "--body"; or_empty body].
Proof.
  split; [|split; reflexivity].
  intros l ls Hl. exists (join (py ",") (l :: ls)). split.
  - unfold cmd_issue_create. now rewrite app_nil_r.
  - apply split_join; [discriminate | exact Hl].
Qed.

Lemma cmd_issue_create_labels_witness :
  Forall (Forall (fun c => eqc c ","%char = false)) [py "bug"; py "help wanted"] /\
  exists arg,
    cmd_issue_create (py "acme/widgets") (py "Fix it") None
                     (Some [py "bug"; py "help wanted"])
    = cmd_issue_create (py "acme/widgets") (py "Fix it") None None
      ++ [py "--label"; arg] /\
    split ","%char arg = [py "bug"; py "help wanted"].
Proof.
  assert (H : Forall (Forall (fun c => eqc c ","%char = false))
                     [py "bug"; py "help wanted"]) by (repeat constructor).
  split; [exact H|].
  exact (proj1 (cmd_issue_create_labels (py "acme/widgets") (py "Fix it") None) _ _ H).
Defined.

Lemma Processed_length repo pn owner ts sy fa cs :
  Processed repo pn owner ts sy fa cs ->
  List.length cs <= 2 * List.length ts.
Proof. induction 1; cbn [List.length]; lia. Qed.

Lemma Processed_all_synced repo pn owner ts sy fa cs :
  Processed repo pn owner ts sy fa cs -> fa = [] ->
  map s_task sy = ts /\ List.length cs = 2 * List.length ts /\
  Forall (fun t => untitled t = false) ts.
Proof.
  induction 1 as [|t ts sy fa cs Hd Hu _ IH|t ts sy fa cs Hu Hc _ IH
                 |t url ts sy fa cs Hu Hc Hn _ IH|t url ts sy fa cs Hu Hc Hn _ IH];
    intros Hfa; try discriminate.
  - repeat split. constructor.
  - destruct (IH Hfa) as (H1 & H2 & H3). cbn [map s_task List.length].
    split; [now rewrite H1|]. split; [lia | now constructor].
Qed.

Section Machine.

Context {H : Host}.

Lemma check_gh_cli_cases (s : state) :
  exists ok w,
    check_gh_cli s = (Ret ok, State w (calls s ++ [cmd_auth_status])) /\
    (ok = true <->
     exists c, subprocess_run cmd_auth_status (ext s) = (Some c, w) /\
               returncode c = 0%Z).
Proof.
  unfold check_gh_cli, try_except, bind, run_cmd, ret.
  destruct (subprocess_run cmd_auth_status (ext s)) as [[c|] w] eqn:E;
    cbn [except_FileNotFoundError].
  - exists (returncode c =? 0)%Z, w. split; [reflexivity|]. split.
    + intros Hok. exists c. split; [reflexivity | now apply Z.eqb_eq].
    + intros (c' & Hc & Hrc). injection Hc as <-. now apply Z.eqb_eq.
  - exists false, w. split; [reflexivity|]. split; [discriminate|].
    intros (c & Hc & _). discriminate.
Qed.



(** X10. [get_first_project] launches [gh project list] and nothing else; when
    the command cannot be launched the exception is not caught; otherwise
    it returns a number exactly when the command ends with status 0 and
    prints a JSON document whose first project has that number. *)
Theorem get_first_project_cases (repo : pystr) (s : state) :
  calls (snd (get_first_project repo s)) = calls s ++ [cmd_project_list repo] /\
  match fst (subprocess_run (cmd_project_list repo) (ext s)) with
  | None => fst (get_first_project repo s) = Raise FileNotFoundError
  | Some c =>
      exists o,
        fst (get_first_project repo s) = Ret o /\
        forall n,
          o = Some n <->
          returncode c = 0%Z /\
          exists ps,
            json_loads_projects (stdout c)
            = Some (ProjectsDict (Some (Project (Some n) :: ps))) \/
            json_loads_projects (stdout c)
            = Some (ProjectsList (Project (Some n) :: ps))
  end.
Proof.
  unfold get_first_project, list_projects, bind, run_cmd, ret.
  destruct (subprocess_run (cmd_project_list repo) (ext s)) as [[c|] w] eqn:E;
    cbn [fst snd]; [|split; reflexivity].
  destruct (returncode c =? 0)%Z eqn:R.
  - apply Z.eqb_eq in R.
    destruct (json_loads_projects (stdout c)) as [[[[|[q] ps]|]|[|[q] ps]]|] eqn:J;
      cbn [fst snd calls number]; (split; [reflexivity|]); eexists;
      (split; [reflexivity|]); intros n; split;
      try discriminate;
      try (intros [_ (ps' & [Hj|Hj])]; discriminate).
    + intros [= ->]. split; [assumption|]. exists ps. now left.
    + intros [_ (ps' & [Hj|Hj])]; [|discriminate]. now injection Hj as ->.
    + intros [= ->]. split; [assumption|]. exists ps. now right.
    + intros [_ (ps' & [Hj|Hj])]; [discriminate|]. now injection Hj as ->.
  - cbn [fst snd calls]. split; [reflexivity|]. exists None. split; [reflexivity|].
    intros n. split; [discriminate|].
    intros [Hrc _]. apply Z.eqb_neq in R. contradiction.
Qed.

(** X13. Without a usable [gh] (not installed, or [gh auth status] ends with
    another status than 0), [sync_tasks] reports the failure after that one
    command: it looks for no repository and creates no issue. *)
Theorem sync_tasks_needs_gh (self : GitHubProjectSync) (tasks : list task) (s : state) :
  (forall c w, subprocess_run cmd_auth_status (ext s) = (Some c, w) ->
               returncode c <> 0%Z) ->
  exists w,
    sync_tasks self tasks s
    = (Ret (SyncFailure err_no_gh), State w (calls s ++ [cmd_auth_status])).
Proof.
  intros Hno. destruct (check_gh_cli_cases s) as (ok & w & Hc & Hok).
  destruct ok.
  - destruct (proj1 Hok eq_refl) as (c & Hs & Hrc). exfalso. exact (Hno c w Hs Hrc).
  - exists w. unfold sync_tasks, bind. rewrite Hc. reflexivity.
Qed.

(** X14. With a repository and a project number given, both used as they are,
    a batch that returns has launched [gh auth status] and then only the
    commands of the tasks, at most two for each: no [git] command and no
    [gh project list]. *)
Theorem sync_tasks_explicit (repo : pystr) (pn : Z) (tasks : list task)
    (s s' : state) (r : pystr) (p : Z) (sy : list synced_entry)
    (fa : list failed_entry) :
  repo <> [] -> pn <> 0%Z ->
  sync_tasks (Syncer (Some repo) (Some pn)) tasks s = (Ret (SyncDone r p sy fa), s') ->
  r = repo /\ p = pn /\
  exists cs,
    calls s' = calls s ++ cmd_auth_status :: cs /\
    Processed repo pn (owner_of repo) tasks sy fa cs /\
    List.length cs <= 2 * List.length tasks.
Proof.
  intros Hrepo Hpn Hrun.
  destruct (check_gh_cli_cases s) as (ok & w & Hc & _).
  unfold sync_tasks in Hrun. unfold bind at 1 in Hrun. rewrite Hc in Hrun.
  destruct ok; cbn [negb] in Hrun; [|discriminate].
  destruct repo as [|c0 u]; [congruence|].
  unfold resolve_repo, resolve_project in Hrun.
  cbn [SyncTasks.repo project_number truthy_str truthy_int negb] in Hrun.
  assert (Hz : (pn =? 0)%Z = false) by now apply Z.eqb_neq.
  rewrite Hz in Hrun. cbn [negb] in Hrun.
  unfold bind, ret in Hrun. cbn [truthy_str truthy_int negb or_empty] in Hrun.
  rewrite Hz in Hrun. cbn [negb] in Hrun.
  destruct (sync_loop _ _ _ tasks [] [] _) as [[[sy' fa']|e] s4] eqn:Hl;
    [|discriminate].
  cbn [fst snd] in Hrun. injection Hrun as <- <- <- <- <-.
  destruct (sync_loop_processed _ _ _ _ _ _ _ Hl) as (sy2 & fa2 & cs & Hs & Hf & Hcs & HP).
  cbn [app] in Hs, Hf. subst sy2 fa2. cbn [calls] in Hcs.
  split; [reflexivity|]. split; [reflexivity|].
  exists cs. split; [now rewrite Hcs, <- app_assoc|].
  split; [exact HP | exact (Processed_length HP)].
Qed.

Lemma create_issue_trimmed repo title body labels (s s1 : state) (u : pystr) :
  create_issue repo title body labels s = (Ret (Some u), s1) -> trimmed u.
Proof.
  unfold create_issue.
  destruct (issue_cmd repo title body labels) as [cmd|]; [|discriminate].
  unfold bind, run_cmd, ret.
  destruct (subprocess_run _ (ext s)) as [[c|] w]; [|discriminate].
  destruct (returncode c =? 0)%Z; [|discriminate].
  intros Hu. injection Hu as <- _. apply strip_idem.
Qed.

Lemma sync_loop_records repo pn owner (tasks : list task) :
  forall synced failed s sy fa s',
    sync_loop repo pn owner tasks synced failed s = (Ret (sy, fa), s') ->
    Forall (fun e => recorded_url (s_issue_url e)) synced ->
    Forall failure_ok failed ->
    Forall (fun e => recorded_url (s_issue_url e)) sy /\ Forall failure_ok fa.
Proof.
  induction tasks as [|t ts IH]; intros synced failed s sy fa s' Hrun Hsy Hfa.
  - cbn in Hrun. injection Hrun as <- <- <-. now split.
  - cbn [sync_loop] in Hrun.
    destruct (is_dict t); cbn [negb] in Hrun; [|discriminate].
    destruct (truthy (title t)) eqn:Ht; cbn [negb] in Hrun.
    + unfold bind at 1 in Hrun.
      destruct (create_issue _ _ _ _ s) as [[o|e] s1] eqn:Hc; [|discriminate].
      destruct (truthy_str o) eqn:Ho; cbn [negb] in Hrun.
      * destruct (truthy_str_some _ Ho) as (url & -> & Hurl & Hor).
        cbn [or_empty] in Hrun.
        assert (Hrec : recorded_url url)
          by (split; [exact Hurl | exact (create_issue_trimmed _ _ _ _ _ Hc)]).
        unfold bind at 1 in Hrun.
        destruct (add_issue_to_project _ _ _ s1) as [[[|]|e] s2]; [| |discriminate];
          apply IH in Hrun; try assumption.
        -- apply Forall_app. split; [assumption|].
           constructor; [exact Hrec | constructor].
        -- apply Forall_app. split; [assumption|].
           constructor; [|constructor].
           unfold failure_ok. cbn [f_issue_url f_error]. now split.
      * apply IH in Hrun; try assumption.
        apply Forall_app. split; [assumption|].
        constructor; [|constructor].
        unfold failure_ok. cbn [f_issue_url f_error]. now right.
    + apply IH in Hrun; try assumption.
      apply Forall_app. split; [assumption|].
      constructor; [|constructor].
      unfold failure_ok. cbn [f_issue_url f_error]. now left.
Qed.

(** X15. In the result of a batch, the URL of every synced task is the trimmed
    output of [gh issue create], not empty; a failure carries the URL of
    the issue exactly when its reason is that the issue could not be added
    to the project, and its reason is otherwise that the title is missing
    or that the issue could not be created. *)
Theorem sync_tasks_records (self : GitHubProjectSync) (tasks : list task)
    (s s' : state) (r : pystr) (p : Z) (sy : list synced_entry)
    (fa : list failed_entry) :
  sync_tasks self tasks s = (Ret (SyncDone r p sy fa), s') ->
  Forall (fun e => recorded_url (s_issue_url e)) sy /\ Forall failure_ok fa.
Proof.
  intros Hrun. destruct (sync_tasks_done _ _ _ Hrun) as (s1 & pre & _ & _ & Hl).
  eapply sync_loop_records; [exact Hl | constructor | constructor].
Qed.

(** X16. When the checklist file is missing, the JSON string does not parse
    or parses to a value that cannot be iterated, or no task is supplied,
    the process exits with status 1 without launching any command;
    otherwise the first command it launches is [gh auth status]. *)
Theorem main_commands (a : args) (s : state) :
  (missing_file a (ext s) \/ malformed_json a \/ not_iterable a \/
   supplied a (ext s) = [] ->
   main a s = (1%Z, s)) /\
  (~ missing_file a (ext s) -> ~ malformed_json a -> ~ not_iterable a ->
   supplied a (ext s) <> [] ->
   exists cs, calls (snd (main a s)) = calls s ++ cmd_auth_status :: cs).
Proof.
  rewrite main_unfold. split.
  - intros Hbad.
    destruct (gather_file_cases a s) as [[Hm Hg]|[Hm Hg]]; rewrite Hg; [reflexivity|].
    destruct (gather_json_cases a s) as [[Hj Hgj]|[(Hj & Hi & Hgj)|(Hj & Hi & Hgj)]];
      rewrite Hgj; [reflexivity | reflexivity |].
    fold (supplied a (ext s)).
    destruct Hbad as [Hb|[Hb|[Hb|Hb]]]; try contradiction. now rewrite Hb.
  - intros Hm Hj Hi Hs.
    destruct (gather_file_cases a s) as [[Hm' Hg]|[_ Hg]]; [contradiction|]. rewrite Hg.
    destruct (gather_json_cases a s) as [[Hj' Hgj]|[(_ & Hi' & Hgj)|(_ & _ & Hgj)]];
      [contradiction | contradiction |].
    rewrite Hgj. fold (supplied a (ext s)).
    destruct (supplied a (ext s)) as [|t ts]; [congruence|].
    assert (Hc : exists cs, calls (snd (sync_tasks (syncer_of a) (t :: ts) s))
                            = calls s ++ cmd_auth_status :: cs).
    { unfold sync_tasks. unfold bind at 1. rewrite check_gh_cli_spec.
      assert (Tt : forall x, any_cmd x) by exact (fun _ => I).
      match goal with
      | |- context [calls (snd (?k ?s1))] =>
          assert (Hk : tame any_cmd k)
      end.
      { apply tame_if; [apply tame_ret|].
        apply tame_bind; [apply tame_resolve_repo; intros; exact I|]. intros r.
        apply tame_if; [apply tame_ret|].
        apply tame_bind; [apply tame_resolve_project; intros; exact I|]. intros p.
        apply tame_if; [apply tame_ret|].
        apply tame_bind; [|intros l; apply tame_ret].
        apply tame_sync_loop; intros; exact I. }
      destruct (Hk (State (checked (ext s)) (calls s ++ [cmd_auth_status])))
        as [(cs & Hcs & _) _].
      exists cs. rewrite Hcs. cbn [calls]. now rewrite <- app_assoc. }
    destruct Hc as (cs & Hc). exists cs. rewrite <- Hc.
    destruct (sync_tasks (syncer_of a) (t :: ts) s) as [[[e|r p sy [|f fs]]|e] s3];
      reflexivity.
Qed.

(** X27. When the process exits with status 0, every task supplied (those of
    the checklist file, then those of the flags, then those of the JSON
    string) has a title and has been synced: the synced list holds them
    all, in that order, nothing failed, and two commands were launched for
    each. *)
Theorem main_success_all_synced (a : args) (s : state) :
  fst (main a s) = 0%Z ->
  exists r p sy s' pre cs,
    sync_tasks (syncer_of a) (supplied a (ext s)) s = (Ret (SyncDone r p sy []), s') /\
    map s_task sy = supplied a (ext s) /\
    supplied a (ext s) <> [] /\
    Forall (fun t => untitled t = false) (supplied a (ext s)) /\
    calls s' = calls s ++ pre ++ cs /\ Forall not_create pre /\
    List.length cs = 2 * List.length (supplied a (ext s)).
Proof.
  intros Hst.
  destruct (main_status a s)
    as [[_ Hc]|[(_ & _ & Hc)|[(_ & _ & _ & Hc)|[(_ & _ & _ & _ & Hc)|(Hok & Hc)]]]];
    cbv zeta in Hc; try (rewrite Hst in Hc; discriminate).
  destruct Hok as (_ & _ & _ & Hs).
  destruct (sync_tasks_stage a s) as (res & s' & Hrun & Hstage).
  rewrite Hst in Hc.
  destruct (stage_of a (ext s)) as [| | | |[|n]]; try discriminate.
  destruct Hstage as (r & p & sy & fa & -> & Hlen).
  destruct fa as [|f fa]; [|discriminate]. clear Hlen.
  destruct (sync_tasks_done _ _ _ Hrun) as (s1 & pre & Hpre & Hq & Hl).
  destruct (sync_loop_processed _ _ _ _ _ _ _ Hl)
    as (sy' & fa' & cs & Hsy & Hfa & Hcs & HP).
  cbn [app] in Hsy, Hfa. subst sy'.
  destruct (Processed_all_synced HP (eq_sym Hfa)) as (H1 & H2 & H3).
  exists r, p, sy, s', pre, cs.
  split; [exact Hrun|]. split; [exact H1|]. split; [exact Hs|].
  split; [exact H3|]. split; [now rewrite Hcs, Hpre, app_assoc|].
  split; assumption.
Qed.

(** X28. In a clone whose [origin] is a GitHub remote in the HTTPS or in the SSH
    form with the suffix [.git], of a repository whose name ends with
    another character than [.], [g], [i] and [t], [get_origin_remote]
    launches one command and returns [owner/repo]. *)
Theorem origin_resolves (s : state) (c : completed) (w : world)
    (owner name : pystr) (ch : ascii) :
  subprocess_run (cmd_get_url (py "origin")) (ext s) = (Some c, w) ->
  returncode c = 0%Z ->
  owner <> [] -> slash_free owner -> slash_free (name ++ [ch]) ->
  mem ch (py ".git") = false ->
  stdout c = (py "https://github.com/" ++ owner ++ slash :: (name ++ [ch]) ++ py ".git")
             ++ [newline] \/
  stdout c = (py "git@github.com:" ++ owner ++ slash :: (name ++ [ch]) ++ py ".git")
             ++ [newline] ->
  get_origin_remote s
  = (Ret (Some (owner ++ slash :: name ++ [ch])),
     State w (calls s ++ [cmd_get_url (py "origin")])).
Proof.
  intros Hrun Hrc Ho Hos Hns Hch Hout.
  destruct (@UrlGeneral.parse_git_exact owner name ch Ho Hos Hns Hch) as [Hh Hs].
  unfold get_origin_remote, try_except, bind, run_cmd, ret.
  rewrite Hrun, Hrc. cbn [Z.eqb].
  destruct Hout as [Hout|Hout]; rewrite Hout.
  - rewrite strip_output; [now rewrite Hh | reflexivity |].
    replace (py "https://github.com/" ++ owner ++ slash :: (name ++ [ch]) ++ py ".git")
      with ((py "https://github.com/" ++ owner ++ slash :: (name ++ [ch]) ++ py ".gi")
            ++ ["t"%char])
      by (rewrite <- !app_assoc; cbn [app]; rewrite <- !app_assoc; reflexivity).
    now apply UrlGeneral.rstrip_by_keep.
  - rewrite strip_output; [now rewrite Hs | reflexivity |].
    replace (py "git@github.com:" ++ owner ++ slash :: (name ++ [ch]) ++ py ".git")
      with ((py "git@github.com:" ++ owner ++ slash :: (name ++ [ch]) ++ py ".gi")
            ++ ["t"%char])
      by (rewrite <- !app_assoc; cbn [app]; rewrite <- !app_assoc; reflexivity).
    now apply UrlGeneral.rstrip_by_keep.
Qed.

End Machine.

End SyncMore.

(** ** The synchroniser on two machines *)

Module SyncMoreRuns.

Import SyncTasks SyncSpec SyncFacts SyncMore Scenario SyncRecords.


Example cloned_batch :
  fst (sync_tasks (H := cloned) (Syncer None None) [titled (py "ok")]
                  (@State cloned tt []))
  = Ret (SyncDone (py "acme/widgets") 7
           [Synced (titled (py "ok")) (issue_url (py "1"))] []).
Proof. vm_compute. reflexivity. Qed.

Lemma origin_resolves_witness :
  exists c,
    subprocess_run (Host := cloned) (cmd_get_url (py "origin")) tt = (Some c, tt) /\
    returncode c = 0%Z /\
    get_origin_remote (H := cloned) (@State cloned tt [])
    = (Ret (Some (py "acme/widgets")), @State cloned tt [cmd_get_url (py "origin")]).
Proof.
  eexists. split; [reflexivity|]. split; [reflexivity|].
  exact (@origin_resolves cloned (@State cloned tt []) _ tt (py "acme") (py "widget")
           "s"%char eq_refl eq_refl ltac:(discriminate)
           ltac:(repeat constructor) ltac:(repeat constructor) eq_refl
           (or_intror eq_refl)).
Defined.

Lemma main_success_all_synced_witness :
  fst (main (H := scripted)
            (Args (Some acme) (Some 7%Z) (Some (py "tasks.md")) (Some [py "ok"]) None)
            start) = 0%Z /\
  exists sy,
    map s_task sy = [titled (py "Buy milk"); titled (py "ok")].
Proof.
  assert (H : fst (main (H := scripted)
                     (Args (Some acme) (Some 7%Z) (Some (py "tasks.md"))
                           (Some [py "ok"]) None) start) = 0%Z)
    by (vm_compute; reflexivity).
  split; [exact H|].
  destruct (@main_success_all_synced scripted _ _ H)
    as (r & p & sy & s' & pre & cs & _ & Hsy & _).
  exists sy. exact Hsy.
Defined.

Lemma sync_tasks_needs_gh_witness :
  (forall c w, subprocess_run (Host := bare) cmd_auth_status tt = (Some c, w) ->
               returncode c <> 0%Z) /\
  exists w,
    sync_tasks (H := bare) (Syncer None None) [titled (py "Buy milk")]
               (@State bare tt [])
    = (Ret (SyncFailure err_no_gh), @State bare w [cmd_auth_status]).
Proof.
  assert (H : forall c w,
             subprocess_run (Host := bare) cmd_auth_status tt = (Some c, w) ->
             returncode c <> 0%Z) by (intros c w Hc; discriminate).
  split; [exact H|].
  exact (@sync_tasks_needs_gh bare (Syncer None None) [titled (py "Buy milk")]
           (@State bare tt []) H).
Defined.

Lemma sync_tasks_explicit_witness :
  acme <> [] /\ 7%Z <> 0%Z /\
  exists sy fa s' cs,
    sync_tasks (H := scripted) (Syncer (Some acme) (Some 7%Z)) batch start
    = (Ret (SyncDone acme 7 sy fa), s') /\
    calls s' = calls start ++ cmd_auth_status :: cs /\
    List.length cs <= 2 * List.length batch.
Proof.
  assert (H0 : acme <> []) by discriminate.
  assert (H1 : 7%Z <> 0%Z) by discriminate.
  split; [exact H0|]. split; [exact H1|].
  do 3 eexists.
  assert (Hrun : sync_tasks (H := scripted) (Syncer (Some acme) (Some 7%Z)) batch start
                 = (Ret (SyncDone acme 7 _ _), _)) by (vm_compute; reflexivity).
  destruct (@sync_tasks_explicit scripted _ _ _ _ _ _ _ _ _ H0 H1 Hrun)
    as (_ & _ & cs & Hcs & _ & Hlen).
  exists cs. split; [exact Hrun|]. split; assumption.
Defined.

Lemma sync_tasks_records_witness :
  exists r p sy fa s',
    sync_tasks (H := scripted) (Syncer (Some acme) None) batch start
    = (Ret (SyncDone r p sy fa), s') /\
    Forall (fun e => recorded_url (s_issue_url e)) sy /\ Forall failure_ok fa.
Proof.
  do 5 eexists.
  assert (Hrun : sync_tasks (H := scripted) (Syncer (Some acme) None) batch start
                 = (Ret (SyncDone _ _ _ _), _)) by (vm_compute; reflexivity).
  split; [exact Hrun|].
  exact (@sync_tasks_records scripted _ _ _ _ _ _ _ _ Hrun).
Defined.

Lemma main_commands_witness :
  (supplied (H := scripted) (Args None None None None None) (ext start) = [] /\
   main (H := scripted) (Args None None None None None) start = (1%Z, start)) /\
  (not_iterable (H := scripted) (Args None None None (Some [py "foo"]) (Some (py "5"))) /\
   main (H := scripted) (Args None None None (Some [py "foo"]) (Some (py "5"))) start
   = (1%Z, start)).
Proof.
  assert (H : supplied (H := scripted) (Args None None None None None) (ext start) = [])
    by reflexivity.
  assert (Hn : not_iterable (H := scripted)
                 (Args None None None (Some [py "foo"]) (Some (py "5")))).
  { exists (py "5"), (JInt 5). repeat split; try reflexivity. discriminate. }
  split; (split; [assumption|]).
  - exact (proj1 (main_commands (H := scripted) (Args None None None None None) start)
             (or_intror (or_intror (or_intror H)))).
  - exact (proj1 (main_commands (H := scripted) _ start)
             (or_intror (or_intror (or_introl Hn)))).
Defined.

End SyncMoreRuns.

(** ** More on the package builder *)

Module BuildMore.

Import PyFacts PyMore ManifestFacts Render BuildSkills BuildSpec BuildFacts BuildRecords.

Lemma leb_refl (a : pystr) : leb a a = true.
Proof.
  induction a as [|x a IH]; [reflexivity|]. cbn [leb].
  now rewrite Nat.ltb_irrefl.
Qed.

Lemma insert_skill_filter (P : Type) (n : pystr) (x : skill P) (l : list (skill P)) :
  filter (has_name n) (insert_skill x l) = filter (has_name n) (x :: l).
Proof.
  induction l as [|y l IH]; [reflexivity|]. cbn [insert_skill].
  destruct (leb (name x) (name y)) eqn:Hxy; [reflexivity|].
  cbn [filter] in *. rewrite IH.
  destruct (has_name n x) eqn:Hx; [|reflexivity].
  destruct (has_name n y) eqn:Hy; [|reflexivity].
  unfold has_name in Hx, Hy. apply eqs_eq in Hx, Hy.
  rewrite Hx, Hy, leb_refl in Hxy. discriminate.
Qed.

(** Sorting by name keeps the skills of one name in the order they had. *)
Lemma sorted_by_name_stable (P : Type) (n : pystr) (l : list (skill P)) :
  filter (has_name n) (sorted_by_name l) = filter (has_name n) l.
Proof.
  induction l as [|x l IH]; [reflexivity|].
  cbn [sorted_by_name fold_right]. fold (sorted_by_name l).
  rewrite insert_skill_filter. cbn [filter]. now rewrite IH.
Qed.

Lemma join_app_sep (sep : pystr) (l1 l2 : list pystr) :
  l2 <> [] ->
  join sep (l1 ++ l2) = List.concat (map (fun x => x ++ sep) l1) ++ join sep l2.
Proof.
  intros Hne. induction l1 as [|x l1 IH]; [reflexivity|].
  cbn [app map List.concat]. rewrite join_cons.
  - rewrite IH, <- !app_assoc. reflexivity.
  - destruct l1; [exact Hne | discriminate].
Qed.

Lemma readme_entry_section (P : Type) (k : skill P) :
  List.concat (map (fun x => x ++ [newline]) (readme_entry k)) = readme_section k.
Proof.
  unfold readme_entry, readme_section.
  destruct (description k) as [|d ds]; cbn [app map List.concat];
    rewrite <- ?app_assoc; cbn [app]; rewrite ?app_nil_r;
    repeat (f_equal; rewrite <- ?app_assoc; cbn [app]).
Qed.

(** X25. The listing is a fixed head, one section for each skill, in order,
    and a fixed foot; the section of a skill holds its name, its
    description when it has one, and the name of its archive. *)
Theorem generate_readme_sections (P : Type) (root_dir : P) (skills : list (skill P)) :
  generate_readme root_dir skills
  = readme_head ++ List.concat (map (@readme_section P) skills) ++ readme_foot.
Proof.
  unfold generate_readme. cbv zeta.
  rewrite join_app_sep by (destruct (flat_map (@readme_entry P) skills); discriminate).
  rewrite join_app_sep by discriminate.
  assert (Hs : List.concat (map (fun x => x ++ py (String "010" EmptyString))
                           (flat_map (@readme_entry P) skills))
               = List.concat (map (@readme_section P) skills)).
  { induction skills as [|k ks IH]; [reflexivity|].
    cbn [flat_map map List.concat]. rewrite map_app, concat_app.
    f_equal; [apply readme_entry_section | exact IH]. }
  rewrite Hs. unfold readme_head, readme_foot.
  cbn [map List.concat join app]. rewrite <- !app_assoc. reflexivity.
Qed.

Section Machine.

Context {F : FileSystem}.

Lemma probes_step root_dir (f : fs) (n : nat) (s s1 : state) (os1 os : list (op path))
    (r : state) :
  ops s1 = ops s ++ os1 -> Forall (probe root_dir f) os1 -> List.length os1 <= 3 ->
  ops r = ops s1 ++ os -> Forall (probe root_dir f) os -> List.length os <= 3 * n ->
  exists os', ops r = ops s ++ os' /\ Forall (probe root_dir f) os' /\
              List.length os' <= 3 * S n.
Proof.
  intros H1 H2 H3 H4 H5 H6. exists (os1 ++ os). split; [|split].
  - now rewrite H4, H1, app_assoc.
  - now apply Forall_app.
  - rewrite length_app. lia.
Qed.

Lemma find_loop_probes root_dir (entries : list pystr) :
  forall skills s,
    let r := find_loop root_dir entries skills s in
    exists os,
      ops (snd r) = ops s ++ os /\
      Forall (probe root_dir (files s)) os /\
      List.length os <= 3 * List.length entries.
Proof.
  induction entries as [|e entries IH]; intros skills s r; subst r.
  - exists []. cbn. rewrite app_nil_r. repeat split; [constructor | lia].
  - cbn [find_loop List.length]. unfold bind at 1. unfold do_isdir at 1.
    set (p := child root_dir e). set (m := manifest p).
    assert (P1 : probe root_dir (files s) (OpIsdir p)) by constructor.
    destruct (isdir p (files s)) eqn:Hd; cbn [negb orb].
    2:{ destruct (IH skills (log (OpIsdir p) s)) as (os & Ho & Hf & Hl).
        cbn [files log] in Hf.
        eapply probes_step with (os1 := [OpIsdir p]); try eassumption;
          [reflexivity | repeat (apply Forall_cons; [assumption|]); apply Forall_nil | cbn; lia]. }
    destruct (is_hidden e) eqn:Hh.
    { destruct (IH skills (log (OpIsdir p) s)) as (os & Ho & Hf & Hl).
      cbn [files log] in Hf.
      eapply probes_step with (os1 := [OpIsdir p]); try eassumption;
        [reflexivity | repeat (apply Forall_cons; [assumption|]); apply Forall_nil | cbn; lia]. }
    destruct (is_excluded e) eqn:Hx.
    { destruct (IH skills (log (OpIsdir p) s)) as (os & Ho & Hf & Hl).
      cbn [files log] in Hf.
      eapply probes_step with (os1 := [OpIsdir p]); try eassumption;
        [reflexivity | repeat (apply Forall_cons; [assumption|]); apply Forall_nil | cbn; lia]. }
    assert (P2 : probe root_dir (files s) (OpExists m)).
    { apply Probe_exists; [exact Hd|]. unfold visible. now rewrite Hh, Hx. }
    unfold bind at 1. unfold do_exists at 1. cbn [files log].
    fold m. destruct (exists_ m (files s)) eqn:He; cbn [negb].
    2:{ destruct (IH skills (log (OpExists m) (log (OpIsdir p) s)))
          as (os & Ho & Hf & Hl).
        cbn [files log] in Hf.
        eapply probes_step with (os1 := [OpIsdir p; OpExists m]); try eassumption;
          [cbn [ops log]; now rewrite <- app_assoc | repeat (apply Forall_cons; [assumption|]); apply Forall_nil
          | cbn; lia]. }
    assert (P3 : probe root_dir (files s) (OpRead m)).
    { apply Probe_read. unfold candidate. fold p m. now rewrite Hd, Hh, Hx, He. }
    unfold bind at 1. unfold extract_yaml_preamble, bind at 1, do_read at 1.
    cbn [files log].
    destruct (read_text m (files s)) as [content|].
    2:{ cbn [fst snd ops log]. exists [OpIsdir p; OpExists m; OpRead m].
        split; [now rewrite <- !app_assoc|].
        split; [repeat (apply Forall_cons; [assumption|]); apply Forall_nil | cbn; lia]. }
    unfold ret at 1.
    destruct (md_get (py "name") (extract_yaml_preamble_of content)) as [n|].
    + match goal with
      | |- context [find_loop root_dir entries ?sk ?st] =>
          destruct (IH sk st) as (os & Ho & Hf & Hl)
      end.
      cbn [files log] in Hf.
      eapply probes_step with (os1 := [OpIsdir p; OpExists m; OpRead m]);
        try eassumption;
        [cbn [ops log]; now rewrite <- !app_assoc | repeat (apply Forall_cons; [assumption|]); apply Forall_nil
        | cbn; lia].
    + unfold bind at 1, print_err at 1.
      match goal with
      | |- context [find_loop root_dir entries ?sk ?st] =>
          destruct (IH sk st) as (os & Ho & Hf & Hl)
      end.
      cbn [files log] in Hf.
      eapply probes_step with (os1 := [OpIsdir p; OpExists m; OpRead m]);
        try eassumption;
        [cbn [ops log]; now rewrite <- !app_assoc | repeat (apply Forall_cons; [assumption|]); apply Forall_nil
        | cbn; lia].
Qed.

(** X22. Discovery lists the root and then, for each entry, does at most
    three things: it asks whether the entry is a directory; only for a
    directory that is neither hidden nor excluded, whether it has a
    manifest; and only when it has one, it reads it.  So nothing is looked
    up inside a hidden or an excluded directory.  When the root cannot be
    listed, nothing else is done. *)
Theorem find_skills_probes (root_dir : path) (s : state) :
  exists os,
    ops (snd (find_skills root_dir s)) = ops s ++ OpListdir root_dir :: os /\
    Forall (probe root_dir (files s)) os /\
    List.length os <= 3 * List.length (listing (listdir root_dir (files s))).
Proof.
  unfold find_skills, bind, do_listdir.
  destruct (listdir root_dir (files s)) as [entries|]; cbn [listing].
  - destruct (find_loop_probes root_dir entries [] (log (OpListdir root_dir) s))
      as (os & Ho & Hf & Hl).
    cbn [files log ops] in Ho, Hf.
    destruct (find_loop root_dir entries [] (log (OpListdir root_dir) s))
      as [[skills|] s'];
      cbn [fst snd ret] in *; exists os;
      (split; [now rewrite Ho, <- app_assoc|]); split; assumption.
  - exists []. cbn [fst snd ops log List.length]. repeat split; [constructor | lia].
Qed.

(** X23. Skills that have the same name are all kept, in the order in which
    the root lists them. *)
Theorem find_skills_stable (root_dir : path) (s : state) (n : pystr)
    (skills : list (skill path)) :
  fst (find_skills root_dir s) = Ret skills ->
  filter (has_name n) skills
  = filter (has_name n)
      (map (record_of root_dir (files s))
           (filter (is_skill root_dir (files s))
                   (listing (listdir root_dir (files s))))).
Proof.
  rewrite find_skills_result.
  destruct (listdir root_dir (files s)) as [entries|]; [|discriminate].
  unfold discovered.
  destruct (existsb (unreadable root_dir (files s)) entries); [discriminate|].
  intros Hr. injection Hr as <-. cbn [listing]. apply sorted_by_name_stable.
Qed.

(** X24. [create_skill_zips] touches nothing but the archives of the skills
    it is given: every operation it performs checks or deletes the file
    [<name>.zip] of one of them in the root, or builds an archive from the
    path of that file without its suffix, out of the directory of the
    skill, given as its parent and its last component; and it writes no
    file. *)
Theorem create_skill_zips_touches (root_dir : path) (skills : list (skill path))
    (s : state) :
  exists os,
    ops (snd (create_skill_zips root_dir skills s)) = ops s ++ os /\
    Forall (zip_op root_dir skills) os /\
    writes os = [].
Proof.
  destruct (create_skill_zips_run root_dir skills s) as (os & e & Ho & Hz & _).
  exists os. split; [exact Ho|]. split; [exact Hz|].
  exact (writes_zip_ops Hz).
Qed.


End Machine.

End BuildMore.

(** ** The builder on the scripted file system, again *)

Module BuildMoreRuns.

Import BuildSkills BuildSpec BuildRecords BuildMore BuildScenario.

Lemma find_skills_stable_witness :
  fst (find_skills (F := scripted_fs fine) root (start fine)) = Ret three /\
  filter (has_name (py "beta")) three
  = [Skill (py "beta") (py "Second skill") (root ++ [py "beta"])].
Proof.
  assert (Hd : fst (find_skills (F := scripted_fs fine) root (start fine)) = Ret three)
    by (vm_compute; reflexivity).
  split; [exact Hd|].
  etransitivity;
    [exact (@find_skills_stable (scripted_fs fine) root (start fine) (py "beta") three Hd)|].
  vm_compute. reflexivity.
Defined.


Example readme_of_three :
  string_of_list_ascii (readme_section (Skill (py "alpha") [] (root ++ [py "alpha"])))
  = String.append "### alpha" (String "010" (String "010"
      (String.append "- **File**: `alpha.zip`"
         (String "010" (String "010" (String "010" EmptyString))))))%string.
Proof. vm_compute. reflexivity. Qed.

End BuildMoreRuns.
